(** * Polling utilities of the end-to-end test suite ([e2e/utils/Utilities.ts])

    The three pollers [waitUntil], [waitForElementToStopMoving] and
    [waitForElementToBeEnabled] are asynchronous loops that talk to their
    environment: they read the wall clock, await the caller's condition or the
    attributes of a native element, and suspend on a timer.  Each poller is
    embedded as an interaction tree over the events below, the [while] loops
    through [ITree.iter]; an environment answers the events, and [run]
    executes a tree against an environment, recording every call.

    Times, durations and coordinates are integers (milliseconds, points);
    an [await] either resolves to a value or rejects with a thrown value,
    which the [async] function rethrows unless it catches it.  A run may
    never settle (a clock that stands still never reaches a deadline), so
    [run] takes fuel, one unit per node of the tree it visits, and reports
    the calls made so far when the fuel runs out.

    The development also covers [formatForExactMatchGroup] of the same
    class, the gestures [waitAndTap] and [tapWebElement] of
    [e2e/utils/Gestures.ts], which call the pollers and the device, and the
    slice of the favorite tokens with its reducers, selectors and persist
    transform. *)

From Stdlib Require Import ZArith List String Ascii Lia Bool DecimalString.
From Stdlib Require Import Morphisms Setoid.
From ITree Require Import ITree ITreeFacts.
Import ListNotations.
Import ITreeNotations.
Local Open Scope string_scope.
Local Open Scope itree_scope.
Local Open Scope Z_scope.

Set Implicit Arguments.

(** ** Values *)

(** A thrown JavaScript value: an [Error] object with its message, or any
    other value raised by the environment, identified by reference. *)
Inductive thrown : Type :=
| Error (message : string)
| Raised (ref : nat).

(** How an [async] function settles. *)
Inductive settled : Type :=
| Resolved
| Rejected (e : thrown).

(** A field of [attributes.frame]: [typeof v === 'number'] holds of [JNumber]
    only.  Coordinates are compared with [===]. *)
Inductive jsvalue : Type :=
| JNumber (n : Z)
| JOther.

Record frame_t : Type := { frame_x : jsvalue; frame_y : jsvalue }.

(** What [getAttributes()] resolves to, as far as the pollers look at it. *)
Record attributes : Type := { enabled : bool; frame : option frame_t }.

Record position : Type := { x : Z; y : Z }.

(** Template-literal conversion of a duration in integral milliseconds:
    all its decimal digits, as JavaScript prints a number below 1e21. *)
Definition toString (n : Z) : string := NilZero.string_of_int (Z.to_int n).

(** ** Events *)

Variant pollE : Type -> Type :=
| DateNow : pollE Z                              (* Date.now() *)
| Condition : pollE (thrown + bool)              (* await condition() *)
| AwaitElement : pollE (thrown + unit)           (* await element *)
| GetAttributes : pollE (thrown + attributes)    (* await el.getAttributes() *)
| SetTimeout (ms : Z) : pollE unit.              (* await a timer of ms *)

(** One recorded call: the event together with its answer. *)
Inductive call : Type :=
| NowAt (t : Z)
| ConditionGave (r : thrown + bool)
| ElementGave (r : thrown + unit)
| AttributesGave (r : thrown + attributes)
| Slept (ms : Z).

(** ** Environments *)

Record env (W : Type) : Type := {
  now : W -> Z * W;
  condition : W -> (thrown + bool) * W;
  element : W -> (thrown + unit) * W;
  getAttributes : W -> (thrown + attributes) * W;
  sleep : Z -> W -> W
}.

Definition handle {W} (h : env W) {T} (e : pollE T) (w : W) : T * W * call :=
  match e in pollE T return T * W * call with
  | DateNow => let (t, w') := now h w in (t, w', NowAt t)
  | Condition => let (r, w') := condition h w in (r, w', ConditionGave r)
  | AwaitElement => let (r, w') := element h w in (r, w', ElementGave r)
  | GetAttributes => let (r, w') := getAttributes h w in (r, w', AttributesGave r)
  | SetTimeout ms => (tt, sleep h ms w, Slept ms)
  end.

(** The state of a run: its outcome ([None] while the program has not
    settled), the world it left, and the calls it made, oldest first. *)
Record run_t (W R : Type) : Type := Run {
  outcome : option R;
  world : W;
  calls : list call
}.

Definition after {W R} (c : call) (r : run_t W R) : run_t W R :=
  Run (outcome r) (world r) (c :: calls r).

(** [run h fuel t w] executes at most [fuel] steps of [t] from world [w]. *)
Fixpoint run {W R} (h : env W) (fuel : nat) (t : itree pollE R) (w : W)
  : run_t W R :=
  match fuel with
  | O => Run None w []
  | S fuel' =>
    match observe t with
    | RetF r => Run (Some r) w []
    | TauF t' => run h fuel' t' w
    | VisF e k =>
      let '(a, w', c) := handle h e w in after c (run h fuel' (k a) w')
    end
  end.

(** ** The pollers *)

(** Loop control: the body of a [while] either goes round again or leaves
    the loop with a value. *)
Notation "'continue' s" := (Ret (inl s)) (at level 10, s at level 9, only parsing).
Notation "'leave' r" := (Ret (inr r)) (at level 10, r at level 9, only parsing).

(** A parameter with a default value: the default stands in for [undefined]. *)
Definition default (d : Z) (v : option Z) : Z :=
  match v with Some n => n | None => d end.

(** *** [waitForElementToBeEnabled] *)

Definition notEnabledMessage : string := "Element is not enabled".

(** The [while] loop; it is left with the exception that escaped it, or
    with the value of [isEnabled] at the [break] or at the failed guard. The
    check after the loop throws unless [isEnabled] holds. *)
Definition waitForElementToBeEnabled_loop (startTime timeout interval : Z)
  : bool -> itree pollE (thrown + bool) :=
  ITree.iter (fun isEnabled : bool =>
    currentTime <- ITree.trigger DateNow ;;
    if currentTime - startTime <? timeout
    then
      el <- ITree.trigger AwaitElement ;;
      match el with
      | inl e => leave (inl e)
      | inr _ =>
        attrs <- ITree.trigger GetAttributes ;;
        match attrs with
        | inl e => leave (inl e)
        | inr a =>
          let isEnabled := enabled a in
          if isEnabled
          then leave (inr isEnabled)
          else ITree.trigger (SetTimeout interval) ;; continue isEnabled
        end
      end
    else leave (inr isEnabled)).

Definition waitForElementToBeEnabled_end (exit : thrown + bool) : itree pollE settled :=
  match exit with
  | inl e => Ret (Rejected e)
  | inr isEnabled =>
    if negb isEnabled
    then Ret (Rejected (Error notEnabledMessage))
    else Ret Resolved
  end.

(** The loop and the check that follows it. *)
Definition waitForElementToBeEnabled_poll (startTime timeout interval : Z) (isEnabled : bool)
  : itree pollE settled :=
  exit <- waitForElementToBeEnabled_loop startTime timeout interval isEnabled ;;
  waitForElementToBeEnabled_end exit.

Definition waitForElementToBeEnabled (timeout interval : option Z) : itree pollE settled :=
  let timeout := default 3500 timeout in
  let interval := default 100 interval in
  startTime <- ITree.trigger DateNow ;;
  let isEnabled := false in
  waitForElementToBeEnabled_poll startTime timeout interval isEnabled.

(** *** [waitForElementToStopMoving] *)

Module WaitForStability.
Record Options : Type := {
  timeout : option Z;
  interval : option Z;
  stableCount : option Z
}.
End WaitForStability.

Definition notStableMessage : string := "Element did not become stable in time".
Definition fallBackTimeout : Z := 2000.

(** The frame of the attributes as a position, when both coordinates are
    numbers. *)
Definition framePosition (a : attributes) : option position :=
  match frame a with
  | Some f =>
    match frame_x f, frame_y f with
    | JNumber fx, JNumber fy => Some {| x := fx; y := fy |}
    | _, _ => None
    end
  | None => None
  end.

(** The [try] block of [getPosition] catches what the fetch throws. *)
Definition getPosition : itree pollE (option position) :=
  attrs <- ITree.trigger GetAttributes ;;
  match attrs with
  | inr a => Ret (framePosition a)
  | inl _ => Ret None
  end.

(** What [getPosition] returns for an answer of the fetch. *)
Definition sampleOf (attrs : thrown + attributes) : option position :=
  match attrs with
  | inr a => framePosition a
  | inl _ => None
  end.

(** [lastPosition && position.x === lastPosition.x && position.y === lastPosition.y] *)
Definition samePosition (lastPosition : option position) (p : position) : bool :=
  match lastPosition with
  | Some l => (x p =? x l) && (y p =? y l)
  | None => false
  end.

Definition waitForElementToStopMoving_loop (start timeout interval stableCount : Z)
  : option position * Z -> itree pollE settled :=
  ITree.iter (fun '(lastPosition, stableChecks) =>
    currentTime <- ITree.trigger DateNow ;;
    if currentTime - start <? timeout
    then
      el <- ITree.trigger AwaitElement ;;
      match el with
      | inl e => leave (Rejected e)
      | inr _ =>
        position <- getPosition ;;
        match position with
        | None =>
          ITree.trigger (SetTimeout fallBackTimeout) ;;
          leave Resolved
        | Some p =>
          if samePosition lastPosition p
          then
            let stableChecks := stableChecks + 1 in
            if stableChecks >=? stableCount
            then leave Resolved
            else ITree.trigger (SetTimeout interval) ;;
                 continue (lastPosition, stableChecks)
          else
            let lastPosition := Some p in
            let stableChecks := 1 in
            ITree.trigger (SetTimeout interval) ;;
            continue (lastPosition, stableChecks)
        end
      end
    else leave (Rejected (Error notStableMessage))).

Definition waitForElementToStopMoving (options : WaitForStability.Options)
  : itree pollE settled :=
  let timeout := default 5000 (WaitForStability.timeout options) in
  let interval := default 200 (WaitForStability.interval options) in
  let stableCount := default 3 (WaitForStability.stableCount options) in
  let lastPosition := @None position in
  let stableChecks := 0 in
  start <- ITree.trigger DateNow ;;
  waitForElementToStopMoving_loop start timeout interval stableCount
    (lastPosition, stableChecks).

(** *** [waitUntil] *)

Record WaitUntilOptions : Type := { interval : Z; timeout : Z }.

Definition conditionNotMetMessage (timeout : Z) : string :=
  ("Condition not met within " ++ toString timeout ++ "ms.")%string.

Definition waitUntil_loop (interval timeout endTime : Z) : itree pollE settled :=
  ITree.iter (fun _ : unit =>
    result <- ITree.trigger Condition ;;
    match result with
    | inl e => leave (Rejected e)
    | inr true => leave Resolved
    | inr false =>
      currentTime <- ITree.trigger DateNow ;;
      if currentTime >=? endTime
      then leave (Rejected (Error (conditionNotMetMessage timeout)))
      else
        let remainingTime := endTime - currentTime in
        let waitTime := Z.min interval remainingTime in
        ITree.trigger (SetTimeout waitTime) ;;
        continue tt
    end) tt.

Definition waitUntil (options : WaitUntilOptions) : itree pollE settled :=
  let '{| interval := interval; timeout := timeout |} := options in
  startTime <- ITree.trigger DateNow ;;
  let endTime := startTime + timeout in
  waitUntil_loop interval timeout endTime.

(** ** The pollers as the specification words them *)

Section Specification.
Context {W : Type} (h : env W).

(** ConditionPoller, one round after the other: invoke the condition; if
    it resolves true, succeed at once; if false, compare the clock with
    the deadline and fail with the configured timeout when it is at or past
    it; otherwise suspend for [min(interval, endTime - now)] and retry.  An
    error of the condition propagates. *)
Fixpoint ConditionPoller_rounds (rounds : nat) (interval timeout endTime : Z) (w : W)
  : run_t W settled :=
  match rounds with
  | O => Run None w []
  | S rounds' =>
    let (result, w1) := condition h w in
    after (ConditionGave result)
      match result with
      | inl e => Run (Some (Rejected e)) w1 []
      | inr true => Run (Some Resolved) w1 []
      | inr false =>
        let (t, w2) := now h w1 in
        after (NowAt t)
          (if endTime <=? t
           then Run (Some (Rejected (Error (conditionNotMetMessage timeout)))) w2 []
           else
             let waitTime := Z.min interval (endTime - t) in
             after (Slept waitTime)
               (ConditionPoller_rounds rounds' interval timeout endTime
                  (sleep h waitTime w2)))
      end
  end.

(** The deadline is start-time + timeout, computed once at call start. *)
Definition ConditionPoller (rounds : nat) (interval timeout : Z) (w : W)
  : run_t W settled :=
  let (start, w0) := now h w in
  after (NowAt start)
    (ConditionPoller_rounds rounds interval timeout (start + timeout) w0).

(** EnabledPoller: until the timeout has elapsed, read the enabled
    attribute of the target (await the target, fetch its attributes);
    succeed as soon as it is true, otherwise suspend for the fixed interval
    and read again; once the timeout has elapsed, fail with the not-enabled
    error.  An error of the read propagates. *)
Fixpoint EnabledPoller_rounds (rounds : nat) (start timeout interval : Z) (w : W)
  : run_t W settled :=
  match rounds with
  | O => Run None w []
  | S rounds' =>
    let (t, w1) := now h w in
    after (NowAt t)
      (if timeout <=? t - start
       then Run (Some (Rejected (Error notEnabledMessage))) w1 []
       else
         let (el, w2) := element h w1 in
         after (ElementGave el)
           match el with
           | inl e => Run (Some (Rejected e)) w2 []
           | inr _ =>
             let (attrs, w3) := getAttributes h w2 in
             after (AttributesGave attrs)
               match attrs with
               | inl e => Run (Some (Rejected e)) w3 []
               | inr a =>
                 if enabled a
                 then Run (Some Resolved) w3 []
                 else
                   after (Slept interval)
                     (EnabledPoller_rounds rounds' start timeout interval
                        (sleep h interval w3))
               end
           end)
  end.

Definition EnabledPoller (rounds : nat) (timeout interval : Z) (w : W)
  : run_t W settled :=
  let (start, w0) := now h w in
  after (NowAt start) (EnabledPoller_rounds rounds start timeout interval w0).
End Specification.

(** ** Measures of a run *)

Definition isSuspension (c : call) : bool :=
  match c with Slept _ => true | _ => false end.

Definition isInvocation (c : call) : bool :=
  match c with ConditionGave _ => true | _ => false end.

Definition suspensions (cs : list call) : nat := List.length (filter isSuspension cs).
Definition invocations (cs : list call) : nat := List.length (filter isInvocation cs).

(** The number of suspensions between each evaluation of the condition and
    the next one; [since] counts those seen after the last evaluation. *)
Fixpoint suspensionsBetween (since : option nat) (cs : list call) : list nat :=
  match cs with
  | [] => []
  | ConditionGave _ :: cs' =>
    match since with
    | Some k => k :: suspensionsBetween (Some O) cs'
    | None => suspensionsBetween (Some O) cs'
    end
  | Slept _ :: cs' => suspensionsBetween (option_map S since) cs'
  | _ :: cs' => suspensionsBetween since cs'
  end.

(** The error an awaited call raised, if any: the first rejected answer in
    the calls, together with the calls made after it. *)
Definition raiseOf (c : call) : option thrown :=
  match c with
  | ConditionGave (inl e) | ElementGave (inl e) | AttributesGave (inl e) => Some e
  | _ => None
  end.

Fixpoint raised (cs : list call) : option (thrown * list call) :=
  match cs with
  | [] => None
  | c :: cs' =>
    match raiseOf c with
    | Some e => Some (e, cs')
    | None => raised cs'
    end
  end.

(** Every sample in the calls is available: the element was there and the
    fetch gave a position. *)
Definition isAvailable (c : call) : bool :=
  match c with
  | ElementGave (inl _) => false
  | AttributesGave r => match sampleOf r with Some _ => true | None => false end
  | _ => true
  end.

Definition everySampleAvailable (cs : list call) : bool := forallb isAvailable cs.

(** The last call made is a fetch of the attributes. *)
Definition isFetch (c : call) : bool :=
  match c with AttributesGave _ => true | _ => false end.

Definition endsWithSample (cs : list call) : bool :=
  fold_left (fun _ c => isFetch c) cs false.

(** The calls made after the first unavailable sample, if there is one. *)
Fixpoint gaveUp (cs : list call) : option (list call) :=
  match cs with
  | [] => None
  | AttributesGave r :: cs' =>
    match sampleOf r with
    | None => Some cs'
    | Some _ => gaveUp cs'
    end
  | _ :: cs' => gaveUp cs'
  end.

(** The calls made after the first reading of the clock that is [timeout]
    or more past [start], if there is one; in [expired] the start is the
    first reading of the run. *)
Fixpoint expiredIn (start timeout : Z) (cs : list call) : option (list call) :=
  match cs with
  | [] => None
  | NowAt t :: cs' =>
    if t - start <? timeout then expiredIn start timeout cs' else Some cs'
  | _ :: cs' => expiredIn start timeout cs'
  end.

Definition expired (timeout : Z) (cs : list call) : option (list call) :=
  match cs with
  | NowAt start :: cs' => expiredIn start timeout cs'
  | _ => None
  end.

(** [settles h t w o w']: run long enough from [w], the program settles as
    [o] and leaves the world [w']. *)
Definition settles {W R} (h : env W) (t : itree pollE R) (w : W) (o : R) (w' : W) : Prop :=
  exists fuel, outcome (run h fuel t w) = Some o /\ world (run h fuel t w) = w'.

(** ** Ideal clocks *)

(** Under an ideal clock reading the time and sampling take no time, and a
    suspension of [ms] advances the clock by exactly [ms]. *)

(** The condition always resolves false and the element is never enabled;
    the world is the clock. *)
Definition never_met : env Z := {|
  now := fun c => (c, c);
  condition := fun c => (inr false, c);
  element := fun c => (inr tt, c);
  getAttributes := fun c => (inr {| enabled := false; frame := None |}, c);
  sleep := fun ms c => c + ms
|}.

(** A scripted target over an ideal clock: the [n]-th evaluation of the
    condition and the [n]-th fetch of the attributes answer as the scripts
    say. *)
Record scripted_world : Type := { clock : Z; asked : nat; fetched : nat }.

Definition scripted (conditions : nat -> thrown + bool)
    (fetches : nat -> thrown + attributes) : env scripted_world := {|
  now := fun w => (clock w, w);
  condition := fun w =>
    (conditions (asked w),
     {| clock := clock w; asked := S (asked w); fetched := fetched w |});
  element := fun w => (inr tt, w);
  getAttributes := fun w =>
    (fetches (fetched w),
     {| clock := clock w; asked := asked w; fetched := S (fetched w) |});
  sleep := fun ms w =>
    {| clock := clock w + ms; asked := asked w; fetched := fetched w |}
|}.

Definition at_start (t : Z) : scripted_world := {| clock := t; asked := 0; fetched := 0 |}.

(** The attributes of an element whose frame is at a position, or has no
    frame ([None], an unavailable sample). *)
Definition attributesAt (sample : option position) : attributes :=
  {| enabled := true;
     frame := match sample with
              | Some p => Some {| frame_x := JNumber (x p); frame_y := JNumber (y p) |}
              | None => None
              end |}.

(** An available sample. *)
Definition at_ (px py : Z) : option position := Some {| x := px; y := py |}.

(** The element is sampled along a sequence of positions; the condition is
    never met. *)
Definition sampled (samples : nat -> option position) : env scripted_world :=
  scripted (fun _ => inr false) (fun n => inr (attributesAt (samples n))).

(** ** Some concrete targets *)

(** A condition that is met at once, then raises. *)
Definition met_at_once : env scripted_world :=
  scripted (fun n => match n with O => inr true | S _ => inl (Raised 7) end)
           (fun _ => inr (attributesAt None)).

(** A condition and an element whose fetch raise. *)
Definition raising : env scripted_world :=
  scripted (fun _ => inl (Raised 7)) (fun _ => inl (Error "no such element")).

(** The samples (1,1), (2,2), (1,1), (1,1), ... *)
Definition alternating (n : nat) : option position :=
  match n with
  | 1%nat => at_ 2 2
  | _ => at_ 1 1
  end.

(** An element that cannot be observed, polled for 1ms. *)
Definition unobservable : env scripted_world := sampled (fun _ => None).

(** A wall clock that is set back between its first two readings, from 10
    to 5; the element is enabled. The world counts the readings. *)
Definition set_back : env nat := {|
  now := fun n => (match n with O => 10 | S _ => 5 end, S n);
  condition := fun n => (inr false, n);
  element := fun n => (inr tt, n);
  getAttributes := fun n => (inr {| enabled := true; frame := None |}, n);
  sleep := fun _ n => n
|}.

Definition briefly : WaitForStability.Options :=
  {| WaitForStability.timeout := Some 1;
     WaitForStability.interval := None;
     WaitForStability.stableCount := None |}.

(** ** Strings *)

(** [String.prototype.split] with a separator of one character, and
    [Array.prototype.join]. *)
Fixpoint split (sep : ascii) (s : string) : list string :=
  match s with
  | EmptyString => [EmptyString]
  | String c s' =>
    if Ascii.eqb c sep
    then EmptyString :: split sep s'
    else
      match split sep s' with
      | part :: parts => String c part :: parts
      | [] => [String c EmptyString]
      end
  end.

Definition join (sep : string) (parts : list string) : string := String.concat sep parts.

(** [c] occurs in [s]. *)
Fixpoint occurs (c : ascii) (s : string) : bool :=
  match s with
  | EmptyString => false
  | String c' s' => Ascii.eqb c' c || occurs c s'
  end.

(** [array[i]] for a number [i]: [undefined] outside the array. *)
Definition at_index {A} (array : list A) (i : Z) : option A :=
  if i <? 0 then None else nth_error array (Z.to_nat i).

(** [Array.prototype.slice(start, end)]: a negative index counts from the
    end of the array. *)
Definition slice {A} (array : list A) (start end_ : Z) : list A :=
  let len := Z.of_nat (List.length array) in
  let from := if start <? 0 then Z.max (len + start) 0 else Z.min start len in
  let to := if end_ <? 0 then Z.max (len + end_) 0 else Z.min end_ len in
  firstn (Z.to_nat (to - from)) (skipn (Z.to_nat from) array).

(** *** [formatForExactMatchGroup] *)

Definition quote : ascii := "034"%char.

(** The template [\\("${regexstrings.join('","')}"\\)]: a backslash, an
    opening parenthesis and a quote; the strings joined by quote, comma,
    quote; a quote, a backslash and a closing parenthesis. *)
Definition formatForExactMatchGroup (regexstrings : list string) : string :=
  ("\(" ++ String quote (join (String quote ("," ++ String quote EmptyString)) regexstrings
                           ++ String quote "\)"))%string.

(** The separator of the join, and what follows the opening quote of the
    group. *)
Definition separator : string := String quote ("," ++ String quote EmptyString).

Definition groupBody (regexstrings : list string) : string :=
  (join separator regexstrings ++ String quote "\)")%string.

(** The getter [BlacklistURLs], over the list of the resource file. *)
Definition BlacklistURLs (blacklistURLs : list string) : string :=
  formatForExactMatchGroup blacklistURLs.

(** ** Favorite tokens ([core/redux/slices/favoriteTokens]) *)

(** A token identifier as it is at run time: [chainId] is [undefined] when
    [deserializeTokenId] finds no second part, [isStaked] is optional. *)
Record TokenIdentifier : Type := {
  address : string;
  chainId : option string;
  isStaked : option bool
}.

(** Truthiness of an optional boolean. *)
Definition truthy (b : option bool) : bool :=
  match b with Some true => true | _ => false end.

(** A value in a template literal. *)
Definition templated (s : option string) : string :=
  match s with Some v => v | None => "undefined" end.

Definition serializeTokenId (token : TokenIdentifier) : string :=
  let staked := if truthy (isStaked token) then "staked" else "unstaked" in
  (address token ++ "-" ++ templated (chainId token) ++ "-" ++ staked)%string.

Definition deserializeTokenId (serialized : string) : TokenIdentifier :=
  let parts := split "-" serialized in
  let len := Z.of_nat (List.length parts) in
  let isStaked :=
    match at_index parts (len - 1) with
    | Some last => String.eqb last "staked"
    | None => false
    end in
  let chainId := at_index parts (len - 2) in
  let address := join "-" (slice parts 0 (-2)) in
  {| address := address; chainId := chainId; isStaked := Some isStaked |}.

(** A [Set] of strings: its elements in insertion order, each once. *)
Definition StringSet : Type := list string.

Definition set_has (s : StringSet) (v : string) : bool := existsb (String.eqb v) s.

Definition set_add (s : StringSet) (v : string) : StringSet :=
  if set_has s v then s else (s ++ [v])%list.

Definition set_delete (s : StringSet) (v : string) : StringSet :=
  filter (fun v' => negb (String.eqb v v')) s.

(** [new Set(array)] and [Array.from(set)]. *)
Definition set_of_array (array : list string) : StringSet :=
  fold_left set_add array [].

Definition array_of_set (s : StringSet) : list string := s.

Record FavoriteTokensState : Type := { favoriteTokens : StringSet }.

Definition initialState : FavoriteTokensState := {| favoriteTokens := [] |}.

(** The reducers. *)
Definition addFavoriteToken (state : FavoriteTokensState) (payload : TokenIdentifier)
  : FavoriteTokensState :=
  let tokenId := serializeTokenId payload in
  {| favoriteTokens := set_add (favoriteTokens state) tokenId |}.

Definition removeFavoriteToken (state : FavoriteTokensState) (payload : TokenIdentifier)
  : FavoriteTokensState :=
  let tokenId := serializeTokenId payload in
  {| favoriteTokens := set_delete (favoriteTokens state) tokenId |}.

Definition toggleFavoriteToken (state : FavoriteTokensState) (payload : TokenIdentifier)
  : FavoriteTokensState :=
  let tokenId := serializeTokenId payload in
  if set_has (favoriteTokens state) tokenId
  then {| favoriteTokens := set_delete (favoriteTokens state) tokenId |}
  else {| favoriteTokens := set_add (favoriteTokens state) tokenId |}.

Definition clearFavoriteTokens (state : FavoriteTokensState) : FavoriteTokensState :=
  {| favoriteTokens := [] |}.

Definition setFavoriteTokensFromArray (state : FavoriteTokensState) (payload : list string)
  : FavoriteTokensState :=
  {| favoriteTokens := set_of_array payload |}.

(** The selectors, on the slice. *)
Definition selectFavoriteTokens (state : FavoriteTokensState) : StringSet :=
  favoriteTokens state.

Definition selectIsFavoriteToken (state : FavoriteTokensState) (token : TokenIdentifier)
  : bool :=
  let tokenId := serializeTokenId token in
  set_has (selectFavoriteTokens state) tokenId.

Definition selectFavoriteTokensList (state : FavoriteTokensState) : list TokenIdentifier :=
  List.map deserializeTokenId (array_of_set (selectFavoriteTokens state)).

Definition selectFavoriteTokensCount (state : FavoriteTokensState) : nat :=
  List.length (selectFavoriteTokens state).

(** The persisted form of the slice: [favoriteTokens] is an array, is
    missing (or falsy), or is some other value. *)
Inductive persistedTokens : Type :=
| AnArray (array : list string)
| Missing
| NotAnArray.

(** What [favoriteTokensTransform.in] returns: [null], the inbound state as
    it came, or the state with its set rebuilt. *)
Inductive inbound : Type :=
| Null
| AsStored (stored : persistedTokens)
| Rebuilt (state : FavoriteTokensState).

Definition favoriteTokensTransform_in (inboundState : option persistedTokens) : inbound :=
  match inboundState with
  | Some (AnArray array) => Rebuilt {| favoriteTokens := set_of_array array |}
  | Some stored => AsStored stored
  | None => Null
  end.

Definition favoriteTokensTransform_out (outboundState : FavoriteTokensState)
  : persistedTokens :=
  AnArray (array_of_set (favoriteTokens outboundState)).

(** ** Gestures ([e2e/utils/Gestures.ts]) *)

(** What the gestures ask of the device, besides what the pollers ask. *)
Inductive platform : Type := ios | android.

Inductive expectation : Type := toExist | toBeVisible.

Variant deviceE : Type -> Type :=
| GetPlatform : deviceE platform                   (* device.getPlatform() *)
| WaitFor (what : expectation) (timeout : Z)
  : deviceE (thrown + unit)                        (* await waitFor(el).what().withTimeout(timeout) *)
| Expect (what : expectation)
  : deviceE (thrown + unit)                        (* await expect(el).what() *)
| Tap : deviceE (thrown + unit).                   (* await el.tap() *)

Definition gestureE : Type -> Type := pollE +' deviceE.

(** One recorded action: a call of the pollers, or a call to the device
    with its answer. *)
Inductive action : Type :=
| Polled (c : call)
| PlatformWas (p : platform)
| WaitedFor (what : expectation) (timeout : Z) (r : thrown + unit)
| Expected (what : expectation) (r : thrown + unit)
| Tapped (r : thrown + unit).

Record device (W : Type) : Type := {
  polled : env W;
  getPlatform : W -> platform * W;
  waitFor : expectation -> Z -> W -> (thrown + unit) * W;
  expect : expectation -> W -> (thrown + unit) * W;
  tap : W -> (thrown + unit) * W
}.

Definition act {W} (d : device W) {T} (e : gestureE T) (w : W) : T * W * action :=
  match e with
  | inl1 e' => let '(a, w', c) := handle (polled d) e' w in (a, w', Polled c)
  | inr1 e' =>
    match e' in deviceE T return T * W * action with
    | GetPlatform => let (p, w') := getPlatform d w in (p, w', PlatformWas p)
    | WaitFor what timeout =>
      let (r, w') := waitFor d what timeout w in (r, w', WaitedFor what timeout r)
    | Expect what => let (r, w') := expect d what w in (r, w', Expected what r)
    | Tap => let (r, w') := tap d w in (r, w', Tapped r)
    end
  end.

(** The state of a gesture: as for a run, with actions for calls. *)
Record gesture_t (W R : Type) : Type := Gesture {
  result : option R;
  device_left : W;
  actions : list action
}.

Definition then_ {W R} (a : action) (g : gesture_t W R) : gesture_t W R :=
  Gesture (result g) (device_left g) (a :: actions g).

Fixpoint perform {W R} (d : device W) (fuel : nat) (t : itree gestureE R) (w : W)
  : gesture_t W R :=
  match fuel with
  | O => Gesture None w []
  | S fuel' =>
    match observe t with
    | RetF r => Gesture (Some r) w []
    | TauF t' => perform d fuel' t' w
    | VisF e k =>
      let '(a, w', c) := act d e w in then_ c (perform d fuel' (k a) w')
    end
  end.

Definition poll {T} (e : pollE T) : itree gestureE T := ITree.trigger (inl1 e).
Definition ask {T} (e : deviceE T) : itree gestureE T := ITree.trigger (inr1 e).

(** A poller of [Utilities], called from a gesture. *)
Definition Utilities_ {R} (t : itree pollE R) : itree gestureE R :=
  translate (fun T (e : pollE T) => inl1 e) t.

Module GestureOptions.
Record t : Type := {
  timeout : option Z;
  delayBeforeTap : option Z;
  skipVisibilityCheck : option bool;
  experimentalWaitForStability : option bool
}.
End GestureOptions.

Definition default_bool (d : bool) (v : option bool) : bool :=
  match v with Some b => b | None => d end.

(** *** [delayBeforeAction] *)

Definition delayBeforeAction (delayMs : Z) : itree gestureE unit :=
  if delayMs >? 0 then poll (SetTimeout delayMs) else Ret tt.

(** *** [waitAndTap] *)

(** [elementToTap] is the element awaited at the start; the poller and the
    tap await it again. *)
Definition waitAndTap (options : GestureOptions.t) : itree gestureE settled :=
  let timeout := default 15000 (GestureOptions.timeout options) in
  let delayBeforeTap := default 0 (GestureOptions.delayBeforeTap options) in
  let skipVisibilityCheck :=
    default_bool false (GestureOptions.skipVisibilityCheck options) in
  elementToTap <- poll AwaitElement ;;
  match elementToTap with
  | inl e => Ret (Rejected e)
  | inr _ =>
    shown <- (if negb skipVisibilityCheck
              then
                p <- ask GetPlatform ;;
                match p with
                | ios => ask (WaitFor toExist timeout)
                | android => ask (WaitFor toBeVisible timeout)
                end
              else Ret (inr tt)) ;;
    match shown with
    | inl e => Ret (Rejected e)
    | inr _ =>
      delayBeforeAction delayBeforeTap ;;
      isEnabled <- Utilities_ (waitForElementToBeEnabled None None) ;;
      match isEnabled with
      | Rejected e => Ret (Rejected e)
      | Resolved =>
        el <- poll AwaitElement ;;
        match el with
        | inl e => Ret (Rejected e)
        | inr _ =>
          tapped <- ask Tap ;;
          match tapped with
          | inl e => Ret (Rejected e)
          | inr _ => Ret Resolved
          end
        end
      end
    end
  end.

(** *** [tapWebElement] *)

Definition notTappableMessage : string := "Web element not found or not tappable".

(** The [try] block: it ends with the error that the [catch] swallows, or
    at the [return]. *)
Definition tapWebElement_try (delayBeforeTap : Z) : itree gestureE (thrown + unit) :=
  el <- poll AwaitElement ;;
  match el with
  | inl e => Ret (inl e)
  | inr _ =>
    exists_ <- ask (Expect toExist) ;;
    match exists_ with
    | inl e => Ret (inl e)
    | inr _ =>
      delayBeforeAction delayBeforeTap ;;
      el' <- poll AwaitElement ;;
      match el' with
      | inl e => Ret (inl e)
      | inr _ => ask Tap
      end
    end
  end.

Definition tapWebElement_loop (start timeout delayBeforeTap : Z) : itree gestureE settled :=
  ITree.iter (fun _ : unit =>
    currentTime <- poll DateNow ;;
    if currentTime - start <? timeout
    then
      attempt <- tapWebElement_try delayBeforeTap ;;
      match attempt with
      | inr _ => leave Resolved
      | inl _ => poll (SetTimeout 1000) ;; continue tt
      end
    else leave (Rejected (Error notTappableMessage))) tt.

Definition tapWebElement (options : GestureOptions.t) : itree gestureE settled :=
  let timeout := default 15000 (GestureOptions.timeout options) in
  let delayBeforeTap := default 0 (GestureOptions.delayBeforeTap options) in
  start <- poll DateNow ;;
  tapWebElement_loop start timeout delayBeforeTap.

(** The end of [waitAndTap], from the enabled wait on, and from the delay
    on. *)
Definition waitAndTap_tap (isEnabled : settled) : itree gestureE settled :=
  match isEnabled with
  | Rejected e => Ret (Rejected e)
  | Resolved =>
    el <- poll AwaitElement ;;
    match el with
    | inl e => Ret (Rejected e)
    | inr _ =>
      tapped <- ask Tap ;;
      match tapped with
      | inl e => Ret (Rejected e)
      | inr _ => Ret Resolved
      end
    end
  end.

Definition waitAndTap_enabled (delayBeforeTap : Z) : itree gestureE settled :=
  delayBeforeAction delayBeforeTap ;;
  isEnabled <- Utilities_ (waitForElementToBeEnabled None None) ;;
  waitAndTap_tap isEnabled.

(** The actions of a poller come first. *)
Definition polls_then {W R} (cs : list call) (g : gesture_t W R) : gesture_t W R :=
  Gesture (result g) (device_left g) (List.map Polled cs ++ actions g).

(** The last action is a tap that went through. *)
Definition isTap (a : action) : bool :=
  match a with Tapped (inr _) => true | _ => false end.

Definition endsWithTap (acts : list action) : bool :=
  fold_left (fun _ a => isTap a) acts false.

(** An element that never exists, and one that is never enabled, on a
    device under an ideal clock. *)
Definition absent : device Z := {|
  polled := never_met;
  getPlatform := fun c => (android, c);
  waitFor := fun _ _ c => (inl (Error "not visible"), c);
  expect := fun _ c => (inl (Error "not found"), c);
  tap := fun c => (inl (Error "not found"), c)
|}.

Definition disabled (p : platform) : device Z := {|
  polled := never_met;
  getPlatform := fun c => (p, c);
  waitFor := fun _ _ c => (inr tt, c);
  expect := fun _ c => (inr tt, c);
  tap := fun c => (inr tt, c)
|}.

(** The loop of [tapWebElement] in steps: the [catch] block, and the [try]
    block from the delay on. *)
Definition tapWebElement_catch (start timeout delayBeforeTap : Z) : itree gestureE settled :=
  Vis (inl1 (SetTimeout 1000)) (fun _ =>
    Tau (tapWebElement_loop start timeout delayBeforeTap)).

Definition tapWebElement_tap (start timeout delayBeforeTap : Z) : itree gestureE settled :=
  Vis (inl1 AwaitElement) (fun el' =>
    match el' with
    | inl _ => tapWebElement_catch start timeout delayBeforeTap
    | inr _ =>
      Vis (inr1 Tap) (fun tapped =>
        match tapped with
        | inl _ => tapWebElement_catch start timeout delayBeforeTap
        | inr _ => Ret Resolved
        end)
    end).

(** A gesture that resolved made a tap that went through last; one that
    was rejected gave up with the one message. *)
Definition tapped_or_gave_up {W} (g : gesture_t W settled) : Prop :=
  forall acc : bool,
    match result g with
    | None => True
    | Some Resolved => fold_left (fun _ a => isTap a) (actions g) acc = true
    | Some (Rejected e) => e = Error notTappableMessage
    end.

(** The last call made. *)
Definition lastCall (cs : list call) : option call :=
  fold_left (fun _ c => Some c) cs None.

(** A rejected stability wait made its last call at the clock, and gives up
    with its own message, or at the element, whose error it passes on. *)
Definition rejection_caused {W} (r : run_t W settled) : Prop :=
  forall acc : option call,
    match outcome r with
    | Some (Rejected e) =>
      match fold_left (fun _ c => Some c) (calls r) acc with
      | Some (NowAt _) => e = Error notStableMessage
      | Some (ElementGave (inl e')) => e = e'
      | _ => False
      end
    | _ => True
    end.

(** An element that is there and enabled, on a device that answers well. *)
Definition ready : device scripted_world := {|
  polled := unobservable;
  getPlatform := fun w => (ios, w);
  waitFor := fun _ _ w => (inr tt, w);
  expect := fun _ w => (inr tt, w);
  tap := fun w => (inr tt, w)
|}.

(** The options left out: [options = {}]. *)
Definition by_default : GestureOptions.t :=
  {| GestureOptions.timeout := None;
     GestureOptions.delayBeforeTap := None;
     GestureOptions.skipVisibilityCheck := None;
     GestureOptions.experimentalWaitForStability := None |}.

(** A token of the main chain, and its identifier. *)
Definition dai : TokenIdentifier :=
  {| address := "0x6b17"; chainId := Some "0x1"; isStaked := None |}.

Definition staked_dai : TokenIdentifier :=
  {| address := "0x6b17"; chainId := Some "0x1"; isStaked := Some true |}.

(** A gesture that resolved ended with a read that found the element
    enabled, the element awaited and a tap that went through; one that was
    rejected made no tap that went through. *)
Definition tapped_enabled {W} (g : gesture_t W settled) : Prop :=
  (result g = Some Resolved ->
   exists pre a,
     actions g = (pre ++ [Polled (AttributesGave (inr a));
                          Polled (ElementGave (inr tt));
                          Tapped (inr tt)])%list
     /\ enabled a = true)
  /\ (forall e, result g = Some (Rejected e) -> ~ In (Tapped (inr tt)) (actions g)).

(** The same of the end of [waitAndTap] alone, given how the enabled wait
    settled. *)
Definition tapped_at_once {W} (v : settled) (g : gesture_t W settled) : Prop :=
  (result g = Some Resolved ->
   v = Resolved /\ actions g = [Polled (ElementGave (inr tt)); Tapped (inr tt)])
  /\ (forall e, result g = Some (Rejected e) -> ~ In (Tapped (inr tt)) (actions g)).

Arguments waitUntil_loop : simpl never.
Arguments waitForElementToBeEnabled_poll : simpl never.
Arguments waitForElementToStopMoving_loop : simpl never.
Arguments conditionNotMetMessage : simpl never.

(** * Running interaction trees *)

Section Run.
Context {W R : Type} (h : env W).
Implicit Types (t : itree pollE R) (w : W).

Lemma run_O t w : run h O t w = Run None w [].
Proof. reflexivity. Qed.

Lemma run_Ret fuel (r : R) w : run h (S fuel) (Ret r) w = Run (Some r) w [].
Proof. reflexivity. Qed.

Lemma calls_run_Ret fuel (r : R) w : calls (run h fuel (Ret r) w) = [].
Proof. destruct fuel; reflexivity. Qed.

Lemma world_run_Ret fuel (r : R) w : world (run h fuel (Ret r) w) = w.
Proof. destruct fuel; reflexivity. Qed.

Lemma run_Tau fuel t w : run h (S fuel) (Tau t) w = run h fuel t w.
Proof. reflexivity. Qed.

Lemma run_Vis fuel {T} (e : pollE T) (k : T -> itree pollE R) w :
  run h (S fuel) (Vis e k) w =
  let '(a, w', c) := handle h e w in after c (run h fuel (k a) w').
Proof. reflexivity. Qed.

(** Strongly bisimilar trees run alike. *)
Lemma run_eq_itree fuel : forall t1 t2 w, t1 ≅ t2 -> run h fuel t1 w = run h fuel t2 w.
Proof.
  induction fuel as [|n IH]; intros t1 t2 w H; [reflexivity|].
  apply eqit_inv in H. simpl. unfold observe.
  destruct (_observe t1) as [r1|u1|X1 e1 k1], (_observe t2) as [r2|u2|X2 e2 k2];
    simpl in H; try contradiction; try discriminate.
  - now subst.
  - now apply IH.
  - destruct H as [p [He Hk]]. destruct p. simpl in He, Hk. subst e2.
    destruct (handle h e1 w) as [[a w'] c]. f_equal. apply IH, Hk.
Qed.

#[export] Instance run_Proper fuel :
  Proper (eq_itree eq ==> eq ==> eq) (@run W R h fuel).
Proof. intros t1 t2 Ht w1 w2 <-. now apply run_eq_itree. Qed.

(** Once a run has settled, more fuel changes nothing. *)
Lemma run_settled fuel : forall t w r fuel',
  outcome (run h fuel t w) = Some r -> (fuel <= fuel')%nat ->
  run h fuel' t w = run h fuel t w.
Proof.
  induction fuel as [|n IH]; intros t w r m H Hle; [discriminate|].
  destruct m as [|m]; [lia|]. simpl in *.
  destruct (observe t) as [r0|t'|X e k]; [reflexivity| |].
  - apply IH with r; [assumption|lia].
  - destruct (handle h e w) as [[a w'] c]. simpl in H.
    f_equal. apply IH with r; [assumption|lia].
Qed.
End Run.

(** * One round of each loop *)

Lemma waitUntil_loop_unfold (interval timeout endTime : Z) :
  waitUntil_loop interval timeout endTime ≅
  Vis Condition (fun result =>
    match result with
    | inl e => Ret (Rejected e)
    | inr true => Ret Resolved
    | inr false =>
      Vis DateNow (fun currentTime =>
        if currentTime >=? endTime
        then Ret (Rejected (Error (conditionNotMetMessage timeout)))
        else Vis (SetTimeout (Z.min interval (endTime - currentTime)))
                 (fun _ => Tau (waitUntil_loop interval timeout endTime)))
    end).
Proof.
  unfold waitUntil_loop at 1. rewrite unfold_iter, bind_bind, bind_trigger.
  apply eqit_Vis. intros [e|[|]].
  - rewrite bind_ret_l. reflexivity.
  - rewrite bind_ret_l. reflexivity.
  - rewrite bind_bind, bind_trigger. apply eqit_Vis. intros t.
    destruct (t >=? endTime).
    + rewrite bind_ret_l. reflexivity.
    + rewrite bind_bind, bind_trigger. apply eqit_Vis. intros [].
      rewrite bind_ret_l. reflexivity.
Qed.

Lemma waitUntil_unfold (i t : Z) :
  waitUntil {| interval := i; timeout := t |} ≅
  Vis DateNow (fun startTime => waitUntil_loop i t (startTime + t)).
Proof. unfold waitUntil. rewrite bind_trigger. reflexivity. Qed.

Lemma waitForElementToBeEnabled_poll_unfold (startTime timeout interval : Z) (isEnabled : bool) :
  waitForElementToBeEnabled_poll startTime timeout interval isEnabled ≅
  Vis DateNow (fun currentTime =>
    if currentTime - startTime <? timeout
    then
      Vis AwaitElement (fun el =>
        match el with
        | inl e => Ret (Rejected e)
        | inr _ =>
          Vis GetAttributes (fun attrs =>
            match attrs with
            | inl e => Ret (Rejected e)
            | inr a =>
              if enabled a
              then Ret Resolved
              else Vis (SetTimeout interval) (fun _ =>
                     Tau (waitForElementToBeEnabled_poll startTime timeout interval false))
            end)
        end)
    else if isEnabled then Ret Resolved else Ret (Rejected (Error notEnabledMessage))).
Proof.
  unfold waitForElementToBeEnabled_poll at 1, waitForElementToBeEnabled_loop at 1.
  rewrite unfold_iter, !bind_bind, bind_trigger. apply eqit_Vis. intros t.
  destruct (t - startTime <? timeout).
  - rewrite !bind_bind, bind_trigger. apply eqit_Vis. intros [e|[]].
    + rewrite !bind_ret_l. reflexivity.
    + rewrite !bind_bind, bind_trigger. apply eqit_Vis. intros [e|a].
      * rewrite !bind_ret_l. reflexivity.
      * destruct (enabled a) eqn:Ha.
        -- rewrite !bind_ret_l. reflexivity.
        -- rewrite !bind_bind, bind_trigger. apply eqit_Vis. intros [].
           rewrite !bind_ret_l, bind_tau. reflexivity.
  - rewrite !bind_ret_l. destruct isEnabled; reflexivity.
Qed.

Lemma waitForElementToBeEnabled_unfold (timeout interval : option Z) :
  waitForElementToBeEnabled timeout interval ≅
  Vis DateNow (fun startTime =>
    waitForElementToBeEnabled_poll startTime (default 3500 timeout) (default 100 interval) false).
Proof. unfold waitForElementToBeEnabled. rewrite bind_trigger. reflexivity. Qed.

Lemma waitForElementToStopMoving_loop_unfold (start timeout interval stableCount : Z)
    (lastPosition : option position) (stableChecks : Z) :
  waitForElementToStopMoving_loop start timeout interval stableCount (lastPosition, stableChecks) ≅
  Vis DateNow (fun currentTime =>
    if currentTime - start <? timeout
    then
      Vis AwaitElement (fun el =>
        match el with
        | inl e => Ret (Rejected e)
        | inr _ =>
          Vis GetAttributes (fun attrs =>
            match sampleOf attrs with
            | None => Vis (SetTimeout fallBackTimeout) (fun _ => Ret Resolved)
            | Some p =>
              if samePosition lastPosition p
              then
                if stableChecks + 1 >=? stableCount
                then Ret Resolved
                else Vis (SetTimeout interval) (fun _ =>
                       Tau (waitForElementToStopMoving_loop start timeout interval stableCount
                              (lastPosition, stableChecks + 1)))
              else Vis (SetTimeout interval) (fun _ =>
                     Tau (waitForElementToStopMoving_loop start timeout interval stableCount
                            (Some p, 1)))
            end)
        end)
    else Ret (Rejected (Error notStableMessage))).
Proof.
  unfold waitForElementToStopMoving_loop at 1.
  rewrite unfold_iter, !bind_bind, bind_trigger. apply eqit_Vis. intros t.
  destruct (t - start <? timeout).
  - rewrite !bind_bind, bind_trigger. apply eqit_Vis. intros [e|[]].
    + rewrite !bind_ret_l. reflexivity.
    + unfold getPosition. rewrite !bind_bind, bind_trigger. apply eqit_Vis. intros attrs.
      assert (Hp : (match attrs with inr a => Ret (framePosition a) | inl _ => Ret None end
                    : itree pollE (option position))
                   = Ret (sampleOf attrs))
        by (destruct attrs; reflexivity).
      rewrite Hp, !bind_ret_l.
      destruct (sampleOf attrs) as [p|].
      * destruct (samePosition lastPosition p).
        -- destruct (stableChecks + 1 >=? stableCount).
           ++ rewrite !bind_ret_l. reflexivity.
           ++ rewrite !bind_bind, bind_trigger. apply eqit_Vis. intros [].
              rewrite !bind_ret_l. reflexivity.
        -- rewrite !bind_bind, bind_trigger. apply eqit_Vis. intros [].
           rewrite !bind_ret_l. reflexivity.
      * rewrite !bind_bind, bind_trigger. apply eqit_Vis. intros [].
        rewrite !bind_ret_l. reflexivity.
  - rewrite !bind_ret_l. reflexivity.
Qed.

Lemma waitForElementToStopMoving_unfold (options : WaitForStability.Options) :
  waitForElementToStopMoving options ≅
  Vis DateNow (fun start =>
    waitForElementToStopMoving_loop start
      (default 5000 (WaitForStability.timeout options))
      (default 200 (WaitForStability.interval options))
      (default 3 (WaitForStability.stableCount options))
      (None, 0)).
Proof. unfold waitForElementToStopMoving. rewrite bind_trigger. reflexivity. Qed.

(** * [waitUntil] *)

Section WaitUntil.
Context {W : Type} (h : env W).

Lemma waitUntil_loop_round (rounds : nat) (interval timeout endTime : Z) :
  forall w,
    run h (4 * rounds) (waitUntil_loop interval timeout endTime) w =
    ConditionPoller_rounds h rounds interval timeout endTime w.
Proof.
  induction rounds as [|n IH]; intros w; [reflexivity|].
  replace (4 * S n)%nat with (S (S (S (S (4 * n))))) by lia.
  rewrite waitUntil_loop_unfold, run_Vis. cbn [handle ConditionPoller_rounds].
  destruct (condition h w) as [[e|[|]] w1]; try reflexivity.
  rewrite run_Vis. cbn [handle].
  destruct (now h w1) as [t w2]. rewrite Z.geb_leb.
  destruct (endTime <=? t); [reflexivity|].
  rewrite run_Vis. cbn [handle]. rewrite run_Tau, IH. reflexivity.
Qed.
End WaitUntil.

(** C1.  [waitUntil] is the ConditionPoller of the specification, step for
    step: in every environment and for every number of rounds, running the
    code long enough for that many rounds makes the calls the specification
    describes, with the same answers, and settles the same way; and every
    run of the code that has settled is such a run. The deadline is read
    off the clock once, before the first round, and every round uses it: the
    condition is invoked; [true] resolves at once; [false] at or past the
    deadline rejects with the message that carries the timeout; otherwise
    the poller sleeps [min(interval, endTime - now)] and goes round again. *)
Theorem waitUntil_is_ConditionPoller {W} (h : env W) (options : WaitUntilOptions) (w : W) :
  (forall rounds,
     run h (1 + 4 * rounds) (waitUntil options) w =
     ConditionPoller h rounds (interval options) (timeout options) w)
  /\ (forall fuel o,
        outcome (run h fuel (waitUntil options) w) = Some o ->
        run h fuel (waitUntil options) w =
        ConditionPoller h fuel (interval options) (timeout options) w).
Proof.
  assert (Hrounds : forall rounds,
            run h (1 + 4 * rounds) (waitUntil options) w =
            ConditionPoller h rounds (interval options) (timeout options) w).
  { intros rounds. destruct options as [i t]. rewrite waitUntil_unfold. unfold ConditionPoller.
    change (1 + 4 * rounds)%nat with (S (4 * rounds)). rewrite run_Vis. cbn [handle].
    destruct (now h w) as [s w0]. now rewrite waitUntil_loop_round. }
  split; [exact Hrounds|].
  intros fuel o Ho. rewrite <- Hrounds. symmetry.
  apply run_settled with o; [exact Ho|lia].
Qed.

(** C7.  When the first invocation of the condition resolves true,
    [waitUntil] resolves: the run consists of the reading of the start time
    and that one invocation, so the condition is invoked exactly once and
    no timer wait is executed, at no stage of the run. *)
Theorem waitUntil_met_at_once {W} (h : env W) (options : WaitUntilOptions)
    (w w1 w2 : W) (s : Z) :
  now h w = (s, w1) ->
  condition h w1 = (inr true, w2) ->
  (forall fuel, (3 <= fuel)%nat ->
     run h fuel (waitUntil options) w =
     Run (Some Resolved) w2 [NowAt s; ConditionGave (inr true)])
  /\ (forall fuel,
        suspensions (calls (run h fuel (waitUntil options) w)) = 0%nat
        /\ (invocations (calls (run h fuel (waitUntil options) w)) <= 1)%nat)
  /\ suspensions [NowAt s; ConditionGave (inr true)] = 0%nat
  /\ invocations [NowAt s; ConditionGave (inr true)] = 1%nat.
Proof.
  intros Hs Hc. destruct options as [i t].
  assert (H3 : forall fuel, run h (S (S (S fuel))) (waitUntil {| interval := i; timeout := t |}) w =
                            Run (Some Resolved) w2 [NowAt s; ConditionGave (inr true)]).
  { intros fuel. rewrite waitUntil_unfold, run_Vis. cbn [handle]. rewrite Hs.
    rewrite waitUntil_loop_unfold, run_Vis. cbn [handle]. rewrite Hc.
    reflexivity. }
  split; [|split; [|split; reflexivity]].
  - intros fuel Hf. do 3 (destruct fuel as [|fuel]; [lia|]). apply H3.
  - intros fuel. destruct fuel as [|[|[|fuel]]].
    + split; [reflexivity|apply Nat.le_0_l].
    + rewrite waitUntil_unfold, run_Vis. cbn [handle]. rewrite Hs.
      split; [reflexivity|apply Nat.le_0_l].
    + rewrite waitUntil_unfold, run_Vis. cbn [handle]. rewrite Hs.
      rewrite waitUntil_loop_unfold, run_Vis. cbn [handle]. rewrite Hc.
      split; [reflexivity|apply Nat.le_refl].
    + rewrite H3. split; [reflexivity|apply Nat.le_refl].
Qed.

Section WaitUntilCalls.
Context {W : Type} (h : env W).
Variables interval timeout endTime : Z.

Let loop := waitUntil_loop interval timeout endTime.

(** A round in which the condition resolved false before the deadline. *)
Lemma waitUntil_loop_again (fuel : nat) (w w1 w2 : W) (c : Z) :
  condition h w = (inr false, w1) ->
  now h w1 = (c, w2) ->
  c < endTime ->
  run h (4 + fuel) loop w =
  after (ConditionGave (inr false)) (after (NowAt c)
    (after (Slept (Z.min interval (endTime - c)))
       (run h fuel loop (sleep h (Z.min interval (endTime - c)) w2)))).
Proof.
  intros Hc Hn Hlt. unfold loop. change (4 + fuel)%nat with (S (S (S (S fuel)))).
  rewrite waitUntil_loop_unfold at 1. rewrite run_Vis. cbn [handle]. rewrite Hc.
  rewrite run_Vis. cbn [handle]. rewrite Hn.
  replace (c >=? endTime) with false by (symmetry; rewrite Z.geb_leb; apply Z.leb_gt; lia).
  rewrite run_Vis. cbn [handle]. now rewrite run_Tau.
Qed.

Lemma waitUntil_loop_suspends :
  forall fuel w since,
    since = None \/ since = Some 1%nat ->
    Forall (eq 1%nat) (suspensionsBetween since (calls (run h fuel loop w))).
Proof.
  intros fuel. induction fuel as [fuel IH] using lt_wf_ind. intros w since Hs.
  unfold loop. rewrite waitUntil_loop_unfold.
  destruct fuel as [|fuel]; [constructor|].
  rewrite run_Vis. cbn [handle].
  destruct (condition h w) as [[e|[|]] w1]; cbn [after calls suspensionsBetween].
  1,2: rewrite calls_run_Ret; destruct Hs as [-> | ->]; repeat constructor.
  assert (Hhd : forall l, Forall (eq 1%nat) l ->
            Forall (eq 1%nat) match since with Some k => k :: l | None => l end)
    by (intros l Hl; destruct Hs as [-> | ->]; [assumption|now constructor]).
  apply Hhd. clear Hhd.
  destruct fuel as [|fuel]; [constructor|].
  rewrite run_Vis. cbn [handle].
  destruct (now h w1) as [c w2]. cbn [after calls suspensionsBetween].
  destruct (c >=? endTime); [rewrite calls_run_Ret; constructor|].
  destruct fuel as [|fuel]; [constructor|].
  rewrite run_Vis. cbn [handle after calls suspensionsBetween option_map].
  destruct fuel as [|fuel]; [constructor|].
  rewrite run_Tau. apply IH; [lia|now right].
Qed.

(** An error of the condition ends the run there. *)
Lemma waitUntil_loop_raised :
  forall fuel w e post,
    raised (calls (run h fuel loop w)) = Some (e, post) ->
    post = [] /\
    forall fuel', (fuel < fuel')%nat ->
      run h fuel' loop w =
      Run (Some (Rejected e)) (world (run h fuel loop w)) (calls (run h fuel loop w)).
Proof.
  intros fuel. induction fuel as [fuel IH] using lt_wf_ind. intros w e post.
  remember (run h fuel loop w) as r eqn:Hr.
  unfold loop in Hr. rewrite waitUntil_loop_unfold in Hr.
  destruct fuel as [|fuel]; [subst r; discriminate|].
  rewrite run_Vis in Hr. cbn [handle] in Hr.
  destruct (condition h w) as [[e'|[|]] w1] eqn:Hc.
  - subst r. cbn [after calls world raised raiseOf].
    rewrite calls_run_Ret, world_run_Ret. intros H. injection H as -> <-.
    split; [reflexivity|].
    intros fuel' Hf. do 2 (destruct fuel' as [|fuel']; [lia|]).
    unfold loop. rewrite waitUntil_loop_unfold, run_Vis. cbn [handle]. now rewrite Hc.
  - subst r. cbn [after calls world raised raiseOf].
    rewrite calls_run_Ret. discriminate.
  - destruct fuel as [|fuel]; [subst r; discriminate|].
    rewrite run_Vis in Hr. cbn [handle] in Hr.
    destruct (now h w1) as [c w2] eqn:Hn.
    destruct (c >=? endTime) eqn:Hge;
      [subst r; cbn [after calls world raised raiseOf];
       rewrite calls_run_Ret; discriminate|].
    destruct fuel as [|fuel]; [subst r; discriminate|].
    rewrite run_Vis in Hr. cbn [handle] in Hr.
    destruct fuel as [|fuel]; [subst r; discriminate|].
    rewrite run_Tau in Hr. subst r. cbn [after calls world raised raiseOf].
    intros H. apply IH in H; [|lia]. destruct H as [-> H].
    split; [reflexivity|]. intros fuel' Hf.
    do 4 (destruct fuel' as [|fuel']; [lia|]).
    unfold loop. rewrite waitUntil_loop_unfold at 1. rewrite run_Vis. cbn [handle]. rewrite Hc.
    rewrite run_Vis. cbn [handle]. rewrite Hn, Hge.
    rewrite run_Vis. cbn [handle]. rewrite run_Tau.
    fold loop. rewrite (H fuel') by lia. reflexivity.
Qed.
End WaitUntilCalls.

(** C8.  In every run of [waitUntil], finished or not, exactly one timer
    suspension lies between an evaluation of the condition and the next.
    A round in which the condition resolved false before the deadline
    suspends for [min(interval, endTime - now)] and only then evaluates the
    condition again; with an interval of 0 that is a suspension of 0. *)
Theorem waitUntil_yields_every_round {W} (h : env W) (options : WaitUntilOptions) :
  (forall fuel w,
     Forall (eq 1%nat)
       (suspensionsBetween None (calls (run h fuel (waitUntil options) w))))
  /\ (forall endTime fuel w w1 w2 c,
        condition h w = (inr false, w1) ->
        now h w1 = (c, w2) ->
        c < endTime ->
        let waitTime := Z.min (interval options) (endTime - c) in
        run h (4 + fuel) (waitUntil_loop (interval options) (timeout options) endTime) w =
        after (ConditionGave (inr false)) (after (NowAt c) (after (Slept waitTime)
          (run h fuel (waitUntil_loop (interval options) (timeout options) endTime)
             (sleep h waitTime w2))))
        /\ (interval options = 0 -> waitTime = 0)).
Proof.
  split.
  - intros fuel w. destruct options as [i t].
    erewrite run_eq_itree by apply waitUntil_unfold.
    destruct fuel as [|fuel]; [constructor|].
    rewrite run_Vis. cbn [handle]. destruct (now h w) as [s w0].
    cbn [after calls suspensionsBetween].
    apply waitUntil_loop_suspends. now left.
  - intros endTime fuel w w1 w2 c Hc Hn Hlt waitTime. split.
    + unfold waitTime. eapply waitUntil_loop_again; eassumption.
    + intros Hi. unfold waitTime. rewrite Hi. lia.
Qed.

(** ** A condition that is never met, under an ideal clock *)

Lemma never_met_round (fuel : nat) (interval timeout endTime c : Z) :
  run never_met (S (S (S (S fuel)))) (waitUntil_loop interval timeout endTime) c =
  after (ConditionGave (inr false)) (after (NowAt c)
    (if c >=? endTime
     then Run (Some (Rejected (Error (conditionNotMetMessage timeout)))) c []
     else after (Slept (Z.min interval (endTime - c)))
            (run never_met fuel (waitUntil_loop interval timeout endTime)
               (c + Z.min interval (endTime - c))))).
Proof.
  rewrite waitUntil_loop_unfold at 1. rewrite run_Vis. cbn [handle never_met condition].
  rewrite run_Vis. cbn [handle never_met now].
  destruct (c >=? endTime); [reflexivity|].
  rewrite run_Vis. cbn [handle never_met sleep]. now rewrite run_Tau.
Qed.

Lemma never_met_few (fuel : nat) (interval timeout endTime c : Z) :
  (fuel <= 3)%nat -> c < endTime ->
  outcome (run never_met fuel (waitUntil_loop interval timeout endTime) c) = None.
Proof.
  intros Hf Hc. rewrite waitUntil_loop_unfold.
  destruct fuel as [|fuel]; [reflexivity|].
  rewrite run_Vis. cbn [handle never_met condition after outcome].
  destruct fuel as [|fuel]; [reflexivity|].
  rewrite run_Vis. cbn [handle never_met now after outcome].
  replace (c >=? endTime) with false by (symmetry; rewrite Z.geb_leb; apply Z.leb_gt; lia).
  destruct fuel as [|fuel]; [reflexivity|].
  rewrite run_Vis. cbn [handle never_met sleep after outcome].
  destruct fuel as [|fuel]; [reflexivity|lia].
Qed.

(** With no interval the timer waits leave the clock where it is. *)
Lemma never_met_spins (endTime c : Z) (timeout : Z) :
  c < endTime ->
  forall fuel, outcome (run never_met fuel (waitUntil_loop 0 timeout endTime) c) = None.
Proof.
  intros Hc fuel. induction fuel as [fuel IH] using lt_wf_ind.
  destruct (Nat.le_gt_cases fuel 3) as [Hf|Hf]; [now apply never_met_few|].
  do 4 (destruct fuel as [|fuel]; [lia|]).
  rewrite never_met_round. cbn [after outcome].
  replace (c >=? endTime) with false by (symmetry; rewrite Z.geb_leb; apply Z.leb_gt; lia).
  cbn [after outcome].
  replace (c + Z.min 0 (endTime - c)) with c by lia.
  apply IH. lia.
Qed.

Lemma never_met_deadline (interval timeout endTime : Z) :
  0 < interval ->
  forall (k : nat) (c : Z),
    c <= endTime -> endTime - c <= Z.of_nat k ->
    exists fuel cs,
      run never_met fuel (waitUntil_loop interval timeout endTime) c =
      Run (Some (Rejected (Error (conditionNotMetMessage timeout)))) endTime cs.
Proof.
  intros Hi k. induction k as [|k IH]; intros c Hc Hk.
  - exists 4%nat. eexists. rewrite never_met_round.
    replace (c >=? endTime) with true by (symmetry; rewrite Z.geb_leb; apply Z.leb_le; lia).
    replace c with endTime by lia. reflexivity.
  - destruct (Z.eq_dec c endTime) as [->|Hne].
    + exists 4%nat. eexists. rewrite never_met_round.
      replace (endTime >=? endTime) with true
        by (symmetry; rewrite Z.geb_leb; apply Z.leb_le; lia).
      reflexivity.
    + destruct (IH (c + Z.min interval (endTime - c))) as [fuel [cs H]]; [lia|lia|].
      exists (S (S (S (S fuel)))). eexists. rewrite never_met_round.
      replace (c >=? endTime) with false
        by (symmetry; rewrite Z.geb_leb; apply Z.leb_gt; lia).
      rewrite H. reflexivity.
Qed.

(** C3 as stated does not hold: with an interval of 0 and a timeout of
    1 the ideal clock never moves, and the poller never throws. *)
Lemma waitUntil_zero_interval_never_throws :
  ~ exists fuel e,
      outcome (run never_met fuel (waitUntil {| interval := 0; timeout := 1 |}) 0)
      = Some (Rejected e).
Proof.
  intros [fuel [e H]]. destruct fuel as [|fuel]; [discriminate|].
  rewrite waitUntil_unfold, run_Vis in H. cbn [handle never_met now after outcome] in H.
  rewrite never_met_spins in H; [discriminate|lia].
Qed.

(** C3, amended.  Under the ideal clock, with a condition that always
    resolves false, a timeout of at least 0 and an interval above 0 (or a
    timeout of 0), [waitUntil] throws its timeout error, and the clock at
    the throw is the start time plus the timeout: at least [timeout] and at
    most [timeout + interval] after the start. *)
Theorem waitUntil_never_met_times_out (interval timeout start : Z) :
  0 <= timeout ->
  0 < interval \/ (0 <= interval /\ timeout = 0) ->
  exists fuel cs,
    run never_met fuel (waitUntil {| interval := interval; timeout := timeout |}) start =
    Run (Some (Rejected (Error ("Condition not met within " ++ toString timeout ++ "ms."))))
        (start + timeout) cs
    /\ timeout <= (start + timeout) - start <= timeout + interval.
Proof.
  intros Ht Hi.
  assert (H : exists fuel cs,
             run never_met fuel (waitUntil_loop interval timeout (start + timeout)) start =
             Run (Some (Rejected (Error (conditionNotMetMessage timeout)))) (start + timeout) cs).
  { destruct Hi as [Hi|[Hi ->]].
    - apply never_met_deadline with (k := Z.to_nat timeout); lia.
    - exists 4%nat. eexists. rewrite never_met_round.
      replace (start >=? start + 0) with true
        by (symmetry; rewrite Z.geb_leb; apply Z.leb_le; lia).
      replace (start + 0) with start by lia. reflexivity. }
  destruct H as [fuel [cs H]].
  exists (S fuel). eexists. split; [|lia].
  rewrite waitUntil_unfold, run_Vis. cbn [handle never_met now].
  rewrite H. reflexivity.
Qed.

(** * [waitForElementToBeEnabled] *)

Section WaitForElementToBeEnabled.
Context {W : Type} (h : env W).

Lemma waitForElementToBeEnabled_round (rounds : nat) (startTime timeout interval : Z) :
  forall w,
    run h (5 * rounds) (waitForElementToBeEnabled_poll startTime timeout interval false) w =
    EnabledPoller_rounds h rounds startTime timeout interval w.
Proof.
  induction rounds as [|n IH]; intros w; [reflexivity|].
  replace (5 * S n)%nat with (S (S (S (S (S (5 * n)))))) by lia.
  rewrite waitForElementToBeEnabled_poll_unfold, run_Vis.
  cbn [handle EnabledPoller_rounds].
  destruct (now h w) as [t w1]. rewrite (Z.leb_antisym (t - startTime) timeout).
  destruct (t - startTime <? timeout); [|reflexivity]. cbn [negb].
  rewrite run_Vis. cbn [handle].
  destruct (element h w1) as [[e|[]] w2]; [reflexivity|].
  rewrite run_Vis. cbn [handle].
  destruct (getAttributes h w2) as [[e|a] w3]; [reflexivity|].
  destruct (enabled a); [reflexivity|].
  rewrite run_Vis. cbn [handle]. rewrite run_Tau, IH. reflexivity.
Qed.
End WaitForElementToBeEnabled.

Section WaitForElementToBeEnabledCalls.
Context {W : Type} (h : env W).
Variables startTime timeout interval : Z.

Let body := waitForElementToBeEnabled_poll startTime timeout interval false.

(** An error of the awaited element or of the fetch of its attributes ends
    the run there. *)
Lemma waitForElementToBeEnabled_raised :
  forall fuel w e post,
    raised (calls (run h fuel body w)) = Some (e, post) ->
    post = [] /\
    forall fuel', (fuel < fuel')%nat ->
      run h fuel' body w =
      Run (Some (Rejected e)) (world (run h fuel body w)) (calls (run h fuel body w)).
Proof.
  intros fuel. induction fuel as [fuel IH] using lt_wf_ind. intros w e post.
  remember (run h fuel body w) as r eqn:Hr.
  unfold body in Hr. rewrite waitForElementToBeEnabled_poll_unfold in Hr.
  destruct fuel as [|fuel]; [subst r; discriminate|].
  rewrite run_Vis in Hr. cbn [handle] in Hr.
  destruct (now h w) as [c w1] eqn:Hn.
  destruct (c - startTime <? timeout) eqn:Hlt;
    [|subst r; cbn [after calls world raised raiseOf];
      rewrite calls_run_Ret; discriminate].
  destruct fuel as [|fuel]; [subst r; discriminate|].
  rewrite run_Vis in Hr. cbn [handle] in Hr.
  destruct (element h w1) as [[e'|[]] w2] eqn:He.
  - subst r. cbn [after calls world raised raiseOf].
    rewrite calls_run_Ret, world_run_Ret. intros H. injection H as -> <-.
    split; [reflexivity|].
    intros fuel' Hf. do 3 (destruct fuel' as [|fuel']; [lia|]).
    unfold body. rewrite waitForElementToBeEnabled_poll_unfold, run_Vis.
    cbn [handle]. rewrite Hn, Hlt, run_Vis. cbn [handle]. now rewrite He.
  - destruct fuel as [|fuel]; [subst r; discriminate|].
    rewrite run_Vis in Hr. cbn [handle] in Hr.
    destruct (getAttributes h w2) as [[e'|a] w3] eqn:Ha.
    + subst r. cbn [after calls world raised raiseOf].
      rewrite calls_run_Ret, world_run_Ret. intros H. injection H as -> <-.
      split; [reflexivity|].
      intros fuel' Hf. do 4 (destruct fuel' as [|fuel']; [lia|]).
      unfold body. rewrite waitForElementToBeEnabled_poll_unfold, run_Vis.
      cbn [handle]. rewrite Hn, Hlt, run_Vis. cbn [handle]. rewrite He.
      rewrite run_Vis. cbn [handle]. now rewrite Ha.
    + destruct (enabled a) eqn:Hen;
        [subst r; cbn [after calls world raised raiseOf];
         rewrite calls_run_Ret; discriminate|].
      destruct fuel as [|fuel]; [subst r; discriminate|].
      rewrite run_Vis in Hr. cbn [handle] in Hr.
      destruct fuel as [|fuel]; [subst r; discriminate|].
      rewrite run_Tau in Hr. subst r. cbn [after calls world raised raiseOf].
      intros H. apply IH in H; [|lia]. destruct H as [-> H].
      split; [reflexivity|]. intros fuel' Hf.
      do 5 (destruct fuel' as [|fuel']; [lia|]).
      unfold body. rewrite waitForElementToBeEnabled_poll_unfold at 1.
      rewrite run_Vis. cbn [handle]. rewrite Hn, Hlt, run_Vis. cbn [handle]. rewrite He.
      rewrite run_Vis. cbn [handle]. rewrite Ha, Hen.
      rewrite run_Vis. cbn [handle]. rewrite run_Tau.
      fold body. rewrite (H fuel') by lia. reflexivity.
Qed.
End WaitForElementToBeEnabledCalls.

(** C6.  An error raised by the condition of [waitUntil], or by the awaited
    element or the fetch of its attributes in [waitForElementToBeEnabled],
    ends the poll at that call: the raising call is the last one made, and
    given one more step the call has rejected with that very error, having
    made no other call. *)
Theorem awaited_errors_propagate {W} (h : env W) (w : W) (fuel : nat)
    (e : thrown) (post : list call) :
  (forall options,
     raised (calls (run h fuel (waitUntil options) w)) = Some (e, post) ->
     post = [] /\
     forall fuel', (fuel < fuel')%nat ->
       run h fuel' (waitUntil options) w =
       Run (Some (Rejected e))
           (world (run h fuel (waitUntil options) w))
           (calls (run h fuel (waitUntil options) w)))
  /\ (forall timeout interval,
        raised (calls (run h fuel (waitForElementToBeEnabled timeout interval) w))
        = Some (e, post) ->
        post = [] /\
        forall fuel', (fuel < fuel')%nat ->
          run h fuel' (waitForElementToBeEnabled timeout interval) w =
          Run (Some (Rejected e))
              (world (run h fuel (waitForElementToBeEnabled timeout interval) w))
              (calls (run h fuel (waitForElementToBeEnabled timeout interval) w))).
Proof.
  split.
  - intros [i t].
    remember (run h fuel (waitUntil {| interval := i; timeout := t |}) w) as r eqn:Hr.
    rewrite waitUntil_unfold in Hr.
    destruct fuel as [|fuel]; [subst r; discriminate|].
    rewrite run_Vis in Hr. cbn [handle] in Hr.
    destruct (now h w) as [s w0] eqn:Hs. subst r.
    cbn [after calls world raised raiseOf]. intros H.
    apply waitUntil_loop_raised in H. destruct H as [-> H].
    split; [reflexivity|]. intros fuel' Hf. destruct fuel' as [|fuel']; [lia|].
    rewrite waitUntil_unfold, run_Vis. cbn [handle]. rewrite Hs.
    rewrite (H fuel') by lia. reflexivity.
  - intros timeout interval.
    remember (run h fuel (waitForElementToBeEnabled timeout interval) w) as r eqn:Hr.
    rewrite waitForElementToBeEnabled_unfold in Hr.
    destruct fuel as [|fuel]; [subst r; discriminate|].
    rewrite run_Vis in Hr. cbn [handle] in Hr.
    destruct (now h w) as [s w0] eqn:Hs. subst r.
    cbn [after calls world raised raiseOf]. intros H.
    apply waitForElementToBeEnabled_raised in H. destruct H as [-> H].
    split; [reflexivity|]. intros fuel' Hf. destruct fuel' as [|fuel']; [lia|].
    rewrite waitForElementToBeEnabled_unfold, run_Vis. cbn [handle]. rewrite Hs.
    rewrite (H fuel') by lia. reflexivity.
Qed.

(** C5.  [waitForElementToBeEnabled] is the EnabledPoller of the
    specification, step for step: in every environment and for every number
    of rounds the code makes the calls the specification describes and
    settles the same way; and every run of the code that has settled is
    such a run. It reads the enabled attribute until a read yields
    true, which resolves at once; after each false read it sleeps the full
    interval, whatever time is left; once the timeout has elapsed it rejects
    with 'Element is not enabled'. *)
Theorem waitForElementToBeEnabled_is_EnabledPoller {W} (h : env W)
    (timeout interval : option Z) (w : W) :
  (forall rounds,
     run h (1 + 5 * rounds) (waitForElementToBeEnabled timeout interval) w =
     EnabledPoller h rounds (default 3500 timeout) (default 100 interval) w)
  /\ (forall fuel o,
        outcome (run h fuel (waitForElementToBeEnabled timeout interval) w) = Some o ->
        run h fuel (waitForElementToBeEnabled timeout interval) w =
        EnabledPoller h fuel (default 3500 timeout) (default 100 interval) w).
Proof.
  assert (Hrounds : forall rounds,
            run h (1 + 5 * rounds) (waitForElementToBeEnabled timeout interval) w =
            EnabledPoller h rounds (default 3500 timeout) (default 100 interval) w).
  { intros rounds. rewrite waitForElementToBeEnabled_unfold. unfold EnabledPoller.
    change (1 + 5 * rounds)%nat with (S (5 * rounds)). rewrite run_Vis. cbn [handle].
    destruct (now h w) as [s w0]. now rewrite waitForElementToBeEnabled_round. }
  split; [exact Hrounds|].
  intros fuel o Ho. rewrite <- Hrounds. symmetry.
  apply run_settled with o; [exact Ho|lia].
Qed.

(** C10 as stated does not hold: the guard compares two readings of the
    wall clock, and when the second is before the first the body runs even
    with a timeout of zero or less. Here the clock reads 10, then 5: the
    attributes are fetched and the call resolves. *)
Lemma waitForElementToBeEnabled_clock_set_back :
  run set_back 5 (waitForElementToBeEnabled (Some 0) None) O
  = Run (Some Resolved) 2%nat
        [NowAt 10; NowAt 5; ElementGave (inr tt);
         AttributesGave (inr {| enabled := true; frame := None |})]
  /\ run set_back 5 (waitForElementToBeEnabled (Some (-3)) None) O
     = Run (Some Resolved) 2%nat
           [NowAt 10; NowAt 5; ElementGave (inr tt);
            AttributesGave (inr {| enabled := true; frame := None |})].
Proof. split; vm_compute; reflexivity. Qed.

(** C10, amended.  With a timeout of zero or less, and a clock whose reading
    at the first check of the deadline is not before the reading taken at
    the start, [waitForElementToBeEnabled] rejects with 'Element is not
    enabled' after reading the clock twice: the attributes are never
    fetched. [waitUntil] instead evaluates its condition right after
    reading the start time, whatever the timeout. *)
Theorem waitForElementToBeEnabled_expired {W} (h : env W)
    (timeout : Z) (interval : option Z) (w w1 w2 : W) (s t : Z) :
  timeout <= 0 ->
  now h w = (s, w1) ->
  now h w1 = (t, w2) ->
  s <= t ->
  (forall fuel, (3 <= fuel)%nat ->
     run h fuel (waitForElementToBeEnabled (Some timeout) interval) w =
     Run (Some (Rejected (Error "Element is not enabled"))) w2 [NowAt s; NowAt t])
  /\ (forall options fuel, (2 <= fuel)%nat ->
        exists rest,
          calls (run h fuel (waitUntil options) w) =
          NowAt s :: ConditionGave (fst (condition h w1)) :: rest).
Proof.
  intros Ht Hs Hn Hst. split.
  - intros fuel Hf. do 3 (destruct fuel as [|fuel]; [lia|]).
    rewrite waitForElementToBeEnabled_unfold, run_Vis. cbn [handle default]. rewrite Hs.
    rewrite waitForElementToBeEnabled_poll_unfold, run_Vis. cbn [handle]. rewrite Hn.
    replace (t - s <? timeout) with false by (symmetry; apply Z.ltb_ge; lia).
    reflexivity.
  - intros [i t'] fuel Hf. do 2 (destruct fuel as [|fuel]; [lia|]).
    erewrite run_eq_itree by apply waitUntil_unfold.
    rewrite run_Vis. cbn [handle]. rewrite Hs.
    erewrite run_eq_itree by apply waitUntil_loop_unfold.
    rewrite run_Vis. cbn [handle].
    destruct (condition h w1) as [r w3]. cbn [fst after calls].
    eexists. reflexivity.
Qed.

(** * [waitForElementToStopMoving] *)

Section WaitForElementToStopMoving.
Context {W : Type} (h : env W).
Variables start timeout interval stableCount : Z.

Let loop := waitForElementToStopMoving_loop start timeout interval stableCount.

(** The guard of the loop fails. *)
Lemma stability_expired (fuel : nat) st (w w1 : W) (t : Z) :
  now h w = (t, w1) ->
  timeout <= t - start ->
  run h (2 + fuel) (loop st) w =
  Run (Some (Rejected (Error notStableMessage))) w1 [NowAt t].
Proof.
  intros Hn Hge. destruct st as [lastPosition stableChecks]. unfold loop.
  rewrite waitForElementToStopMoving_loop_unfold.
  change (2 + fuel)%nat with (S (S fuel)). rewrite run_Vis. cbn [handle]. rewrite Hn.
  replace (t - start <? timeout) with false by (symmetry; apply Z.ltb_ge; lia).
  reflexivity.
Qed.

Section Sample.
Variables (lastPosition : option position) (stableChecks : Z).
Variables (w w1 w2 w3 : W) (t : Z) (r : thrown + attributes).
Hypothesis Hnow : now h w = (t, w1).
Hypothesis Hguard : t - start < timeout.
Hypothesis Helement : element h w1 = (inr tt, w2).
Hypothesis Hfetch : getAttributes h w2 = (r, w3).

Let sample (rest : run_t W settled) : run_t W settled :=
  after (NowAt t) (after (ElementGave (inr tt)) (after (AttributesGave r) rest)).

Lemma stability_sample (fuel : nat) :
  run h (3 + fuel) (loop (lastPosition, stableChecks)) w =
  sample
    (run h fuel
       match sampleOf r with
       | None => Vis (SetTimeout fallBackTimeout) (fun _ => Ret Resolved)
       | Some p =>
         if samePosition lastPosition p
         then
           if stableChecks + 1 >=? stableCount
           then Ret Resolved
           else Vis (SetTimeout interval) (fun _ =>
                  Tau (loop (lastPosition, stableChecks + 1)))
         else Vis (SetTimeout interval) (fun _ => Tau (loop (Some p, 1)))
       end w3).
Proof.
  unfold loop at 1. rewrite waitForElementToStopMoving_loop_unfold.
  change (3 + fuel)%nat with (S (S (S fuel))).
  rewrite run_Vis. cbn [handle]. rewrite Hnow.
  replace (t - start <? timeout) with true by (symmetry; apply Z.ltb_lt; lia).
  rewrite run_Vis. cbn [handle]. rewrite Helement.
  rewrite run_Vis. cbn [handle]. rewrite Hfetch. reflexivity.
Qed.

(** The sample is unavailable. *)
Lemma stability_unavailable (fuel : nat) :
  sampleOf r = None ->
  run h (5 + fuel) (loop (lastPosition, stableChecks)) w =
  sample (Run (Some Resolved) (sleep h fallBackTimeout w3) [Slept fallBackTimeout]).
Proof.
  intros Hr. change (5 + fuel)%nat with (3 + S (S fuel))%nat.
  rewrite stability_sample, Hr. reflexivity.
Qed.

(** The sample differs from the last one, or is the first. *)
Lemma stability_moved (fuel : nat) (p : position) :
  sampleOf r = Some p ->
  samePosition lastPosition p = false ->
  run h (5 + fuel) (loop (lastPosition, stableChecks)) w =
  sample (after (Slept interval) (run h fuel (loop (Some p, 1)) (sleep h interval w3))).
Proof.
  intros Hr Hp. change (5 + fuel)%nat with (3 + S (S fuel))%nat.
  rewrite stability_sample, Hr, Hp. reflexivity.
Qed.

(** The sample equals the last one, too few times yet. *)
Lemma stability_same (fuel : nat) (p : position) :
  sampleOf r = Some p ->
  samePosition lastPosition p = true ->
  stableChecks + 1 < stableCount ->
  run h (5 + fuel) (loop (lastPosition, stableChecks)) w =
  sample (after (Slept interval)
            (run h fuel (loop (lastPosition, stableChecks + 1)) (sleep h interval w3))).
Proof.
  intros Hr Hp Hk. change (5 + fuel)%nat with (3 + S (S fuel))%nat.
  rewrite stability_sample, Hr, Hp.
  replace (stableChecks + 1 >=? stableCount) with false
    by (symmetry; rewrite Z.geb_leb; apply Z.leb_gt; lia).
  reflexivity.
Qed.

(** The sample equals the last one often enough. *)
Lemma stability_reached (fuel : nat) (p : position) :
  sampleOf r = Some p ->
  samePosition lastPosition p = true ->
  stableCount <= stableChecks + 1 ->
  run h (4 + fuel) (loop (lastPosition, stableChecks)) w =
  sample (Run (Some Resolved) w3 []).
Proof.
  intros Hr Hp Hk. change (4 + fuel)%nat with (3 + S fuel)%nat.
  rewrite stability_sample, Hr, Hp.
  replace (stableChecks + 1 >=? stableCount) with true
    by (symmetry; rewrite Z.geb_leb; apply Z.leb_le; lia).
  reflexivity.
Qed.
End Sample.
End WaitForElementToStopMoving.

Section WaitForElementToStopMovingCalls.
Context {W : Type} (h : env W).
Variables start timeout interval stableCount : Z.

Let loop := waitForElementToStopMoving_loop start timeout interval stableCount.

(** A reading of the clock at or past the deadline ends the run there. *)
Lemma stability_loop_expired :
  forall fuel st w post,
    expiredIn start timeout (calls (run h fuel (loop st) w)) = Some post ->
    post = [] /\
    forall fuel', (fuel < fuel')%nat ->
      run h fuel' (loop st) w =
      Run (Some (Rejected (Error notStableMessage)))
          (world (run h fuel (loop st) w)) (calls (run h fuel (loop st) w)).
Proof.
  intros fuel. induction fuel as [fuel IH] using lt_wf_ind.
  intros [lastPosition stableChecks] w post.
  remember (run h fuel (loop (lastPosition, stableChecks)) w) as r eqn:Hr.
  unfold loop in Hr. rewrite waitForElementToStopMoving_loop_unfold in Hr.
  destruct fuel as [|fuel]; [subst r; discriminate|].
  rewrite run_Vis in Hr. cbn [handle] in Hr.
  destruct (now h w) as [t w1] eqn:Hn.
  destruct (t - start <? timeout) eqn:Hlt.
  2:{ subst r. cbn [after calls world expiredIn].
      rewrite Hlt, calls_run_Ret, world_run_Ret. intros H. injection H as <-.
      split; [reflexivity|]. intros fuel' Hf.
      do 2 (destruct fuel' as [|fuel']; [lia|]).
      apply Z.ltb_ge in Hlt. eapply (stability_expired h); eassumption. }
  destruct fuel as [|fuel];
    [subst r; cbn [after calls expiredIn]; rewrite Hlt; discriminate|].
  rewrite run_Vis in Hr. cbn [handle] in Hr.
  destruct (element h w1) as [[e|[]] w2] eqn:He;
    [subst r; cbn [after calls expiredIn]; rewrite Hlt, calls_run_Ret; discriminate|].
  destruct fuel as [|fuel];
    [subst r; cbn [after calls expiredIn]; rewrite Hlt; discriminate|].
  rewrite run_Vis in Hr. cbn [handle] in Hr.
  destruct (getAttributes h w2) as [a w3] eqn:Ha.
  apply Z.ltb_lt in Hlt.
  assert (Hlt' : (t - start <? timeout) = true) by now apply Z.ltb_lt.
  destruct (sampleOf a) as [p|] eqn:Hp.
  - destruct (samePosition lastPosition p) eqn:Hsame.
    + destruct (stableChecks + 1 >=? stableCount) eqn:Hk;
        [subst r; cbn [after calls expiredIn]; rewrite Hlt', calls_run_Ret; discriminate|].
      destruct fuel as [|fuel];
        [subst r; cbn [after calls expiredIn]; rewrite Hlt'; discriminate|].
      rewrite run_Vis in Hr. cbn [handle] in Hr.
      destruct fuel as [|fuel];
        [subst r; cbn [after calls expiredIn]; rewrite Hlt'; discriminate|].
      rewrite run_Tau in Hr. subst r. cbn [after calls world expiredIn]. rewrite Hlt'.
      intros H. apply IH in H; [|lia]. destruct H as [-> H].
      split; [reflexivity|]. intros fuel' Hf.
      do 5 (destruct fuel' as [|fuel']; [lia|]).
      change (S (S (S (S (S fuel'))))) with (5 + fuel')%nat.
      rewrite Z.geb_leb in Hk. apply Z.leb_gt in Hk.
      unfold loop.
      rewrite (@stability_same _ h start timeout interval stableCount
                 lastPosition stableChecks w w1 w2 w3 t a Hn Hlt He Ha fuel' p Hp Hsame)
        by lia.
      fold loop. rewrite (H fuel') by lia. reflexivity.
    + destruct fuel as [|fuel];
        [subst r; cbn [after calls expiredIn]; rewrite Hlt'; discriminate|].
      rewrite run_Vis in Hr. cbn [handle] in Hr.
      destruct fuel as [|fuel];
        [subst r; cbn [after calls expiredIn]; rewrite Hlt'; discriminate|].
      rewrite run_Tau in Hr. subst r. cbn [after calls world expiredIn]. rewrite Hlt'.
      intros H. apply IH in H; [|lia]. destruct H as [-> H].
      split; [reflexivity|]. intros fuel' Hf.
      do 5 (destruct fuel' as [|fuel']; [lia|]).
      change (S (S (S (S (S fuel'))))) with (5 + fuel')%nat.
      unfold loop.
      rewrite (@stability_moved _ h start timeout interval stableCount
                 lastPosition stableChecks w w1 w2 w3 t a Hn Hlt He Ha fuel' p Hp Hsame).
      fold loop. rewrite (H fuel') by lia. reflexivity.
  - destruct fuel as [|fuel];
      [subst r; cbn [after calls expiredIn]; rewrite Hlt'; discriminate|].
    rewrite run_Vis in Hr. cbn [handle] in Hr.
    subst r. cbn [after calls expiredIn]. rewrite Hlt', calls_run_Ret. discriminate.
Qed.

(** An unavailable sample is followed by the fallback delay, and the call
    resolves. *)
Lemma stability_loop_gaveUp :
  forall fuel st w post,
    gaveUp (calls (run h fuel (loop st) w)) = Some post ->
    forall fuel', (fuel + 2 <= fuel')%nat ->
      outcome (run h fuel' (loop st) w) = Some Resolved /\
      gaveUp (calls (run h fuel' (loop st) w)) = Some [Slept fallBackTimeout].
Proof.
  intros fuel. induction fuel as [fuel IH] using lt_wf_ind.
  intros [lastPosition stableChecks] w post.
  remember (run h fuel (loop (lastPosition, stableChecks)) w) as r eqn:Hr.
  unfold loop in Hr. rewrite waitForElementToStopMoving_loop_unfold in Hr.
  destruct fuel as [|fuel]; [subst r; discriminate|].
  rewrite run_Vis in Hr. cbn [handle] in Hr.
  destruct (now h w) as [t w1] eqn:Hn.
  destruct (t - start <? timeout) eqn:Hlt;
    [|subst r; cbn [after calls gaveUp]; rewrite calls_run_Ret; discriminate].
  destruct fuel as [|fuel]; [subst r; discriminate|].
  rewrite run_Vis in Hr. cbn [handle] in Hr.
  destruct (element h w1) as [[e|[]] w2] eqn:He;
    [subst r; cbn [after calls gaveUp]; rewrite calls_run_Ret; discriminate|].
  destruct fuel as [|fuel]; [subst r; discriminate|].
  rewrite run_Vis in Hr. cbn [handle] in Hr.
  destruct (getAttributes h w2) as [a w3] eqn:Ha.
  apply Z.ltb_lt in Hlt.
  destruct (sampleOf a) as [p|] eqn:Hp.
  - destruct (samePosition lastPosition p) eqn:Hsame.
    + destruct (stableChecks + 1 >=? stableCount) eqn:Hk;
        [subst r; cbn [after calls gaveUp]; rewrite Hp, calls_run_Ret; discriminate|].
      destruct fuel as [|fuel];
        [subst r; cbn [after calls gaveUp]; rewrite Hp; discriminate|].
      rewrite run_Vis in Hr. cbn [handle] in Hr.
      destruct fuel as [|fuel];
        [subst r; cbn [after calls gaveUp]; rewrite Hp; discriminate|].
      rewrite run_Tau in Hr. subst r. cbn [after calls gaveUp]. rewrite Hp.
      intros H fuel' Hf.
      do 5 (destruct fuel' as [|fuel']; [lia|]).
      change (S (S (S (S (S fuel'))))) with (5 + fuel')%nat.
      rewrite Z.geb_leb in Hk. apply Z.leb_gt in Hk.
      unfold loop.
      rewrite (@stability_same _ h start timeout interval stableCount
                 lastPosition stableChecks w w1 w2 w3 t a Hn Hlt He Ha fuel' p Hp Hsame)
        by lia.
      cbn [after outcome calls gaveUp]. rewrite Hp.
      apply (IH fuel) with (post := post); [lia|exact H|lia].
    + destruct fuel as [|fuel];
        [subst r; cbn [after calls gaveUp]; rewrite Hp; discriminate|].
      rewrite run_Vis in Hr. cbn [handle] in Hr.
      destruct fuel as [|fuel];
        [subst r; cbn [after calls gaveUp]; rewrite Hp; discriminate|].
      rewrite run_Tau in Hr. subst r. cbn [after calls gaveUp]. rewrite Hp.
      intros H fuel' Hf.
      do 5 (destruct fuel' as [|fuel']; [lia|]).
      change (S (S (S (S (S fuel'))))) with (5 + fuel')%nat.
      unfold loop.
      rewrite (@stability_moved _ h start timeout interval stableCount
                 lastPosition stableChecks w w1 w2 w3 t a Hn Hlt He Ha fuel' p Hp Hsame).
      cbn [after outcome calls gaveUp]. rewrite Hp.
      apply (IH fuel) with (post := post); [lia|exact H|lia].
  - intros _ fuel' Hf.
    do 5 (destruct fuel' as [|fuel']; [lia|]).
    change (S (S (S (S (S fuel'))))) with (5 + fuel')%nat.
    unfold loop.
    rewrite (@stability_unavailable _ h start timeout interval stableCount
               lastPosition stableChecks w w1 w2 w3 t a Hn Hlt He Ha fuel' Hp).
    cbn [after outcome calls gaveUp]. rewrite Hp. split; reflexivity.
Qed.

(** When every sample is available, the call resolves at a sample or
    rejects with the stability timeout. *)
Lemma stability_loop_no_silent_success :
  forall fuel st w acc o,
    outcome (run h fuel (loop st) w) = Some o ->
    everySampleAvailable (calls (run h fuel (loop st) w)) = true ->
    (o = Resolved /\
     fold_left (fun _ c => isFetch c) (calls (run h fuel (loop st) w)) acc = true)
    \/ o = Rejected (Error notStableMessage).
Proof.
  intros fuel. induction fuel as [fuel IH] using lt_wf_ind.
  intros [lastPosition stableChecks] w acc o.
  remember (run h fuel (loop (lastPosition, stableChecks)) w) as r eqn:Hr.
  unfold loop in Hr. rewrite waitForElementToStopMoving_loop_unfold in Hr.
  destruct fuel as [|fuel]; [subst r; discriminate|].
  rewrite run_Vis in Hr. cbn [handle] in Hr.
  destruct (now h w) as [t w1] eqn:Hn.
  destruct (t - start <? timeout) eqn:Hlt.
  2:{ subst r. cbn [after outcome]. destruct fuel as [|fuel]; [discriminate|].
      rewrite run_Ret. cbn [outcome]. intros H _. injection H as <-. now right. }
  destruct fuel as [|fuel]; [subst r; discriminate|].
  rewrite run_Vis in Hr. cbn [handle] in Hr.
  destruct (element h w1) as [[e|[]] w2] eqn:He;
    [subst r; cbn [after outcome calls everySampleAvailable forallb isAvailable andb];
     discriminate|].
  destruct fuel as [|fuel]; [subst r; discriminate|].
  rewrite run_Vis in Hr. cbn [handle] in Hr.
  destruct (getAttributes h w2) as [a w3] eqn:Ha.
  destruct (sampleOf a) as [p|] eqn:Hp;
    [|subst r; cbn [after outcome calls everySampleAvailable forallb isAvailable andb];
      rewrite Hp; discriminate].
  destruct (samePosition lastPosition p) eqn:Hsame.
  - destruct (stableChecks + 1 >=? stableCount) eqn:Hk.
    + subst r. cbn [after outcome calls]. rewrite calls_run_Ret.
      destruct fuel as [|fuel]; [discriminate|].
      rewrite run_Ret. cbn [outcome]. intros H _. injection H as <-.
      left. split; reflexivity.
    + destruct fuel as [|fuel]; [subst r; discriminate|].
      rewrite run_Vis in Hr. cbn [handle] in Hr.
      destruct fuel as [|fuel]; [subst r; discriminate|].
      rewrite run_Tau in Hr. subst r.
      cbn [after outcome calls everySampleAvailable forallb isAvailable andb fold_left isFetch].
      rewrite Hp. apply IH. lia.
  - destruct fuel as [|fuel]; [subst r; discriminate|].
    rewrite run_Vis in Hr. cbn [handle] in Hr.
    destruct fuel as [|fuel]; [subst r; discriminate|].
    rewrite run_Tau in Hr. subst r.
    cbn [after outcome calls everySampleAvailable forallb isAvailable andb fold_left isFetch].
    rewrite Hp. apply IH. lia.
Qed.
End WaitForElementToStopMovingCalls.

(** ** A scripted element under an ideal clock *)

Lemma sampleOf_attributesAt (p : position) :
  sampleOf (inr (attributesAt (Some p))) = Some p.
Proof. destruct p. reflexivity. Qed.

Lemma samePosition_None (p : position) : samePosition None p = false.
Proof. reflexivity. Qed.

Lemma samePosition_Some (l p : position) :
  samePosition (Some l) p = true <-> x p = x l /\ y p = y l.
Proof.
  unfold samePosition. rewrite andb_true_iff, !Z.eqb_eq. reflexivity.
Qed.

Lemma samePosition_true (lastPosition : option position) (p : position) :
  samePosition lastPosition p = true <-> lastPosition = Some p.
Proof.
  destruct lastPosition as [l|]; [|split; discriminate].
  rewrite samePosition_Some. destruct l as [lx ly], p as [px py]. cbn [x y].
  split; [intros [-> ->]; reflexivity|intros H; injection H as -> ->; split; reflexivity].
Qed.

Section Sampled.
Variable samples : nat -> option position.
Variables start timeout interval stableCount : Z.

Let h := sampled samples.
Let loop := waitForElementToStopMoving_loop start timeout interval stableCount.

Let slept (w : scripted_world) : scripted_world :=
  {| clock := clock w + interval; asked := asked w; fetched := S (fetched w) |}.

Lemma sampled_expired st w :
  timeout <= clock w - start ->
  settles h (loop st) w (Rejected (Error notStableMessage)) w.
Proof.
  intros Hge. exists (2 + 0)%nat. unfold loop, h.
  rewrite (@stability_expired _ (sampled samples) start timeout interval stableCount
             0 st w w (clock w) eq_refl Hge).
  split; reflexivity.
Qed.

Section Sample.
Variables (lastPosition : option position) (stableChecks : Z).
Variables (w : scripted_world) (p : position).
Hypothesis Hsample : samples (fetched w) = Some p.
Hypothesis Hguard : clock w - start < timeout.

Let fetch : getAttributes h w =
            (inr (attributesAt (Some p)),
             {| clock := clock w; asked := asked w; fetched := S (fetched w) |}).
Proof. unfold h, sampled, scripted. cbn [getAttributes]. now rewrite Hsample. Qed.

Lemma sampled_moved o w' :
  samePosition lastPosition p = false ->
  settles h (loop (Some p, 1)) (slept w) o w' ->
  settles h (loop (lastPosition, stableChecks)) w o w'.
Proof.
  intros Hp [fuel [Ho Hw]]. exists (5 + fuel)%nat. unfold loop, h.
  rewrite (@stability_moved _ (sampled samples) start timeout interval stableCount
             lastPosition stableChecks w w w _ (clock w) _
             eq_refl Hguard eq_refl fetch fuel p (sampleOf_attributesAt p) Hp).
  split; [exact Ho|exact Hw].
Qed.

Lemma sampled_same o w' :
  samePosition lastPosition p = true ->
  stableChecks + 1 < stableCount ->
  settles h (loop (lastPosition, stableChecks + 1)) (slept w) o w' ->
  settles h (loop (lastPosition, stableChecks)) w o w'.
Proof.
  intros Hp Hk [fuel [Ho Hw]]. exists (5 + fuel)%nat. unfold loop, h.
  rewrite (@stability_same _ (sampled samples) start timeout interval stableCount
             lastPosition stableChecks w w w _ (clock w) _
             eq_refl Hguard eq_refl fetch fuel p (sampleOf_attributesAt p) Hp Hk).
  split; [exact Ho|exact Hw].
Qed.

Lemma sampled_reached :
  samePosition lastPosition p = true ->
  stableCount <= stableChecks + 1 ->
  settles h (loop (lastPosition, stableChecks)) w Resolved
    {| clock := clock w; asked := asked w; fetched := S (fetched w) |}.
Proof.
  intros Hp Hk. exists (4 + 0)%nat. unfold loop, h.
  rewrite (@stability_reached _ (sampled samples) start timeout interval stableCount
             lastPosition stableChecks w w w _ (clock w) _
             eq_refl Hguard eq_refl fetch 0 p (sampleOf_attributesAt p) Hp Hk).
  split; reflexivity.
Qed.
End Sample.

(** Enough equal samples in a row, all before the deadline. *)
Lemma sampled_stable_run (p : position) :
  0 <= interval ->
  forall (m : nat) (stableChecks : Z) (w : scripted_world),
    (forall j, (j <= m)%nat -> samples (fetched w + j) = Some p) ->
    stableCount <= stableChecks + 1 + Z.of_nat m ->
    clock w + Z.of_nat m * interval - start < timeout ->
    exists w',
      settles h (loop (Some p, stableChecks)) w Resolved w' /\
      (fetched w' <= fetched w + S m)%nat.
Proof.
  intros Hi m. induction m as [|m IH]; intros k w Hs Hk Ht.
  - eexists. split.
    + apply sampled_reached with (p := p).
      * rewrite <- (Hs 0%nat) by lia. f_equal. lia.
      * lia.
      * now apply samePosition_true.
      * lia.
    + cbn [fetched]. lia.
  - assert (Hs0 : samples (fetched w) = Some p)
      by (rewrite <- (Hs 0%nat) by lia; f_equal; lia).
    assert (Hsame : samePosition (Some p) p = true) by now apply samePosition_true.
    destruct (Z_le_gt_dec stableCount (k + 1)) as [Hr|Hr].
    + eexists. split.
      * apply sampled_reached with (p := p); [assumption|nia|assumption|assumption].
      * cbn [fetched]. lia.
    + destruct (IH (k + 1) (slept w)) as [w' [Hw' Hf]].
      * intros j Hj. cbn [slept fetched]. rewrite <- (Hs (S j)) by lia. f_equal. lia.
      * lia.
      * cbn [slept clock]. nia.
      * exists w'. split.
        -- apply sampled_same with (p := p); [assumption|nia|assumption|lia|assumption].
        -- cbn [slept fetched] in Hf. lia.
Qed.
End Sampled.

(** ** The whole call *)

Lemma waitForElementToStopMoving_start {W} (h : env W)
    (options : WaitForStability.Options) (fuel : nat) (w : W) :
  run h (S fuel) (waitForElementToStopMoving options) w =
  after (NowAt (fst (now h w)))
    (run h fuel
       (waitForElementToStopMoving_loop (fst (now h w))
          (default 5000 (WaitForStability.timeout options))
          (default 200 (WaitForStability.interval options))
          (default 3 (WaitForStability.stableCount options))
          (None, 0))
       (snd (now h w))).
Proof.
  rewrite waitForElementToStopMoving_unfold, run_Vis. cbn [handle].
  destruct (now h w) as [s w0]. reflexivity.
Qed.

(** C2.  In every run of [waitForElementToStopMoving], once a sample has
    come back unavailable the call makes one more call, the fallback delay
    of 2000ms, and resolves: it does not throw and takes no other sample.
    In particular, when the very first sample is unavailable the call
    resolves after that delay; a first sample is taken when the first check
    of the deadline has passed and the awaited element is there, and it is
    what the fetch of the attributes gives then. A sample is unavailable
    when the fetch threw, the attributes have no frame, or a coordinate of
    the frame is not a number. *)
Theorem waitForElementToStopMoving_gives_up {W} (h : env W)
    (options : WaitForStability.Options) (w : W) :
  (forall fuel post,
     gaveUp (calls (run h fuel (waitForElementToStopMoving options) w)) = Some post ->
     forall fuel', (fuel + 2 <= fuel')%nat ->
       outcome (run h fuel' (waitForElementToStopMoving options) w) = Some Resolved /\
       gaveUp (calls (run h fuel' (waitForElementToStopMoving options) w))
       = Some [Slept 2000])
  /\ (forall w0 w1 w2 w3 s t r fuel,
        now h w = (s, w0) ->
        now h w0 = (t, w1) ->
        t - s < default 5000 (WaitForStability.timeout options) ->
        element h w1 = (inr tt, w2) ->
        getAttributes h w2 = (r, w3) ->
        sampleOf r = None ->
        (6 <= fuel)%nat ->
        run h fuel (waitForElementToStopMoving options) w =
        Run (Some Resolved) (sleep h 2000 w3)
            [NowAt s; NowAt t; ElementGave (inr tt); AttributesGave r; Slept 2000])
  /\ (forall r,
        sampleOf r = None <->
        match r with
        | inl _ => True
        | inr a =>
          match frame a with
          | None => True
          | Some f => (forall n, frame_x f <> JNumber n) \/ (forall n, frame_y f <> JNumber n)
          end
        end).
Proof.
  split; [|split].
  - intros fuel post H fuel' Hf.
    destruct fuel as [|fuel]; [discriminate|].
    destruct fuel' as [|fuel']; [lia|].
    rewrite waitForElementToStopMoving_start in *. cbn [after outcome calls gaveUp] in *.
    eapply stability_loop_gaveUp; [exact H|lia].
  - intros w0 w1 w2 w3 s t r fuel Hs Hn Hlt He Ha Hr Hf.
    do 6 (destruct fuel as [|fuel]; [lia|]).
    rewrite waitForElementToStopMoving_start, Hs. cbn [fst snd].
    change (S (S (S (S (S fuel))))) with (5 + fuel)%nat.
    rewrite (@stability_unavailable _ h s _ _ _ None 0 w0 w1 w2 w3 t r Hn Hlt He Ha fuel Hr).
    reflexivity.
  - intros [e|a]; cbn [sampleOf]; [tauto|]. unfold framePosition.
    destruct (frame a) as [f|]; [|tauto].
    destruct (frame_x f) as [fx|], (frame_y f) as [fy|]; split; intros H;
      try reflexivity; try discriminate.
    + destruct H as [H|H]; [now elim (H fx)|now elim (H fy)].
    + right. intros n. discriminate.
    + left. intros n. discriminate.
    + left. intros n. discriminate.
Qed.

(** C4 as stated does not hold: with [stableCount = 1] the first sample
    sets [stableChecks] to 1, which is [stableCount], yet the call goes on;
    here it sleeps past the deadline and throws. *)
Lemma one_sample_is_not_enough :
  run (sampled (fun _ => at_ 1 1)) 8
    (waitForElementToStopMoving
       {| WaitForStability.timeout := Some 5;
          WaitForStability.interval := Some 10;
          WaitForStability.stableCount := Some 1 |})
    (at_start 0)
  = Run (Some (Rejected (Error "Element did not become stable in time")))
        {| clock := 10; asked := 0; fetched := 1 |}
        [NowAt 0; NowAt 0; ElementGave (inr tt);
         AttributesGave (inr (attributesAt (at_ 1 1))); Slept 10; NowAt 10].
Proof. vm_compute. reflexivity. Qed.

(** C4, amended.  A call starts with no baseline and [stableChecks = 0].
    An available sample taken before the deadline that has no baseline to
    equal, or differs from it, becomes the baseline with [stableChecks = 1];
    one that equals the baseline (same x and same y) increments
    [stableChecks], and the call resolves at once if the incremented count
    is at least [stableCount]; otherwise the call sleeps [interval] and
    samples again. Hence, for [stableCount >= 2], under the ideal clock, a
    run of [stableCount] equal available samples that starts in any state of
    the loop and fits before the deadline makes the call resolve, no later
    than at the last sample of the run. *)
Theorem waitForElementToStopMoving_counts_matches
    (start timeout interval stableCount : Z) :
  let loop := waitForElementToStopMoving_loop start timeout interval stableCount in
  (forall W (h : env W) options fuel w,
     run h (S fuel) (waitForElementToStopMoving options) w =
     after (NowAt (fst (now h w)))
       (run h fuel
          (waitForElementToStopMoving_loop (fst (now h w))
             (default 5000 (WaitForStability.timeout options))
             (default 200 (WaitForStability.interval options))
             (default 3 (WaitForStability.stableCount options))
             (None, 0))
          (snd (now h w))))
  /\ (forall W (h : env W) lastPosition stableChecks w w1 w2 w3 t r p fuel,
        now h w = (t, w1) ->
        t - start < timeout ->
        element h w1 = (inr tt, w2) ->
        getAttributes h w2 = (r, w3) ->
        sampleOf r = Some p ->
        let sample rest :=
          after (NowAt t) (after (ElementGave (inr tt)) (after (AttributesGave r) rest)) in
        let again st :=
          sample (after (Slept interval) (run h fuel (loop st) (sleep h interval w3))) in
        run h (5 + fuel) (loop (lastPosition, stableChecks)) w =
        if samePosition lastPosition p
        then
          if stableCount <=? stableChecks + 1
          then sample (Run (Some Resolved) w3 [])
          else again (lastPosition, stableChecks + 1)
        else again (Some p, 1))
  /\ (forall p, samePosition None p = false)
  /\ (forall l p, samePosition (Some l) p = true <-> x p = x l /\ y p = y l)
  /\ (forall samples p lastPosition stableChecks w,
        2 <= stableCount ->
        0 <= stableChecks ->
        0 <= interval ->
        (forall j, (j < Z.to_nat stableCount)%nat ->
                   samples (fetched w + j)%nat = Some p) ->
        clock w + (stableCount - 1) * interval - start < timeout ->
        exists w',
          settles (sampled samples) (loop (lastPosition, stableChecks)) w Resolved w' /\
          (fetched w' <= fetched w + Z.to_nat stableCount)%nat).
Proof.
  intros loop. split; [|split; [|split; [|split]]].
  - intros. apply waitForElementToStopMoving_start.
  - intros W h lastPosition stableChecks w w1 w2 w3 t r p fuel Hn Hlt He Ha Hr sample again.
    unfold again, sample, loop.
    destruct (samePosition lastPosition p) eqn:Hp.
    + destruct (Z.leb_spec stableCount (stableChecks + 1)) as [Hk|Hk].
      * change (5 + fuel)%nat with (4 + S fuel)%nat.
        apply (@stability_reached _ h start timeout interval stableCount
                 lastPosition stableChecks w w1 w2 w3 t r Hn Hlt He Ha (S fuel) p Hr Hp Hk).
      * apply (@stability_same _ h start timeout interval stableCount
                 lastPosition stableChecks w w1 w2 w3 t r Hn Hlt He Ha fuel p Hr Hp Hk).
    + apply (@stability_moved _ h start timeout interval stableCount
               lastPosition stableChecks w w1 w2 w3 t r Hn Hlt He Ha fuel p Hr Hp).
  - apply samePosition_None.
  - apply samePosition_Some.
  - intros samples p lastPosition stableChecks w Hsc Hk Hi Hs Ht.
    assert (Hs0 : samples (fetched w) = Some p)
      by (rewrite <- (Hs 0%nat) by lia; f_equal; lia).
    assert (Hg : clock w - start < timeout) by nia.
    set (slept := {| clock := clock w + interval; asked := asked w;
                     fetched := S (fetched w) |}).
    assert (Hrun : forall k, 1 <= k ->
              exists w', settles (sampled samples) (loop (Some p, k)) slept Resolved w' /\
                         (fetched w' <= fetched w + Z.to_nat stableCount)%nat).
    { intros k Hk1.
      destruct (@sampled_stable_run samples start timeout interval stableCount p Hi
                  (Z.to_nat stableCount - 2) k slept) as [w' [Hw' Hf]].
      - intros j Hj. cbn [slept fetched]. rewrite <- (Hs (S j)) by lia. f_equal. lia.
      - lia.
      - cbn [slept clock]. rewrite Nat2Z.inj_sub, Z2Nat.id by lia. cbn. nia.
      - exists w'. split; [exact Hw'|]. cbn [slept fetched] in Hf. lia. }
    destruct (samePosition lastPosition p) eqn:Hp.
    + destruct (Z_le_gt_dec stableCount (stableChecks + 1)) as [Hr|Hr].
      * eexists. split.
        -- apply (@sampled_reached samples start timeout interval stableCount
                    lastPosition stableChecks w p Hs0 Hg Hp Hr).
        -- cbn [fetched]. lia.
      * destruct (Hrun (stableChecks + 1)) as [w' [Hw' Hf]]; [lia|].
        exists w'. split; [|exact Hf].
        apply samePosition_true in Hp as Hl. subst lastPosition.
        apply (@sampled_same samples start timeout interval stableCount
                 (Some p) stableChecks w p Hs0 Hg Resolved w' Hp); [lia|exact Hw'].
    + destruct (Hrun 1) as [w' [Hw' Hf]]; [lia|].
      exists w'. split; [|exact Hf].
      apply (@sampled_moved samples start timeout interval stableCount
               lastPosition stableChecks w p Hs0 Hg Resolved w' Hp Hw').
Qed.

Lemma settles_start (samples : nat -> option position)
    (options : WaitForStability.Options) (w : scripted_world) o w' :
  settles (sampled samples)
    (waitForElementToStopMoving_loop (clock w)
       (default 5000 (WaitForStability.timeout options))
       (default 200 (WaitForStability.interval options))
       (default 3 (WaitForStability.stableCount options))
       (None, 0)) w o w' ->
  settles (sampled samples) (waitForElementToStopMoving options) w o w'.
Proof.
  intros [fuel [Ho Hw]]. exists (S fuel).
  rewrite waitForElementToStopMoving_start. split; [exact Ho|exact Hw].
Qed.

(** C9.  In every run of [waitForElementToStopMoving], a reading of the
    clock that is [timeout] or more past the start ends the call there: it
    rejects with 'Element did not become stable in time' and makes no other
    call. When every sample of a settled run was available, the call either
    resolved right at a sample or rejected with that error: it never
    resolves on the timeout. In particular, under the ideal clock, with
    samples that start (1,1), (2,2), (1,1) and stay available,
    [stableCount = 3] and a timeout shorter than 4 intervals, the call
    rejects with that error. *)
Theorem waitForElementToStopMoving_times_out :
  let stabilityTimeout := Rejected (Error "Element did not become stable in time") in
  (forall W (h : env W) options w fuel post,
     let call := waitForElementToStopMoving options in
     expired (default 5000 (WaitForStability.timeout options))
       (calls (run h fuel call w)) = Some post ->
     post = [] /\
     forall fuel', (fuel < fuel')%nat ->
       run h fuel' call w =
       Run (Some stabilityTimeout) (world (run h fuel call w)) (calls (run h fuel call w)))
  /\ (forall W (h : env W) options w fuel o,
        let call := waitForElementToStopMoving options in
        outcome (run h fuel call w) = Some o ->
        everySampleAvailable (calls (run h fuel call w)) = true ->
        (o = Resolved /\ endsWithSample (calls (run h fuel call w)) = true)
        \/ o = stabilityTimeout)
  /\ (forall samples interval timeout c,
        samples 0%nat = at_ 1 1 ->
        samples 1%nat = at_ 2 2 ->
        samples 2%nat = at_ 1 1 ->
        (forall n, samples n <> None) ->
        timeout < 4 * interval ->
        exists w',
          settles (sampled samples)
            (waitForElementToStopMoving
               {| WaitForStability.timeout := Some timeout;
                  WaitForStability.interval := Some interval;
                  WaitForStability.stableCount := Some 3 |})
            (at_start c) stabilityTimeout w').
Proof.
  intros stabilityTimeout. split; [|split].
  - intros W h options w fuel post call. unfold call.
    destruct fuel as [|fuel']; [discriminate|].
    rewrite waitForElementToStopMoving_start. cbn [after calls world expired].
    intros H. apply stability_loop_expired in H. destruct H as [-> H].
    split; [reflexivity|]. intros fuel'' Hf. destruct fuel'' as [|fuel'']; [lia|].
    rewrite waitForElementToStopMoving_start, (H fuel'') by lia. reflexivity.
  - intros W h options w fuel o call. unfold call.
    destruct fuel as [|fuel']; [discriminate|].
    rewrite waitForElementToStopMoving_start.
    cbn [after outcome calls everySampleAvailable forallb isAvailable andb].
    unfold endsWithSample. cbn [fold_left isFetch].
    apply stability_loop_no_silent_success.
  - intros samples interval timeout c H0 H1 H2 Hav Hlt.
    assert (Hexp : forall st w0, timeout <= clock w0 - c ->
              exists w', settles (sampled samples)
                           (waitForElementToStopMoving_loop c timeout interval 3 st) w0
                           stabilityTimeout w')
      by (intros st w0 Hge; exists w0; now apply sampled_expired).
    cut (exists w', settles (sampled samples)
                      (waitForElementToStopMoving_loop c timeout interval 3 (None, 0))
                      (at_start c) stabilityTimeout w').
    { intros [w' Hw']. exists w'. now apply settles_start. }
    destruct (Z_le_gt_dec timeout (c - c)) as [He|Hg0]; [now apply Hexp|].
    set (w1 := {| clock := c + interval; asked := 0; fetched := 1 |}).
    cut (exists w', settles (sampled samples)
                      (waitForElementToStopMoving_loop c timeout interval 3
                         (at_ 1 1, 1)) w1 stabilityTimeout w').
    { intros [w' Hw']. exists w'.
      apply (@sampled_moved samples c timeout interval 3 None 0 (at_start c)
               {| x := 1; y := 1 |} H0); [cbn; lia|reflexivity|exact Hw']. }
    destruct (Z_le_gt_dec timeout (clock w1 - c)) as [He|Hg1]; [now apply Hexp|].
    set (w2 := {| clock := c + interval + interval; asked := 0; fetched := 2 |}).
    cut (exists w', settles (sampled samples)
                      (waitForElementToStopMoving_loop c timeout interval 3
                         (at_ 2 2, 1)) w2 stabilityTimeout w').
    { intros [w' Hw']. exists w'.
      apply (@sampled_moved samples c timeout interval 3 (at_ 1 1) 1 w1
               {| x := 2; y := 2 |} H1); [lia|reflexivity|exact Hw']. }
    destruct (Z_le_gt_dec timeout (clock w2 - c)) as [He|Hg2]; [now apply Hexp|].
    set (w3 := {| clock := c + interval + interval + interval; asked := 0; fetched := 3 |}).
    cut (exists w', settles (sampled samples)
                      (waitForElementToStopMoving_loop c timeout interval 3
                         (at_ 1 1, 1)) w3 stabilityTimeout w').
    { intros [w' Hw']. exists w'.
      apply (@sampled_moved samples c timeout interval 3 (at_ 2 2) 1 w2
               {| x := 1; y := 1 |} H2); [lia|reflexivity|exact Hw']. }
    destruct (Z_le_gt_dec timeout (clock w3 - c)) as [He|Hg3]; [now apply Hexp|].
    set (w4 := {| clock := c + interval + interval + interval + interval;
                  asked := 0; fetched := 4 |}).
    destruct (samples 3%nat) as [p|] eqn:H3; [|now elim (Hav 3%nat)].
    destruct (Hexp (if samePosition (at_ 1 1) p then (at_ 1 1, 1 + 1) else (Some p, 1)) w4)
      as [w' Hw']; [cbn [w4 clock]; lia|].
    exists w'.
    destruct (samePosition (at_ 1 1) p) eqn:Hp.
    + apply (@sampled_same samples c timeout interval 3 (at_ 1 1) 1 w3 p H3);
        [lia|exact Hp|lia|exact Hw'].
    + apply (@sampled_moved samples c timeout interval 3 (at_ 1 1) 1 w3 p H3);
        [lia|exact Hp|exact Hw'].
Qed.

(** * The theorems at concrete runs *)

Lemma waitUntil_is_ConditionPoller_witness :
  outcome (run never_met 16 (waitUntil {| interval := 10; timeout := 25 |}) 100)
  = Some (Rejected (Error "Condition not met within 25ms."))
  /\ run never_met 16 (waitUntil {| interval := 10; timeout := 25 |}) 100
     = ConditionPoller never_met 16 10 25 100.
Proof.
  split; [reflexivity|].
  exact (proj2 (@waitUntil_is_ConditionPoller _ never_met
                  {| interval := 10; timeout := 25 |} 100) 16%nat _ eq_refl).
Defined.

Lemma waitForElementToBeEnabled_is_EnabledPoller_witness :
  outcome (run never_met 18 (waitForElementToBeEnabled (Some 250) None) 100)
  = Some (Rejected (Error "Element is not enabled"))
  /\ run never_met 18 (waitForElementToBeEnabled (Some 250) None) 100
     = EnabledPoller never_met 18 250 100 100.
Proof.
  split; [reflexivity|].
  exact (proj2 (@waitForElementToBeEnabled_is_EnabledPoller _ never_met
                  (Some 250) None 100) 18%nat _ eq_refl).
Defined.

Lemma waitUntil_met_at_once_witness :
  now met_at_once (at_start 0) = (0, at_start 0)
  /\ condition met_at_once (at_start 0)
     = (inr true, {| clock := 0; asked := 1; fetched := 0 |})
  /\ run met_at_once 3 (waitUntil {| interval := 100; timeout := 1000 |}) (at_start 0)
     = Run (Some Resolved) {| clock := 0; asked := 1; fetched := 0 |}
           [NowAt 0; ConditionGave (inr true)].
Proof.
  split; [reflexivity|split; [reflexivity|]].
  apply (proj1 (@waitUntil_met_at_once _ met_at_once {| interval := 100; timeout := 1000 |}
                  (at_start 0) (at_start 0) {| clock := 0; asked := 1; fetched := 0 |} 0
                  eq_refl eq_refl) 3%nat).
  apply Nat.le_refl.
Defined.

Lemma waitUntil_never_met_times_out_witness :
  0 <= 25
  /\ (0 < 10 \/ (0 <= 10 /\ 25 = 0))
  /\ exists fuel cs,
       run never_met fuel (waitUntil {| interval := 10; timeout := 25 |}) 100 =
       Run (Some (Rejected (Error "Condition not met within 25ms."))) 125 cs
       /\ 25 <= 125 - 100 <= 25 + 10.
Proof.
  assert (H0 : 0 <= 25) by lia.
  assert (H1 : 0 < 10 \/ (0 <= 10 /\ 25 = 0)) by (left; lia).
  split; [exact H0|split; [exact H1|]].
  exact (@waitUntil_never_met_times_out 10 25 100 H0 H1).
Defined.

Lemma waitForElementToBeEnabled_expired_witness :
  0 <= 0
  /\ now never_met 100 = (100, 100)
  /\ 100 <= 100
  /\ run never_met 3 (waitForElementToBeEnabled (Some 0) None) 100
     = Run (Some (Rejected (Error "Element is not enabled"))) 100 [NowAt 100; NowAt 100].
Proof.
  assert (H0 : 0 <= 0) by lia. assert (H1 : 100 <= 100) by lia.
  split; [exact H0|split; [reflexivity|split; [exact H1|]]].
  apply (proj1 (@waitForElementToBeEnabled_expired _ never_met 0 None
                  100 100 100 100 100 H0 eq_refl eq_refl H1) 3%nat).
  apply Nat.le_refl.
Defined.

Lemma awaited_errors_propagate_witness :
  raised (calls (run raising 2 (waitUntil {| interval := 100; timeout := 1000 |})
                   (at_start 0)))
  = Some (Raised 7, [])
  /\ run raising 3 (waitUntil {| interval := 100; timeout := 1000 |}) (at_start 0)
     = Run (Some (Rejected (Raised 7))) {| clock := 0; asked := 1; fetched := 0 |}
           [NowAt 0; ConditionGave (inl (Raised 7))]
  /\ raised (calls (run raising 4 (waitForElementToBeEnabled None None) (at_start 0)))
     = Some (Error "no such element", [])
  /\ run raising 5 (waitForElementToBeEnabled None None) (at_start 0)
     = Run (Some (Rejected (Error "no such element")))
           {| clock := 0; asked := 0; fetched := 1 |}
           [NowAt 0; NowAt 0; ElementGave (inr tt);
            AttributesGave (inl (Error "no such element"))].
Proof.
  split; [reflexivity|split; [|split; [reflexivity|]]].
  - exact (proj2 (proj1 (@awaited_errors_propagate _ raising (at_start 0) 2 (Raised 7) [])
                    {| interval := 100; timeout := 1000 |} eq_refl)
             3%nat (Nat.le_refl 3)).
  - exact (proj2 (proj2 (@awaited_errors_propagate _ raising (at_start 0) 4
                           (Error "no such element") [])
                    None None eq_refl)
             5%nat (Nat.le_refl 5)).
Defined.

Lemma waitUntil_yields_every_round_witness :
  condition never_met 0 = (inr false, 0)
  /\ now never_met 0 = (0, 0)
  /\ 0 < 5
  /\ run never_met (4 + 1) (waitUntil_loop 0 7 5) 0
     = Run None 0 [ConditionGave (inr false); NowAt 0; Slept 0; ConditionGave (inr false)]
  /\ Forall (eq 1%nat)
       (suspensionsBetween None
          (calls (run never_met 12 (waitUntil {| interval := 0; timeout := 7 |}) 0))).
Proof.
  assert (H : 0 < 5) by lia.
  split; [reflexivity|split; [reflexivity|split; [exact H|split]]].
  - exact (proj1 (proj2 (@waitUntil_yields_every_round _ never_met
                           {| interval := 0; timeout := 7 |})
                    5 1%nat 0 0 0 0 eq_refl eq_refl H)).
  - exact (proj1 (@waitUntil_yields_every_round _ never_met
                    {| interval := 0; timeout := 7 |}) 12%nat 0).
Defined.

Lemma waitForElementToStopMoving_gives_up_witness :
  now unobservable (at_start 0) = (0, at_start 0)
  /\ 0 - 0 < default 5000 (WaitForStability.timeout briefly)
  /\ element unobservable (at_start 0) = (inr tt, at_start 0)
  /\ getAttributes unobservable (at_start 0)
     = (inr (attributesAt None), {| clock := 0; asked := 0; fetched := 1 |})
  /\ sampleOf (inr (attributesAt None)) = None
  /\ run unobservable 6 (waitForElementToStopMoving briefly) (at_start 0)
     = Run (Some Resolved) {| clock := 2000; asked := 0; fetched := 1 |}
           [NowAt 0; NowAt 0; ElementGave (inr tt);
            AttributesGave (inr (attributesAt None)); Slept 2000]
  /\ gaveUp (calls (run unobservable 4 (waitForElementToStopMoving briefly) (at_start 0)))
     = Some []
  /\ outcome (run unobservable 6 (waitForElementToStopMoving briefly) (at_start 0))
     = Some Resolved.
Proof.
  assert (Hlt : 0 - 0 < default 5000 (WaitForStability.timeout briefly)) by (cbn; lia).
  split; [reflexivity|split; [exact Hlt|split; [reflexivity|split; [reflexivity|
    split; [reflexivity|split; [|split; [reflexivity|]]]]]]].
  - exact (proj1 (proj2 (@waitForElementToStopMoving_gives_up _ unobservable briefly
                           (at_start 0)))
             (at_start 0) (at_start 0) (at_start 0)
             {| clock := 0; asked := 0; fetched := 1 |}
             0 0 (inr (attributesAt None)) 6%nat
             eq_refl eq_refl Hlt eq_refl eq_refl eq_refl (Nat.le_refl 6)).
  - exact (proj1 (proj1 (@waitForElementToStopMoving_gives_up _ unobservable briefly
                           (at_start 0))
                    4%nat [] eq_refl 6%nat (Nat.le_refl 6))).
Defined.

Lemma waitForElementToStopMoving_counts_matches_witness :
  2 <= 3
  /\ 0 <= 0
  /\ 0 <= 200
  /\ (forall j, (j < Z.to_nat 3)%nat -> at_ 1 1 = Some {| x := 1; y := 1 |})
  /\ clock (at_start 0) + (3 - 1) * 200 - 0 < 5000
  /\ (exists w',
        settles (sampled (fun _ => at_ 1 1))
          (waitForElementToStopMoving_loop 0 5000 200 3 (None, 0))
          (at_start 0) Resolved w'
        /\ (fetched w' <= fetched (at_start 0) + Z.to_nat 3)%nat)
  /\ now (sampled (fun _ => at_ 1 1)) (at_start 0) = (0, at_start 0)
  /\ 0 - 0 < 5000
  /\ getAttributes (sampled (fun _ => at_ 1 1)) (at_start 0)
     = (inr (attributesAt (at_ 1 1)), {| clock := 0; asked := 0; fetched := 1 |})
  /\ run (sampled (fun _ => at_ 1 1)) (5 + 0)
       (waitForElementToStopMoving_loop 0 5000 200 3 (None, 0)) (at_start 0)
     = Run None {| clock := 200; asked := 0; fetched := 1 |}
           [NowAt 0; ElementGave (inr tt); AttributesGave (inr (attributesAt (at_ 1 1)));
            Slept 200].
Proof.
  assert (H2 : 2 <= 3) by lia. assert (H0 : 0 <= 0) by lia.
  assert (Hi : 0 <= 200) by lia.
  assert (Hs : forall j, (j < Z.to_nat 3)%nat -> at_ 1 1 = Some {| x := 1; y := 1 |})
    by (intros j _; reflexivity).
  assert (Ht : clock (at_start 0) + (3 - 1) * 200 - 0 < 5000) by (cbn; lia).
  assert (Hg : 0 - 0 < 5000) by lia.
  split; [exact H2|split; [exact H0|split; [exact Hi|split; [exact Hs|split; [exact Ht|
    split; [|split; [reflexivity|split; [exact Hg|split; [reflexivity|]]]]]]]]].
  - exact (proj2 (proj2 (proj2 (proj2
             (@waitForElementToStopMoving_counts_matches 0 5000 200 3))))
             (fun _ => at_ 1 1) {| x := 1; y := 1 |} None 0 (at_start 0) H2 H0 Hi Hs Ht).
  - exact (proj1 (proj2 (@waitForElementToStopMoving_counts_matches 0 5000 200 3))
             _ (sampled (fun _ => at_ 1 1)) None 0
             (at_start 0) (at_start 0) (at_start 0) {| clock := 0; asked := 0; fetched := 1 |}
             0 (inr (attributesAt (at_ 1 1))) {| x := 1; y := 1 |} 0%nat
             eq_refl Hg eq_refl eq_refl eq_refl).
Defined.

Lemma waitForElementToStopMoving_times_out_witness :
  alternating 0%nat = at_ 1 1
  /\ alternating 1%nat = at_ 2 2
  /\ alternating 2%nat = at_ 1 1
  /\ (forall n, alternating n <> None)
  /\ 35 < 4 * 10
  /\ (exists w',
        settles (sampled alternating)
          (waitForElementToStopMoving
             {| WaitForStability.timeout := Some 35;
                WaitForStability.interval := Some 10;
                WaitForStability.stableCount := Some 3 |})
          (at_start 0) (Rejected (Error "Element did not become stable in time")) w')
  /\ expired 35
       (calls (run (sampled alternating) 22
                 (waitForElementToStopMoving
                    {| WaitForStability.timeout := Some 35;
                       WaitForStability.interval := Some 10;
                       WaitForStability.stableCount := Some 3 |})
                 (at_start 0)))
     = Some []
  /\ outcome
       (run (sampled alternating) 23
          (waitForElementToStopMoving
             {| WaitForStability.timeout := Some 35;
                WaitForStability.interval := Some 10;
                WaitForStability.stableCount := Some 3 |})
          (at_start 0))
     = Some (Rejected (Error "Element did not become stable in time"))
  /\ everySampleAvailable
       (calls (run (sampled alternating) 23
                 (waitForElementToStopMoving
                    {| WaitForStability.timeout := Some 35;
                       WaitForStability.interval := Some 10;
                       WaitForStability.stableCount := Some 3 |})
                 (at_start 0)))
     = true
  /\ ((Rejected (Error "Element did not become stable in time") = Resolved
       /\ endsWithSample
            (calls (run (sampled alternating) 23
                      (waitForElementToStopMoving
                         {| WaitForStability.timeout := Some 35;
                            WaitForStability.interval := Some 10;
                            WaitForStability.stableCount := Some 3 |})
                      (at_start 0)))
          = true)
      \/ Rejected (Error "Element did not become stable in time")
         = Rejected (Error "Element did not become stable in time")).
Proof.
  assert (Hav : forall n, alternating n <> None)
    by (intros [|[|n]]; discriminate).
  assert (Hlt : 35 < 4 * 10) by lia.
  split; [reflexivity|split; [reflexivity|split; [reflexivity|
    split; [exact Hav|split; [exact Hlt|split; [|split; [reflexivity|split; [|split]]]]]]]].
  - exact (proj2 (proj2 waitForElementToStopMoving_times_out)
             alternating 10 35 0 eq_refl eq_refl eq_refl Hav Hlt).
  - rewrite (proj2 (proj1 waitForElementToStopMoving_times_out _ (sampled alternating)
                      {| WaitForStability.timeout := Some 35;
                         WaitForStability.interval := Some 10;
                         WaitForStability.stableCount := Some 3 |}
                      (at_start 0) 22%nat [] eq_refl) 23%nat (Nat.le_refl 23)).
    reflexivity.
  - reflexivity.
  - exact (proj1 (proj2 waitForElementToStopMoving_times_out) _ (sampled alternating)
             {| WaitForStability.timeout := Some 35;
                WaitForStability.interval := Some 10;
                WaitForStability.stableCount := Some 3 |}
             (at_start 0) 23%nat _ eq_refl eq_refl).
Defined.

(** * Strings *)

Lemma append_assoc (a b c : string) : ((a ++ b) ++ c = a ++ (b ++ c))%string.
Proof. induction a as [|ch a IH]; [reflexivity|]. cbn. now rewrite IH. Qed.

Lemma occurs_append (c : ascii) (a b : string) :
  occurs c (a ++ b) = occurs c a || occurs c b.
Proof.
  induction a as [|ch a IH]; [reflexivity|]. cbn. rewrite IH. apply orb_assoc.
Qed.

(** Two strings that agree up to their first occurrence of [c]. *)
Lemma append_cut (c : ascii) (a a' r r' : string) :
  occurs c a = false -> occurs c a' = false ->
  (a ++ String c r = a' ++ String c r')%string ->
  a = a' /\ r = r'.
Proof.
  revert a'. induction a as [|ch a IH]; intros [|ch' a'] Ha Ha' H; cbn in *.
  - injection H as ->. now split.
  - injection H as <- _. now rewrite Ascii.eqb_refl in Ha'.
  - injection H as -> _. now rewrite Ascii.eqb_refl in Ha.
  - injection H as -> H. apply orb_false_iff in Ha as [_ Ha], Ha' as [_ Ha'].
    destruct (IH a' Ha Ha' H) as [-> ->]. now split.
Qed.

Lemma split_not_nil (sep : ascii) (s : string) : split sep s <> [].
Proof.
  destruct s as [|c s]; cbn; [discriminate|].
  destruct (Ascii.eqb c sep); [discriminate|]. destruct (split sep s); discriminate.
Qed.

Lemma split_free (sep : ascii) (s : string) :
  occurs sep s = false -> split sep s = [s].
Proof.
  induction s as [|c s IH]; [reflexivity|]. cbn. intros H.
  apply orb_false_iff in H as [Hc Hs]. now rewrite Hc, (IH Hs).
Qed.

Lemma split_parts_free (sep : ascii) (s part : string) :
  In part (split sep s) -> occurs sep part = false.
Proof.
  revert part. induction s as [|c s IH]; intros part; cbn.
  - intros [<-|[]]. reflexivity.
  - destruct (Ascii.eqb c sep) eqn:Hc.
    + intros [<-|H]; [reflexivity|now apply IH].
    + destruct (split sep s) as [|p ps] eqn:Hs.
      * now elim (split_not_nil sep s).
      * intros [<-|H]; cbn.
        -- rewrite Hc. apply IH. now left.
        -- apply IH. now right.
Qed.

Lemma split_append (sep : ascii) (a b : string) :
  split sep (a ++ String sep b) = (split sep a ++ split sep b)%list.
Proof.
  induction a as [|c a IH]; cbn.
  - now rewrite Ascii.eqb_refl.
  - destruct (Ascii.eqb c sep); [now rewrite IH|].
    rewrite IH. destruct (split sep a) as [|p ps] eqn:Hs; [|reflexivity].
    now elim (split_not_nil sep a).
Qed.

Lemma join_cons (sep x : string) (xs : list string) :
  xs <> [] -> join sep (x :: xs) = (x ++ sep ++ join sep xs)%string.
Proof. destruct xs; [congruence|reflexivity]. Qed.

Lemma join_split (sep : ascii) (s : string) :
  join (String sep EmptyString) (split sep s) = s.
Proof.
  induction s as [|c s IH]; [reflexivity|]. cbn [split].
  destruct (Ascii.eqb c sep) eqn:Hc.
  - apply Ascii.eqb_eq in Hc as ->.
    rewrite join_cons by apply split_not_nil. cbn. now rewrite IH.
  - destruct (split sep s) as [|p ps] eqn:Hs; [now elim (split_not_nil sep s)|].
    destruct ps as [|q ps]; cbn in *; now rewrite <- IH.
Qed.

Lemma join_app (sep : string) (xs ys : list string) :
  xs <> [] -> ys <> [] ->
  join sep (xs ++ ys) = (join sep xs ++ sep ++ join sep ys)%string.
Proof.
  intros Hx Hy. induction xs as [|x xs IH]; [congruence|].
  destruct xs as [|x' xs].
  - cbn [app]. now rewrite join_cons.
  - change ((x :: x' :: xs) ++ ys)%list with (x :: (x' :: xs) ++ ys)%list.
    rewrite join_cons by discriminate. rewrite IH by discriminate.
    rewrite (join_cons sep x (xs := x' :: xs)) by discriminate.
    now rewrite !append_assoc.
Qed.

(** * [formatForExactMatchGroup] *)

Lemma groupBody_cons (x : string) (xs : list string) :
  xs <> [] ->
  groupBody (x :: xs) = (x ++ String quote ("," ++ String quote (groupBody xs)))%string.
Proof.
  intros H. unfold groupBody. rewrite join_cons by assumption.
  unfold separator. now rewrite !append_assoc.
Qed.

Lemma groupBody_injective :
  forall xs ys,
    xs <> [] -> ys <> [] ->
    (forall s, In s xs -> occurs quote s = false) ->
    (forall s, In s ys -> occurs quote s = false) ->
    groupBody xs = groupBody ys -> xs = ys.
Proof.
  induction xs as [|x xs IH]; intros ys Hx Hy Fx Fy H; [congruence|].
  destruct ys as [|y ys]; [congruence|].
  assert (Qx : occurs quote x = false) by (apply Fx; now left).
  assert (Qy : occurs quote y = false) by (apply Fy; now left).
  destruct xs as [|x' xs], ys as [|y' ys].
  - unfold groupBody in H. cbn [join String.concat] in H.
    apply append_cut in H as [-> _]; auto.
  - rewrite (groupBody_cons y (xs := y' :: ys)) in H by discriminate.
    unfold groupBody at 1 in H. cbn [join String.concat] in H.
    apply append_cut in H as [_ H]; auto. discriminate.
  - rewrite (groupBody_cons x (xs := x' :: xs)) in H by discriminate.
    unfold groupBody at 2 in H. cbn [join String.concat] in H.
    apply append_cut in H as [_ H]; auto. discriminate.
  - rewrite (groupBody_cons x (xs := x' :: xs)), (groupBody_cons y (xs := y' :: ys)) in H
      by discriminate.
    apply append_cut in H as [-> H]; auto. cbn in H. injection H as H.
    f_equal. apply IH; try discriminate; auto.
    + intros s Hs. apply Fx. now right.
    + intros s Hs. apply Fy. now right.
Qed.

(** X1.  Strings without a quote are told apart by the group, except that the
    empty list and the list of the empty string give the same group. *)
Theorem formatForExactMatchGroup_injective (xs ys : list string) :
  (forall s, In s xs -> occurs quote s = false) ->
  (forall s, In s ys -> occurs quote s = false) ->
  (formatForExactMatchGroup xs = formatForExactMatchGroup ys <->
   xs = ys \/ (xs = [] /\ ys = [EmptyString]) \/ (xs = [EmptyString] /\ ys = [])).
Proof.
  intros Fx Fy. split.
  - intros H. unfold formatForExactMatchGroup in H. cbn in H. injection H as H.
    fold separator in H. fold (groupBody xs) in H. fold (groupBody ys) in H.
    assert (Hempty : forall zs, (forall s, In s zs -> occurs quote s = false) ->
              groupBody [] = groupBody zs -> zs = [] \/ zs = [EmptyString]).
    { intros zs Fz Hz. destruct zs as [|z zs]; [now left|right].
      change (groupBody []) with (groupBody [EmptyString]) in Hz.
      symmetry. apply groupBody_injective; try discriminate; auto.
      intros s [<-|[]]. reflexivity. }
    destruct xs as [|x xs].
    + destruct (Hempty ys Fy H) as [->| ->]; [now left|right; left; now split].
    + destruct ys as [|y ys].
      * destruct (Hempty (x :: xs) Fx (eq_sym H)) as [E|E]; [discriminate|].
        right. right. now split.
      * left. apply groupBody_injective; try discriminate; auto.
  - intros [->|[[-> ->]|[-> ->]]]; reflexivity.
Qed.

Lemma join_unescaped (a b : string) (ys : list string) :
  join separator ((a ++ separator ++ b)%string :: ys) = join separator (a :: b :: ys).
Proof.
  destruct ys as [|y ys]; [reflexivity|].
  rewrite !join_cons by discriminate. now rewrite !append_assoc.
Qed.

(** X2.  Nothing is escaped: an element that holds quote, comma, quote between
    [a] and [b] gives the group of the two elements [a] and [b]. *)
Theorem formatForExactMatchGroup_unescaped (xs ys : list string) (a b : string) :
  formatForExactMatchGroup (xs ++ (a ++ String quote ("," ++ String quote b))%string :: ys) =
  formatForExactMatchGroup (xs ++ a :: b :: ys).
Proof.
  unfold formatForExactMatchGroup. do 3 f_equal. fold separator.
  change (String quote ("," ++ String quote b))%string with (separator ++ b)%string.
  destruct xs as [|x xs]; [apply join_unescaped|].
  rewrite !(join_app separator (xs := x :: xs)) by discriminate.
  now rewrite join_unescaped.
Qed.

(** * Favorite tokens *)

Lemma at_index_app_r {A} (xs ys : list A) (i : Z) :
  0 <= i ->
  at_index (xs ++ ys) (Z.of_nat (List.length xs) + i) = at_index ys i.
Proof.
  intros Hi. unfold at_index.
  replace (Z.of_nat (List.length xs) + i <? 0) with false by (symmetry; apply Z.ltb_ge; lia).
  replace (i <? 0) with false by (symmetry; apply Z.ltb_ge; lia).
  rewrite nth_error_app2 by lia. f_equal. lia.
Qed.

Lemma slice_front {A} (xs ys : list A) :
  ys <> [] ->
  slice (xs ++ ys) 0 (- Z.of_nat (List.length ys)) = xs.
Proof.
  intros Hys. unfold slice. rewrite length_app, Nat2Z.inj_add. cbn [Z.ltb Z.compare].
  replace (Z.min 0 (Z.of_nat (List.length xs) + Z.of_nat (List.length ys))) with 0 by lia.
  replace (- Z.of_nat (List.length ys) <? 0) with true
    by (symmetry; apply Z.ltb_lt; destruct ys; [congruence|cbn [List.length]; lia]).
  replace (Z.max (Z.of_nat (List.length xs) + Z.of_nat (List.length ys)
                  + - Z.of_nat (List.length ys)) 0 - 0)
    with (Z.of_nat (List.length xs)) by lia.
  cbn [Z.to_nat skipn]. rewrite Nat2Z.id, firstn_app, firstn_all, Nat.sub_diag.
  cbn. apply app_nil_r.
Qed.

(** The parts of an identifier whose last two parts hold no hyphen. *)
Lemma deserializeTokenId_parts (a c st : string) :
  occurs "-" c = false -> occurs "-" st = false ->
  deserializeTokenId (a ++ "-" ++ c ++ "-" ++ st) =
  {| address := a; chainId := Some c; isStaked := Some (String.eqb st "staked") |}.
Proof.
  intros Hc Hst. unfold deserializeTokenId.
  assert (Hparts : split "-" (a ++ "-" ++ c ++ "-" ++ st) = (split "-" a ++ [c; st])%list).
  { change (a ++ "-" ++ c ++ "-" ++ st)%string
      with (a ++ String "-" (c ++ String "-" st))%string.
    now rewrite !split_append, (split_free _ _ Hc), (split_free _ _ Hst). }
  rewrite Hparts, length_app, Nat2Z.inj_add. cbn [List.length Z.of_nat Pos.of_succ_nat Pos.succ].
  replace (Z.of_nat (List.length (split "-" a)) + 2 - 1)
    with (Z.of_nat (List.length (split "-" a)) + 1) by lia.
  replace (Z.of_nat (List.length (split "-" a)) + 2 - 2)
    with (Z.of_nat (List.length (split "-" a)) + 0) by lia.
  rewrite !at_index_app_r by lia.
  change (-2) with (- Z.of_nat (List.length [c; st])).
  rewrite slice_front by discriminate. rewrite join_split. reflexivity.
Qed.

Lemma staked_free (b : bool) : occurs "-" (if b then "staked" else "unstaked") = false.
Proof. destruct b; reflexivity. Qed.

Lemma staked_eqb (b : bool) : String.eqb (if b then "staked" else "unstaked") "staked" = b.
Proof. destruct b; reflexivity. Qed.

Lemma at_index_In {A} (xs : list A) (i : Z) (v : A) : at_index xs i = Some v -> In v xs.
Proof.
  unfold at_index. destruct (i <? 0); [discriminate|]. apply nth_error_In.
Qed.

Lemma deserializeTokenId_free (token : TokenIdentifier) (chain : string) :
  chainId token = Some chain ->
  occurs "-" chain = false ->
  deserializeTokenId (serializeTokenId token) =
  {| address := address token;
     chainId := Some chain;
     isStaked := Some (truthy (isStaked token)) |}.
Proof.
  intros Hchain Hfree. unfold serializeTokenId. rewrite Hchain. cbn [templated].
  rewrite deserializeTokenId_parts by (auto using staked_free).
  now rewrite staked_eqb.
Qed.

(** X3.  A token comes back from its identifier, with [isStaked] as a boolean,
    exactly when its chain id holds no hyphen. *)
Theorem deserializeTokenId_serializeTokenId (token : TokenIdentifier) (chain : string) :
  chainId token = Some chain ->
  (deserializeTokenId (serializeTokenId token) =
   {| address := address token;
      chainId := Some chain;
      isStaked := Some (truthy (isStaked token)) |}
   <-> occurs "-" chain = false).
Proof.
  intros Hchain. split.
  - intros H. apply (f_equal chainId) in H. cbn [chainId] in H.
    unfold deserializeTokenId in H. cbn [chainId] in H.
    apply at_index_In in H. now apply split_parts_free in H.
  - now apply deserializeTokenId_free.
Qed.

(** Tokens with chain ids free of hyphens and the same identifier are the
    same token. *)
Lemma serializeTokenId_injective (t t' : TokenIdentifier) (c c' : string) :
  chainId t = Some c -> chainId t' = Some c' ->
  occurs "-" c = false -> occurs "-" c' = false ->
  (serializeTokenId t = serializeTokenId t' <->
   address t = address t' /\ c = c' /\ truthy (isStaked t) = truthy (isStaked t')).
Proof.
  intros Hc Hc' Hf Hf'. split.
  - intros H.
    pose proof (deserializeTokenId_free t Hc Hf) as E.
    pose proof (deserializeTokenId_free t' Hc' Hf') as E'.
    rewrite H, E' in E. injection E as -> -> ->. auto.
  - intros [Ha [-> Hs]]. unfold serializeTokenId. now rewrite Ha, Hc, Hc', Hs.
Qed.

(** ** The set of favorites *)

Lemma set_has_In (s : StringSet) (v : string) : set_has s v = true <-> In v s.
Proof.
  unfold set_has. rewrite existsb_exists. split.
  - intros [v' [Hin Hv]]. apply String.eqb_eq in Hv. now subst.
  - intros Hin. exists v. split; [assumption|apply String.eqb_refl].
Qed.

Lemma set_has_not_In (s : StringSet) (v : string) : set_has s v = false <-> ~ In v s.
Proof. rewrite <- set_has_In. destruct (set_has s v); split; congruence. Qed.

Lemma In_set_add (s : StringSet) (v v' : string) : In v' (set_add s v) <-> In v' s \/ v' = v.
Proof.
  unfold set_add. destruct (set_has s v) eqn:H.
  - apply set_has_In in H. split; [now left|intros [?| ->]; assumption].
  - rewrite in_app_iff. cbn. intuition congruence.
Qed.

Lemma In_set_delete (s : StringSet) (v v' : string) :
  In v' (set_delete s v) <-> In v' s /\ v' <> v.
Proof.
  unfold set_delete. rewrite filter_In, negb_true_iff, String.eqb_neq.
  intuition congruence.
Qed.

Lemma set_delete_absent (s : StringSet) (v : string) : ~ In v s -> set_delete s v = s.
Proof.
  intros H. unfold set_delete. induction s as [|v' s IH]; [reflexivity|]. cbn.
  destruct (String.eqb_spec v v') as [->|_]; [now elim H; left|].
  cbn. f_equal. apply IH. intros Hin. apply H. now right.
Qed.

Lemma NoDup_set_add (s : StringSet) (v : string) : NoDup s -> NoDup (set_add s v).
Proof.
  intros H. unfold set_add. destruct (set_has s v) eqn:Hv; [assumption|].
  apply set_has_not_In in Hv. apply NoDup_app; [assumption|repeat constructor; intros []|].
  intros x Hx [<-|[]]. contradiction.
Qed.

Lemma NoDup_set_delete (s : StringSet) (v : string) : NoDup s -> NoDup (set_delete s v).
Proof. apply NoDup_filter. Qed.

Lemma length_set_delete (s : StringSet) (v : string) :
  NoDup s -> In v s -> S (List.length (set_delete s v)) = List.length s.
Proof.
  intros Hnd. induction Hnd as [|v' s Hv' Hnd IH]; intros Hin; [destruct Hin|].
  unfold set_delete. cbn. destruct (String.eqb_spec v v') as [->|Hne]; cbn.
  - f_equal. f_equal. now apply set_delete_absent.
  - f_equal. apply IH. destruct Hin; congruence.
Qed.

Lemma set_of_array_acc (array : list string) :
  forall acc,
    (forall v, In v (fold_left set_add array acc) <-> In v acc \/ In v array)
    /\ (NoDup acc -> NoDup (fold_left set_add array acc))
    /\ (NoDup (acc ++ array) -> fold_left set_add array acc = (acc ++ array)%list)
    /\ (List.length (fold_left set_add array acc) <= List.length acc + List.length array)%nat.
Proof.
  induction array as [|v array IH]; intros acc; cbn [fold_left].
  - repeat split; cbn; try tauto; [now rewrite app_nil_r|lia].
  - destruct (IH (set_add acc v)) as [Hin [Hnd [Heq Hlen]]]. repeat split.
    + intros Hv. apply Hin in Hv. rewrite In_set_add in Hv. cbn. intuition.
    + intros Hv. apply Hin. rewrite In_set_add. cbn in Hv. intuition.
    + intros H. now apply Hnd, NoDup_set_add.
    + intros H. assert (Hv : set_has acc v = false).
      { apply set_has_not_In. intros Hv. apply NoDup_remove_2 in H. apply H.
        apply in_or_app. now left. }
      unfold set_add in *. rewrite Hv in *. rewrite Heq; rewrite <- app_assoc; [reflexivity|].
      exact H.
    + cbn [List.length]. etransitivity; [exact Hlen|].
      unfold set_add. destruct (set_has acc v); [lia|]. rewrite length_app. cbn. lia.
Qed.

(** ** The reducers and the selectors *)

(** The reducers keep the set a set. *)
Lemma reducers_keep_set (state : FavoriteTokensState) (token : TokenIdentifier)
    (array : list string) :
  NoDup (favoriteTokens state) ->
  NoDup (favoriteTokens (addFavoriteToken state token))
  /\ NoDup (favoriteTokens (removeFavoriteToken state token))
  /\ NoDup (favoriteTokens (toggleFavoriteToken state token))
  /\ NoDup (favoriteTokens (clearFavoriteTokens state))
  /\ NoDup (favoriteTokens (setFavoriteTokensFromArray state array)).
Proof.
  intros H. unfold toggleFavoriteToken.
  destruct (set_has (favoriteTokens state) (serializeTokenId token)); cbn;
    repeat split;
    auto using NoDup_set_add, NoDup_set_delete, NoDup_nil;
    apply (set_of_array_acc array []); constructor.
Qed.

(** X4.  After [addFavoriteToken], the favorites are the token added and those
    that were favorites before; tokens are told apart by address, chain id
    and stakedness when their chain ids hold no hyphen. *)
Theorem selectIsFavoriteToken_addFavoriteToken (state : FavoriteTokensState)
    (token token' : TokenIdentifier) (chain chain' : string) :
  chainId token = Some chain -> chainId token' = Some chain' ->
  occurs "-" chain = false -> occurs "-" chain' = false ->
  (selectIsFavoriteToken (addFavoriteToken state token) token' = true <->
   selectIsFavoriteToken state token' = true
   \/ (address token' = address token /\ chain' = chain
       /\ truthy (isStaked token') = truthy (isStaked token))).
Proof.
  intros Hc Hc' Hf Hf'. unfold selectIsFavoriteToken, selectFavoriteTokens, addFavoriteToken.
  cbn [favoriteTokens]. rewrite !set_has_In, In_set_add.
  now rewrite (serializeTokenId_injective token' token Hc' Hc Hf' Hf).
Qed.

(** X5.  After [removeFavoriteToken], the favorites are those that were
    favorites before, the token removed apart. *)
Theorem selectIsFavoriteToken_removeFavoriteToken (state : FavoriteTokensState)
    (token token' : TokenIdentifier) (chain chain' : string) :
  chainId token = Some chain -> chainId token' = Some chain' ->
  occurs "-" chain = false -> occurs "-" chain' = false ->
  (selectIsFavoriteToken (removeFavoriteToken state token) token' = true <->
   selectIsFavoriteToken state token' = true
   /\ ~ (address token' = address token /\ chain' = chain
         /\ truthy (isStaked token') = truthy (isStaked token))).
Proof.
  intros Hc Hc' Hf Hf'.
  unfold selectIsFavoriteToken, selectFavoriteTokens, removeFavoriteToken.
  cbn [favoriteTokens]. rewrite !set_has_In, In_set_delete.
  now rewrite (serializeTokenId_injective token' token Hc' Hc Hf' Hf).
Qed.

(** X6.  A hyphen is not escaped: the token with address [a-b] on chain [c] and
    the token with address [a] on chain [b-c] have one identifier, so
    marking either as a favorite marks the other. *)
Theorem favorite_by_hyphen (state : FavoriteTokensState) (a b c : string)
    (staked : option bool) :
  selectIsFavoriteToken
    (addFavoriteToken state
       {| address := a ++ "-" ++ b; chainId := Some c; isStaked := staked |})
    {| address := a; chainId := Some (b ++ "-" ++ c)%string; isStaked := staked |}
  = true.
Proof.
  unfold selectIsFavoriteToken, selectFavoriteTokens, addFavoriteToken.
  cbn [favoriteTokens]. rewrite set_has_In, In_set_add. right.
  unfold serializeTokenId. cbn [address chainId isStaked templated].
  now rewrite !append_assoc.
Qed.

(** X7.  [toggleFavoriteToken] flips the token and leaves every token with
    another identifier as it was. *)
Theorem selectIsFavoriteToken_toggleFavoriteToken (state : FavoriteTokensState)
    (token : TokenIdentifier) :
  selectIsFavoriteToken (toggleFavoriteToken state token) token
  = negb (selectIsFavoriteToken state token)
  /\ forall token',
       serializeTokenId token' <> serializeTokenId token ->
       selectIsFavoriteToken (toggleFavoriteToken state token) token'
       = selectIsFavoriteToken state token'.
Proof.
  unfold selectIsFavoriteToken, selectFavoriteTokens, toggleFavoriteToken.
  set (s := favoriteTokens state). set (id := serializeTokenId token).
  assert (Hiff : forall (a b : bool), (a = true <-> b = true) -> a = b)
    by (intros [|] [|] [H1 H2]; auto; symmetry; auto).
  destruct (set_has s id) eqn:H; cbn [favoriteTokens negb]; split.
  - apply set_has_not_In. rewrite In_set_delete. tauto.
  - intros token' Hne. apply Hiff. rewrite !set_has_In, In_set_delete. tauto.
  - apply set_has_In. rewrite In_set_add. now right.
  - intros token' Hne. apply Hiff. rewrite !set_has_In, In_set_add. tauto.
Qed.

Lemma toggleFavoriteToken_set (s : StringSet) (token : TokenIdentifier) :
  toggleFavoriteToken {| favoriteTokens := s |} token =
  {| favoriteTokens :=
       if set_has s (serializeTokenId token)
       then set_delete s (serializeTokenId token)
       else (s ++ [serializeTokenId token])%list |}.
Proof.
  unfold toggleFavoriteToken, set_add. cbn [favoriteTokens].
  destruct (set_has s (serializeTokenId token)); reflexivity.
Qed.

(** X8.  Toggling twice gives back the state when the token was no favorite;
    when it was, the token moves to the end of the set. In both cases the
    same tokens are favorites as before. *)
Theorem toggleFavoriteToken_twice (state : FavoriteTokensState) (token : TokenIdentifier) :
  let twice := toggleFavoriteToken (toggleFavoriteToken state token) token in
  (selectIsFavoriteToken state token = false -> twice = state)
  /\ (selectIsFavoriteToken state token = true ->
      favoriteTokens twice =
      (set_delete (favoriteTokens state) (serializeTokenId token)
         ++ [serializeTokenId token])%list)
  /\ forall token', selectIsFavoriteToken twice token' = selectIsFavoriteToken state token'.
Proof.
  intros twice. unfold twice, selectIsFavoriteToken, selectFavoriteTokens.
  destruct state as [s]. cbn [favoriteTokens]. rewrite !toggleFavoriteToken_set.
  set (id := serializeTokenId token).
  assert (Hiff : forall (a b : bool), (a = true <-> b = true) -> a = b)
    by (intros [|] [|] [H1 H2]; auto; symmetry; auto).
  destruct (set_has s id) eqn:H.
  - assert (Hd : set_has (set_delete s id) id = false)
      by (apply set_has_not_In; rewrite In_set_delete; tauto).
    rewrite Hd. cbn [favoriteTokens].
    split; [discriminate|split; [reflexivity|]].
    intros token'. apply Hiff. rewrite !set_has_In, in_app_iff, In_set_delete. cbn.
    apply set_has_In in H.
    destruct (string_dec (serializeTokenId token') id) as [->|Hne]; intuition congruence.
  - assert (Ha : set_has (s ++ [id])%list id = true)
      by (apply set_has_In, in_or_app; right; now left).
    rewrite Ha. apply set_has_not_In in H.
    assert (Hs : set_delete (s ++ [id])%list id = s).
    { unfold set_delete. rewrite filter_app. cbn. rewrite String.eqb_refl. cbn.
      rewrite app_nil_r. now apply set_delete_absent. }
    rewrite Hs. split; [reflexivity|split; [discriminate|reflexivity]].
Qed.

(** X9.  The count of favorites moves by one when a reducer changes the set, and
    not at all otherwise. *)
Theorem selectFavoriteTokensCount_reducers (state : FavoriteTokensState)
    (token : TokenIdentifier) :
  NoDup (favoriteTokens state) ->
  let count := selectFavoriteTokensCount in
  let was := selectIsFavoriteToken state token in
  count (addFavoriteToken state token) = (count state + if was then 0 else 1)%nat
  /\ (count (removeFavoriteToken state token) + if was then 1 else 0)%nat = count state
  /\ (if was
      then S (count (toggleFavoriteToken state token)) = count state
      else count (toggleFavoriteToken state token) = S (count state))
  /\ count (clearFavoriteTokens state) = 0%nat.
Proof.
  intros Hnd count was. unfold count, was, selectFavoriteTokensCount, selectIsFavoriteToken,
    selectFavoriteTokens, addFavoriteToken, removeFavoriteToken, toggleFavoriteToken.
  set (s := favoriteTokens state) in *. set (id := serializeTokenId token).
  destruct (set_has s id) eqn:H; cbn [favoriteTokens].
  - unfold set_add. rewrite H. apply set_has_In in H.
    pose proof (@length_set_delete s id Hnd H). repeat split; try lia.
  - unfold set_add. rewrite H. apply set_has_not_In in H.
    rewrite (@set_delete_absent s id H), length_app. cbn. repeat split; lia.
Qed.

(** X10.  [setFavoriteTokensFromArray] replaces the favorites by the identifiers
    of the array, each once. *)
Theorem setFavoriteTokensFromArray_favorites (state : FavoriteTokensState)
    (payload : list string) :
  let state' := setFavoriteTokensFromArray state payload in
  (forall token,
     selectIsFavoriteToken state' token = true <-> In (serializeTokenId token) payload)
  /\ (selectFavoriteTokensCount state' <= List.length payload)%nat
  /\ (NoDup payload -> array_of_set (selectFavoriteTokens state') = payload).
Proof.
  intros state'. unfold state', selectIsFavoriteToken, selectFavoriteTokensCount,
    selectFavoriteTokens, setFavoriteTokensFromArray, set_of_array, array_of_set.
  cbn [favoriteTokens].
  destruct (set_of_array_acc payload []) as [Hin [_ [Heq Hlen]]]. repeat split.
  - intros H. apply set_has_In, Hin in H. destruct H as [[]|H]. exact H.
  - intros H. apply set_has_In, Hin. now right.
  - exact Hlen.
  - intros H. now apply Heq.
Qed.

(** X11.  What is persisted comes back as it was; a stored array comes back as
    the set of its elements, and is persisted again unchanged exactly when
    it holds no duplicate. *)
Theorem favoriteTokensTransform_round_trip :
  (forall state,
     NoDup (favoriteTokens state) ->
     favoriteTokensTransform_in (Some (favoriteTokensTransform_out state)) = Rebuilt state)
  /\ (forall array,
        exists state,
          favoriteTokensTransform_in (Some (AnArray array)) = Rebuilt state
          /\ NoDup (favoriteTokens state)
          /\ (forall v, In v (favoriteTokens state) <-> In v array)
          /\ (favoriteTokensTransform_out state = AnArray array <-> NoDup array)).
Proof.
  split.
  - intros [s] H. cbn in *. unfold array_of_set, set_of_array.
    now rewrite (proj1 (proj2 (proj2 (set_of_array_acc s []))) H).
  - intros array. eexists. split; [reflexivity|]. cbn [favoriteTokens].
    destruct (set_of_array_acc array []) as [Hin [Hnd [Heq _]]].
    split; [apply Hnd; constructor|split].
    + intros v. rewrite (Hin v). cbn. tauto.
    + unfold favoriteTokensTransform_out, array_of_set, set_of_array. cbn [favoriteTokens].
      split.
      * intros H. injection H as H. rewrite <- H. apply Hnd. constructor.
      * intros H. f_equal. now apply Heq.
Qed.

(** X12.  A token marked as a favorite is in the list of favorites, with its
    address and chain id, when its chain id holds no hyphen. *)
Theorem selectFavoriteTokensList_addFavoriteToken (state : FavoriteTokensState)
    (token : TokenIdentifier) (chain : string) :
  chainId token = Some chain ->
  occurs "-" chain = false ->
  In {| address := address token;
        chainId := Some chain;
        isStaked := Some (truthy (isStaked token)) |}
     (selectFavoriteTokensList (addFavoriteToken state token)).
Proof.
  intros Hc Hf. unfold selectFavoriteTokensList, selectFavoriteTokens, array_of_set.
  rewrite <- (deserializeTokenId_free token Hc Hf).
  apply in_map. unfold addFavoriteToken. cbn [favoriteTokens].
  apply In_set_add. now right.
Qed.


(** * Gestures *)

Section Perform.
Context {W R : Type} (d : device W).
Implicit Types (t : itree gestureE R) (w : W).

Lemma perform_Ret fuel (r : R) w : perform d (S fuel) (Ret r) w = Gesture (Some r) w [].
Proof. reflexivity. Qed.

Lemma perform_Tau fuel t w : perform d (S fuel) (Tau t) w = perform d fuel t w.
Proof. reflexivity. Qed.

Lemma perform_Vis fuel {T} (e : gestureE T) (k : T -> itree gestureE R) w :
  perform d (S fuel) (Vis e k) w =
  let '(a, w', c) := act d e w in then_ c (perform d fuel (k a) w').
Proof. reflexivity. Qed.

Lemma actions_perform_Ret fuel (r : R) w : actions (perform d fuel (Ret r) w) = [].
Proof. destruct fuel; reflexivity. Qed.

Lemma perform_eq_itree fuel :
  forall t1 t2 w, t1 ≅ t2 -> perform d fuel t1 w = perform d fuel t2 w.
Proof.
  induction fuel as [|n IH]; intros t1 t2 w H; [reflexivity|].
  apply eqit_inv in H. simpl. unfold observe.
  destruct (_observe t1) as [r1|u1|X1 e1 k1], (_observe t2) as [r2|u2|X2 e2 k2];
    simpl in H; try contradiction; try discriminate.
  - now subst.
  - now apply IH.
  - destruct H as [p [He Hk]]. destruct p. simpl in He, Hk. subst e2.
    destruct (act d e1 w) as [[a w'] c]. f_equal. apply IH, Hk.
Qed.

#[export] Instance perform_Proper fuel :
  Proper (eq_itree eq ==> eq ==> eq) (@perform W R d fuel).
Proof. intros t1 t2 Ht w1 w2 <-. now apply perform_eq_itree. Qed.

Lemma perform_settled fuel : forall t w r fuel',
  result (perform d fuel t w) = Some r -> (fuel <= fuel')%nat ->
  perform d fuel' t w = perform d fuel t w.
Proof.
  induction fuel as [|n IH]; intros t w r m H Hle; [discriminate|].
  destruct m as [|m]; [lia|]. simpl in *.
  destruct (observe t) as [r0|t'|X e k]; [reflexivity| |].
  - apply IH with r; [assumption|lia].
  - destruct (act d e w) as [[a w'] c]. simpl in H.
    f_equal. apply IH with r; [assumption|lia].
Qed.
End Perform.

Section Called.
Context {W A R : Type} (d : device W) (k : A -> itree gestureE R).

(** A poller that has not settled leaves the gesture unsettled. *)
Lemma perform_Utilities_unsettled fuel :
  forall (t : itree pollE A) w,
    outcome (run (polled d) fuel t w) = None ->
    perform d fuel (Utilities_ t >>= k) w =
    Gesture None (world (run (polled d) fuel t w))
            (List.map Polled (calls (run (polled d) fuel t w))).
Proof.
  induction fuel as [|n IH]; intros t w H; [reflexivity|].
  unfold Utilities_ in *. cbn [run] in *.
  destruct (observe t) as [v|t'|X e k0] eqn:Ht.
  - discriminate.
  - rewrite (itree_eta t), Ht, translate_tau, bind_tau, perform_Tau. now apply IH.
  - rewrite (itree_eta t), Ht, translate_vis, bind_vis, perform_Vis. cbn [act].
    destruct (handle (polled d) e w) as [[a w'] c]. cbn [after outcome world calls List.map] in *.
    rewrite IH by assumption. reflexivity.
Qed.

(** A poller that has settled hands over to the rest of the gesture. *)
Lemma perform_Utilities_settled fuel :
  forall (t : itree pollE A) w v,
    outcome (run (polled d) fuel t w) = Some v ->
    exists extra, (1 <= extra <= fuel)%nat /\
      forall more,
        perform d (fuel + more) (Utilities_ t >>= k) w =
        polls_then (calls (run (polled d) fuel t w))
          (perform d (extra + more) (k v) (world (run (polled d) fuel t w))).
Proof.
  induction fuel as [|n IH]; intros t w v H; [discriminate|].
  unfold Utilities_ in *. cbn [run] in *.
  destruct (observe t) as [v'|t'|X e k0] eqn:Ht.
  - injection H as ->. exists (S n). split; [lia|]. intros more.
    rewrite (itree_eta t), Ht, translate_ret, bind_ret_l.
    unfold polls_then. cbn [calls world List.map app].
    now destruct (perform d (S n + more) (k v) w).
  - destruct (IH t' w v H) as [extra [Hx Hm]]. exists extra. split; [lia|]. intros more.
    rewrite (itree_eta t), Ht, translate_tau, bind_tau.
    change (S n + more)%nat with (S (n + more)). rewrite perform_Tau. apply Hm.
  - destruct (handle (polled d) e w) as [[a w'] c] eqn:He.
    cbn [after outcome world calls] in *.
    destruct (IH (k0 a) w' v H) as [extra [Hx Hm]]. exists extra. split; [lia|]. intros more.
    rewrite (itree_eta t), Ht, translate_vis, bind_vis.
    change (S n + more)%nat with (S (n + more)). rewrite perform_Vis. cbn [act].
    rewrite He, Hm. reflexivity.
Qed.
End Called.


(** * More on [waitForElementToBeEnabled] *)

Lemma waitForElementToBeEnabled_rounds {W} (h : env W) (timeout interval : option Z)
    (rounds : nat) (w : W) :
  run h (1 + 5 * rounds) (waitForElementToBeEnabled timeout interval) w =
  EnabledPoller h rounds (default 3500 timeout) (default 100 interval) w.
Proof.
  rewrite waitForElementToBeEnabled_unfold. unfold EnabledPoller.
  change (1 + 5 * rounds)%nat with (S (5 * rounds)). rewrite run_Vis. cbn [handle].
  destruct (now h w) as [s w0]. now rewrite waitForElementToBeEnabled_round.
Qed.

(** The poller resolves at a read that found the element enabled. *)
Lemma EnabledPoller_rounds_resolved {W} (h : env W) (start timeout interval : Z) :
  forall rounds w,
    outcome (EnabledPoller_rounds h rounds start timeout interval w) = Some Resolved ->
    exists pre a,
      calls (EnabledPoller_rounds h rounds start timeout interval w)
      = (pre ++ [AttributesGave (inr a)])%list
      /\ enabled a = true.
Proof.
  induction rounds as [|n IH]; intros w; [discriminate|]. cbn [EnabledPoller_rounds].
  destruct (now h w) as [t w1]. destruct (timeout <=? t - start); [discriminate|].
  destruct (element h w1) as [[e|[]] w2]; [discriminate|].
  destruct (getAttributes h w2) as [[e|a] w3]; [discriminate|].
  destruct (enabled a) eqn:Ha; cbn [after outcome calls].
  - intros _. exists [NowAt t; ElementGave (inr tt)], a. now split.
  - intros H. destruct (IH _ H) as [pre [a' [Hc Ha']]].
    exists (NowAt t :: ElementGave (inr tt) :: AttributesGave (inr a) :: Slept interval :: pre), a'.
    rewrite Hc. now split.
Qed.

Lemma waitForElementToBeEnabled_resolved {W} (h : env W) (timeout interval : option Z)
    (fuel : nat) (w : W) :
  outcome (run h fuel (waitForElementToBeEnabled timeout interval) w) = Some Resolved ->
  exists pre a,
    calls (run h fuel (waitForElementToBeEnabled timeout interval) w)
    = (pre ++ [AttributesGave (inr a)])%list
    /\ enabled a = true.
Proof.
  intros H.
  assert (E : run h fuel (waitForElementToBeEnabled timeout interval) w =
              EnabledPoller h fuel (default 3500 timeout) (default 100 interval) w).
  { rewrite <- waitForElementToBeEnabled_rounds. symmetry.
    apply run_settled with Resolved; [exact H|lia]. }
  rewrite E in *. unfold EnabledPoller in *. destruct (now h w) as [s w0].
  cbn [after outcome calls] in *.
  destruct (EnabledPoller_rounds_resolved _ _ _ _ _ _ H) as [pre [a [Hc Ha]]].
  exists (NowAt s :: pre), a. rewrite Hc. now split.
Qed.

(** ** An element that is never enabled, under an ideal clock *)

Lemma never_enabled_round (fuel : nat) (startTime timeout interval c : Z) :
  run never_met (5 + fuel) (waitForElementToBeEnabled_poll startTime timeout interval false) c =
  after (NowAt c)
    (if c - startTime <? timeout
     then
       after (ElementGave (inr tt))
         (after (AttributesGave (inr {| enabled := false; frame := None |}))
            (after (Slept interval)
               (run never_met fuel
                  (waitForElementToBeEnabled_poll startTime timeout interval false)
                  (c + interval))))
     else Run (Some (Rejected (Error notEnabledMessage))) c []).
Proof.
  change (5 + fuel)%nat with (S (S (S (S (S fuel))))).
  rewrite waitForElementToBeEnabled_poll_unfold at 1.
  rewrite run_Vis. cbn [handle never_met now].
  destruct (c - startTime <? timeout); [|reflexivity].
  rewrite run_Vis. cbn [handle never_met element].
  rewrite run_Vis. cbn [handle never_met getAttributes enabled].
  rewrite run_Vis. cbn [handle never_met sleep]. now rewrite run_Tau.
Qed.

Lemma never_enabled_deadline (startTime timeout interval : Z) :
  0 < interval ->
  forall (n : nat) (c : Z),
    timeout - (c - startTime) <= Z.of_nat n ->
    c - startTime < timeout + interval ->
    (exists j, c - startTime = interval * j) ->
    exists fuel cs elapsed,
      run never_met fuel (waitForElementToBeEnabled_poll startTime timeout interval false) c =
      Run (Some (Rejected (Error notEnabledMessage))) (startTime + elapsed) cs
      /\ c - startTime <= elapsed
      /\ elapsed < timeout + interval
      /\ (timeout <= elapsed)
      /\ exists j, elapsed = interval * j.
Proof.
  intros Hi n. induction n as [|n IH]; intros c Hn Hc [j Hj].
  - exists (5 + 0)%nat. eexists. exists (c - startTime). rewrite never_enabled_round.
    replace (c - startTime <? timeout) with false by (symmetry; apply Z.ltb_ge; lia).
    replace (startTime + (c - startTime)) with c by lia.
    repeat split; try reflexivity; try lia. now exists j.
  - destruct (Z_lt_le_dec (c - startTime) timeout) as [Hlt|Hge].
    + destruct (IH (c + interval)) as [fuel [cs [elapsed [H [H1 [H2 [H3 H4]]]]]]];
        [lia|lia|exists (j + 1); lia|].
      exists (5 + fuel)%nat. eexists. exists elapsed. rewrite never_enabled_round.
      replace (c - startTime <? timeout) with true by (symmetry; apply Z.ltb_lt; lia).
      rewrite H. repeat split; try reflexivity; try lia. exact H4.
    + exists (5 + 0)%nat. eexists. exists (c - startTime). rewrite never_enabled_round.
      replace (c - startTime <? timeout) with false by (symmetry; apply Z.ltb_ge; lia).
      replace (startTime + (c - startTime)) with c by lia.
      repeat split; try reflexivity; try lia. now exists j.
Qed.

(** X13.  An element that is never enabled: under the ideal clock
    [waitForElementToBeEnabled] throws when the clock is at the first
    multiple of the interval at or past the timeout, so less than one
    interval late. *)
Theorem waitForElementToBeEnabled_never_enabled (timeout interval start : Z) :
  0 <= timeout ->
  0 < interval ->
  exists fuel cs elapsed,
    run never_met fuel (waitForElementToBeEnabled (Some timeout) (Some interval)) start =
    Run (Some (Rejected (Error "Element is not enabled"))) (start + elapsed) cs
    /\ timeout <= elapsed < timeout + interval
    /\ exists j, elapsed = interval * j.
Proof.
  intros Ht Hi.
  destruct (@never_enabled_deadline start timeout interval Hi (Z.to_nat timeout) start)
    as [fuel [cs [elapsed [H [_ [H2 [H3 H4]]]]]]]; [lia|lia|exists 0; lia|].
  exists (S fuel). eexists. exists elapsed.
  rewrite waitForElementToBeEnabled_unfold, run_Vis. cbn [handle never_met now default].
  rewrite H. repeat split; try reflexivity; try lia. exact H4.
Qed.


(** * [waitAndTap] *)

Lemma waitAndTap_tap_unfold :
  waitAndTap_tap Resolved ≅
  Vis (inl1 AwaitElement) (fun el =>
    match el with
    | inl e => Ret (Rejected e)
    | inr _ =>
      Vis (inr1 Tap) (fun tapped =>
        match tapped with
        | inl e => Ret (Rejected e)
        | inr _ => Ret Resolved
        end)
    end).
Proof.
  unfold waitAndTap_tap, poll, ask. rewrite bind_trigger. apply eqit_Vis. intros [e|[]].
  - reflexivity.
  - rewrite bind_trigger. reflexivity.
Qed.

Lemma waitAndTap_enabled_unfold (delayBeforeTap : Z) :
  waitAndTap_enabled delayBeforeTap ≅
  if delayBeforeTap >? 0
  then Vis (inl1 (SetTimeout delayBeforeTap)) (fun _ =>
         Utilities_ (waitForElementToBeEnabled None None) >>= waitAndTap_tap)
  else Utilities_ (waitForElementToBeEnabled None None) >>= waitAndTap_tap.
Proof.
  unfold waitAndTap_enabled, delayBeforeAction, poll.
  destruct (delayBeforeTap >? 0).
  - rewrite bind_trigger. reflexivity.
  - rewrite bind_ret_l. reflexivity.
Qed.

Lemma waitAndTap_unfold (options : GestureOptions.t) :
  waitAndTap options ≅
  Vis (inl1 AwaitElement) (fun elementToTap =>
    match elementToTap with
    | inl e => Ret (Rejected e)
    | inr _ =>
      if negb (default_bool false (GestureOptions.skipVisibilityCheck options))
      then
        Vis (inr1 GetPlatform) (fun p =>
          Vis (inr1 (WaitFor match p with ios => toExist | android => toBeVisible end
                             (default 15000 (GestureOptions.timeout options))))
            (fun shown =>
               match shown with
               | inl e => Ret (Rejected e)
               | inr _ =>
                 waitAndTap_enabled (default 0 (GestureOptions.delayBeforeTap options))
               end))
      else waitAndTap_enabled (default 0 (GestureOptions.delayBeforeTap options))
    end).
Proof.
  unfold waitAndTap, poll, ask. rewrite bind_trigger. apply eqit_Vis. intros [e|[]].
  - reflexivity.
  - destruct (negb (default_bool false (GestureOptions.skipVisibilityCheck options))).
    + rewrite bind_bind, bind_trigger. apply eqit_Vis. intros p.
      destruct p; rewrite bind_trigger; apply eqit_Vis; intros [e|[]]; reflexivity.
    + rewrite bind_ret_l. reflexivity.
Qed.

Section WaitAndTap.
Context {W : Type} (d : device W).

Lemma tapped_enabled_unsettled (w : W) acts : tapped_enabled (Gesture None w acts).
Proof. split; [discriminate|intros e; discriminate]. Qed.

Lemma tapped_enabled_Ret fuel e w :
  tapped_enabled (perform d fuel (Ret (Rejected e)) w).
Proof.
  destruct fuel; [apply tapped_enabled_unsettled|].
  split; [discriminate|]. intros e' _ [].
Qed.

Lemma tapped_enabled_then a (g : gesture_t W settled) :
  a <> Tapped (inr tt) -> tapped_enabled g -> tapped_enabled (then_ a g).
Proof.
  intros Ha [H1 H2]. split; cbn [then_ result actions].
  - intros Hr. destruct (H1 Hr) as [pre [at_ [E Hen]]]. exists (a :: pre), at_.
    rewrite E. now split.
  - intros e Hr [Hin|Hin]; [congruence|]. exact (H2 e Hr Hin).
Qed.

Lemma tapped_enabled_Vis fuel {T} (e : gestureE T) (k : T -> itree gestureE settled) w :
  (forall a w' c, act d e w = (a, w', c) -> c <> Tapped (inr tt)) ->
  (forall a w' fuel', tapped_enabled (perform d fuel' (k a) w')) ->
  tapped_enabled (perform d fuel (Vis e k) w).
Proof.
  intros Hc Hk. destruct fuel; [apply tapped_enabled_unsettled|].
  rewrite perform_Vis. destruct (act d e w) as [[a w'] c] eqn:E.
  apply tapped_enabled_then; [now apply (Hc a w')|apply Hk].
Qed.

Lemma act_polled {T} (e : pollE T) w a w' c :
  act d (inl1 e) w = (a, w', c) -> c <> Tapped (inr tt).
Proof.
  cbn [act]. destruct (handle (polled d) e w) as [[a0 w0] c0].
  intros H. injection H as _ _ <-. discriminate.
Qed.

Lemma waitAndTap_tap_performed fuel v w :
  tapped_at_once v (perform d fuel (waitAndTap_tap v) w).
Proof.
  destruct v as [|e0].
  - rewrite waitAndTap_tap_unfold.
    destruct fuel as [|fuel]; [split; [discriminate|intros e; discriminate]|].
    rewrite perform_Vis. cbn [act handle].
    destruct (element (polled d) w) as [[e1|[]] w1].
    + destruct fuel; cbn [perform observe then_ result actions _observe];
        (split; cbn [result actions]; [discriminate|]).
      * intros e; discriminate.
      * intros e _ [H|[]]; discriminate.
    + destruct fuel as [|fuel]; [split; [discriminate|intros e; discriminate]|].
      rewrite perform_Vis. cbn [act].
      destruct (tap d w1) as [[e2|[]] w2].
      * destruct fuel; cbn [perform observe then_ result actions _observe];
          (split; cbn [result actions]; [discriminate|]).
        -- intros e; discriminate.
        -- intros e _ [H|[H|[]]]; discriminate.
      * destruct fuel; cbn [perform observe then_ result actions _observe];
          split; cbn [result actions].
        -- discriminate.
        -- intros e; discriminate.
        -- now split.
        -- intros e; discriminate.
  - cbn [waitAndTap_tap].
    destruct fuel; cbn [perform observe result actions _observe];
      split; cbn [result actions].
    + discriminate.
    + intros e; discriminate.
    + discriminate.
    + intros e _ [].
Qed.

Lemma waitAndTap_wait_performed fuel w :
  tapped_enabled
    (perform d fuel (Utilities_ (waitForElementToBeEnabled None None) >>= waitAndTap_tap) w).
Proof.
  destruct (outcome (run (polled d) fuel (waitForElementToBeEnabled None None) w)) as [v|] eqn:Ho.
  - destruct (perform_Utilities_settled d waitAndTap_tap _ _ _ Ho) as [extra [_ Hm]].
    specialize (Hm 0%nat). rewrite !Nat.add_0_r in Hm. rewrite Hm.
    destruct (waitAndTap_tap_performed extra v
                (world (run (polled d) fuel (waitForElementToBeEnabled None None) w)))
      as [H1 H2].
    split; unfold polls_then; cbn [result actions].
    + intros Hr. destruct (H1 Hr) as [-> Ha]. rewrite Ha.
      destruct (waitForElementToBeEnabled_resolved _ _ _ _ _ Ho) as [pre [a [E Hen]]].
      exists (List.map Polled pre), a. split; [|exact Hen].
      rewrite E, map_app, <- app_assoc. reflexivity.
    + intros e Hr Hin. apply in_app_or in Hin. destruct Hin as [Hin|Hin].
      * apply in_map_iff in Hin. destruct Hin as [c [Hc _]]. discriminate.
      * exact (H2 e Hr Hin).
  - rewrite (perform_Utilities_unsettled d waitAndTap_tap _ _ _ Ho).
    apply tapped_enabled_unsettled.
Qed.

Lemma waitAndTap_enabled_performed delayBeforeTap fuel w :
  tapped_enabled (perform d fuel (waitAndTap_enabled delayBeforeTap) w).
Proof.
  rewrite waitAndTap_enabled_unfold. destruct (delayBeforeTap >? 0).
  - apply tapped_enabled_Vis.
    + intros a w' c. apply act_polled.
    + intros a w' fuel'. apply waitAndTap_wait_performed.
  - apply waitAndTap_wait_performed.
Qed.

(** X15.  [waitAndTap] resolves only by a tap that went through, made right after
    a read that found the element enabled and after awaiting the element
    once more; when it is rejected, no tap went through. *)
Theorem waitAndTap_taps_enabled (options : GestureOptions.t) (fuel : nat) (w : W) :
  (result (perform d fuel (waitAndTap options) w) = Some Resolved ->
   exists pre a,
     actions (perform d fuel (waitAndTap options) w)
     = (pre ++ [Polled (AttributesGave (inr a));
                Polled (ElementGave (inr tt));
                Tapped (inr tt)])%list
     /\ enabled a = true)
  /\ (forall e,
        result (perform d fuel (waitAndTap options) w) = Some (Rejected e) ->
        ~ In (Tapped (inr tt)) (actions (perform d fuel (waitAndTap options) w))).
Proof.
  change (tapped_enabled (perform d fuel (waitAndTap options) w)).
  rewrite waitAndTap_unfold.
  apply tapped_enabled_Vis; [intros a w' c; apply act_polled|].
  intros [e|[]] w1 fuel1; [apply tapped_enabled_Ret|].
  destruct (negb (default_bool false (GestureOptions.skipVisibilityCheck options))).
  - apply tapped_enabled_Vis.
    { intros a w' c. cbn [act]. destruct (getPlatform d w1).
      intros H. injection H as _ _ <-. discriminate. }
    intros p w2 fuel2. apply tapped_enabled_Vis.
    { intros a w' c. cbn [act]. destruct (waitFor d _ _ w2).
      intros H. injection H as _ _ <-. discriminate. }
    intros [e|[]] w3 fuel3; [apply tapped_enabled_Ret|].
    apply waitAndTap_enabled_performed.
  - apply waitAndTap_enabled_performed.
Qed.
End WaitAndTap.


(** * [tapWebElement] *)

Lemma bind_if {E A B} (b : bool) (t1 t2 : itree E A) (k : A -> itree E B) :
  ITree.bind (if b then t1 else t2) k
  ≅ if b then ITree.bind t1 k else ITree.bind t2 k.
Proof. destruct b; reflexivity. Qed.

Lemma if_eq_itree {E A} (b : bool) (t1 t2 u1 u2 : itree E A) :
  t1 ≅ u1 -> t2 ≅ u2 -> (if b then t1 else t2) ≅ (if b then u1 else u2).
Proof. destruct b; auto. Qed.

Ltac itree_norm :=
  repeat first [rewrite bind_bind | rewrite bind_ret_l | rewrite bind_trigger].

Ltac itree_catch :=
  unfold poll; itree_norm; unfold tapWebElement_catch; apply eqit_Vis; intros [];
  itree_norm; reflexivity.

Lemma tapWebElement_loop_unfold (start timeout delayBeforeTap : Z) :
  tapWebElement_loop start timeout delayBeforeTap ≅
  Vis (inl1 DateNow) (fun currentTime =>
    if currentTime - start <? timeout
    then
      Vis (inl1 AwaitElement) (fun el =>
        match el with
        | inl _ => tapWebElement_catch start timeout delayBeforeTap
        | inr _ =>
          Vis (inr1 (Expect toExist)) (fun exists_ =>
            match exists_ with
            | inl _ => tapWebElement_catch start timeout delayBeforeTap
            | inr _ =>
              if delayBeforeTap >? 0
              then Vis (inl1 (SetTimeout delayBeforeTap)) (fun _ =>
                     tapWebElement_tap start timeout delayBeforeTap)
              else tapWebElement_tap start timeout delayBeforeTap
            end)
        end)
    else Ret (Rejected (Error notTappableMessage))).
Proof.
  unfold tapWebElement_loop at 1. rewrite unfold_iter. unfold poll at 1.
  itree_norm. apply eqit_Vis. intros currentTime.
  destruct (currentTime - start <? timeout); [|now itree_norm].
  unfold tapWebElement_try. unfold poll at 1. itree_norm.
  apply eqit_Vis. intros [e|[]]; [itree_catch|].
  unfold ask at 1. itree_norm.
  apply eqit_Vis. intros [e|[]]; [itree_catch|].
  unfold delayBeforeAction. rewrite !bind_if. apply if_eq_itree.
  - unfold poll at 1. itree_norm. apply eqit_Vis. intros [].
    unfold poll at 1. itree_norm. unfold tapWebElement_tap.
    apply eqit_Vis. intros [e|[]]; [itree_catch|].
    unfold ask. itree_norm. apply eqit_Vis.
    intros [e|[]]; [itree_catch|]. now itree_norm.
  - unfold poll at 1. itree_norm. unfold tapWebElement_tap.
    apply eqit_Vis. intros [e|[]]; [itree_catch|].
    unfold ask. itree_norm. apply eqit_Vis.
    intros [e|[]]; [itree_catch|]. now itree_norm.
Qed.

Lemma tapWebElement_unfold (options : GestureOptions.t) :
  tapWebElement options ≅
  Vis (inl1 DateNow) (fun start =>
    tapWebElement_loop start (default 15000 (GestureOptions.timeout options))
                       (default 0 (GestureOptions.delayBeforeTap options))).
Proof. unfold tapWebElement, poll. rewrite bind_trigger. reflexivity. Qed.

Section TapWebElement.
Context {W : Type} (d : device W).

Lemma tapped_or_gave_up_unsettled (w : W) acts :
  tapped_or_gave_up (Gesture (R:=settled) None w acts).
Proof. intros acc. exact I. Qed.

Lemma tapped_or_gave_up_then a (g : gesture_t W settled) :
  tapped_or_gave_up g -> tapped_or_gave_up (then_ a g).
Proof.
  intros H acc. cbn [then_ result actions fold_left]. exact (H (isTap a)).
Qed.

Lemma tapped_or_gave_up_Vis fuel {T} (e : gestureE T) (k : T -> itree gestureE settled) w :
  (forall a w', tapped_or_gave_up (perform d (pred fuel) (k a) w')) ->
  tapped_or_gave_up (perform d fuel (Vis e k) w).
Proof.
  intros Hk. destruct fuel; [apply tapped_or_gave_up_unsettled|].
  rewrite perform_Vis. destruct (act d e w) as [[a w'] c].
  apply tapped_or_gave_up_then, Hk.
Qed.

Lemma tapWebElement_catch_performed start timeout delayBeforeTap fuel w :
  (forall fuel' w', (fuel' < fuel)%nat ->
     tapped_or_gave_up (perform d fuel' (tapWebElement_loop start timeout delayBeforeTap) w')) ->
  tapped_or_gave_up (perform d fuel (tapWebElement_catch start timeout delayBeforeTap) w).
Proof.
  intros IH. unfold tapWebElement_catch. apply tapped_or_gave_up_Vis. intros [] w'.
  destruct fuel as [|[|fuel]]; try apply tapped_or_gave_up_unsettled.
  cbn [pred]. rewrite perform_Tau. apply IH. lia.
Qed.

Lemma tapWebElement_tap_performed start timeout delayBeforeTap fuel w :
  (forall fuel' w', (fuel' < fuel)%nat ->
     tapped_or_gave_up (perform d fuel' (tapWebElement_loop start timeout delayBeforeTap) w')) ->
  tapped_or_gave_up (perform d fuel (tapWebElement_tap start timeout delayBeforeTap) w).
Proof.
  intros IH. unfold tapWebElement_tap. apply tapped_or_gave_up_Vis. intros [e|[]] w1.
  - apply tapWebElement_catch_performed. intros fuel' w' H. apply IH. lia.
  - destruct (pred fuel) as [|fuel1] eqn:E1; [apply tapped_or_gave_up_unsettled|].
    rewrite perform_Vis. cbn [act]. destruct (tap d w1) as [[e|[]] w2].
    + apply tapped_or_gave_up_then, tapWebElement_catch_performed.
      intros fuel' w' H. apply IH. lia.
    + destruct fuel1; intros acc; [exact I|reflexivity].
Qed.

Lemma tapWebElement_loop_performed start timeout delayBeforeTap :
  forall fuel w,
    tapped_or_gave_up (perform d fuel (tapWebElement_loop start timeout delayBeforeTap) w).
Proof.
  induction fuel as [fuel IH] using lt_wf_ind. intros w.
  rewrite tapWebElement_loop_unfold. apply tapped_or_gave_up_Vis. intros currentTime w1.
  destruct (currentTime - start <? timeout).
  - apply tapped_or_gave_up_Vis. intros [e|[]] w2.
    + apply tapWebElement_catch_performed. intros fuel' w' H. apply IH. lia.
    + apply tapped_or_gave_up_Vis. intros [e|[]] w3.
      * apply tapWebElement_catch_performed. intros fuel' w' H. apply IH. lia.
      * destruct (delayBeforeTap >? 0).
        -- apply tapped_or_gave_up_Vis. intros [] w4.
           apply tapWebElement_tap_performed. intros fuel' w' H. apply IH. lia.
        -- apply tapWebElement_tap_performed. intros fuel' w' H. apply IH. lia.
  - destruct (pred fuel); intros acc; [exact I|reflexivity].
Qed.

(** X17.  [tapWebElement] swallows every error of the element, of the
    expectation and of the tap: it resolves only right after a tap that
    went through, and it is rejected only with its own message. *)
Theorem tapWebElement_swallows_errors (options : GestureOptions.t) (fuel : nat) (w : W)
    (o : settled) :
  result (perform d fuel (tapWebElement options) w) = Some o ->
  (o = Resolved /\ endsWithTap (actions (perform d fuel (tapWebElement options) w)) = true)
  \/ o = Rejected (Error "Web element not found or not tappable").
Proof.
  assert (H : tapped_or_gave_up (perform d fuel (tapWebElement options) w)).
  { rewrite tapWebElement_unfold. apply tapped_or_gave_up_Vis. intros start w1.
    apply tapWebElement_loop_performed. }
  intros Hr. specialize (H false). rewrite Hr in H. destruct o as [|e].
  - left. now split.
  - right. now rewrite H.
Qed.

(** X18.  When the budget is already spent at the first look at the clock, the
    element is not touched. *)
Theorem tapWebElement_expired (options : GestureOptions.t) (fuel : nat)
    (w w1 w2 : W) (start currentTime : Z) :
  now (polled d) w = (start, w1) ->
  now (polled d) w1 = (currentTime, w2) ->
  default 15000 (GestureOptions.timeout options) <= currentTime - start ->
  perform d (3 + fuel) (tapWebElement options) w =
  Gesture (Some (Rejected (Error "Web element not found or not tappable"))) w2
          [Polled (NowAt start); Polled (NowAt currentTime)].
Proof.
  intros H1 H2 Ht. change (3 + fuel)%nat with (S (S (S fuel))).
  rewrite tapWebElement_unfold, perform_Vis. cbn [act handle]. rewrite H1.
  rewrite tapWebElement_loop_unfold, perform_Vis. cbn [act handle]. rewrite H2.
  replace (currentTime - start <? _) with false by (symmetry; apply Z.ltb_ge; lia).
  reflexivity.
Qed.
End TapWebElement.

(** ** An element that never exists, under an ideal clock *)

Lemma absent_round (fuel : nat) (start timeout delayBeforeTap c : Z) :
  perform absent (5 + fuel) (tapWebElement_loop start timeout delayBeforeTap) c =
  then_ (Polled (NowAt c))
    (if c - start <? timeout
     then
       then_ (Polled (ElementGave (inr tt)))
         (then_ (Expected toExist (inl (Error "not found")))
            (then_ (Polled (Slept 1000))
               (perform absent fuel (tapWebElement_loop start timeout delayBeforeTap)
                        (c + 1000))))
     else Gesture (Some (Rejected (Error notTappableMessage))) c []).
Proof.
  change (5 + fuel)%nat with (S (S (S (S (S fuel))))).
  rewrite tapWebElement_loop_unfold at 1.
  rewrite perform_Vis. cbn [act handle absent polled never_met now].
  destruct (c - start <? timeout); [|reflexivity].
  rewrite perform_Vis. cbn [act handle absent polled never_met element].
  rewrite perform_Vis. cbn [act absent expect].
  unfold tapWebElement_catch.
  rewrite perform_Vis. cbn [act handle absent polled never_met sleep].
  now rewrite perform_Tau.
Qed.

Lemma absent_deadline (start timeout delayBeforeTap : Z) :
  forall (n : nat) (c : Z),
    timeout - (c - start) <= 1000 * Z.of_nat n ->
    c - start < timeout + 1000 ->
    (exists j, c - start = 1000 * j) ->
    exists fuel acts elapsed,
      perform absent fuel (tapWebElement_loop start timeout delayBeforeTap) c =
      Gesture (Some (Rejected (Error notTappableMessage))) (start + elapsed) acts
      /\ c - start <= elapsed
      /\ elapsed < timeout + 1000
      /\ timeout <= elapsed
      /\ (exists j, elapsed = 1000 * j)
      /\ forall r, ~ In (Tapped r) acts.
Proof.
  induction n as [|n IH]; intros c Hn Hc [j Hj].
  - exists (5 + 0)%nat. eexists. exists (c - start). rewrite absent_round.
    replace (c - start <? timeout) with false by (symmetry; apply Z.ltb_ge; lia).
    replace (start + (c - start)) with c by lia.
    repeat split; try reflexivity; try lia; [now exists j|].
    intros r [H|[]]; discriminate.
  - destruct (Z_lt_le_dec (c - start) timeout) as [Hlt|Hge].
    + destruct (IH (c + 1000)) as [fuel [acts [elapsed [H [H1 [H2 [H3 [H4 H5]]]]]]]];
        [lia|lia|exists (j + 1); lia|].
      exists (5 + fuel)%nat. eexists. exists elapsed. rewrite absent_round.
      replace (c - start <? timeout) with true by (symmetry; apply Z.ltb_lt; lia).
      rewrite H. repeat split; try reflexivity; try lia; [exact H4|].
      cbn [then_ actions]. intros r [E|[E|[E|[E|Hin]]]]; try discriminate.
      exact (H5 r Hin).
    + exists (5 + 0)%nat. eexists. exists (c - start). rewrite absent_round.
      replace (c - start <? timeout) with false by (symmetry; apply Z.ltb_ge; lia).
      replace (start + (c - start)) with c by lia.
      repeat split; try reflexivity; try lia; [now exists j|].
      intros r [H|[]]; discriminate.
Qed.

(** X19.  An element that never exists: under the ideal clock [tapWebElement]
    tries once a second, never taps, and throws when the clock is at the
    first whole second at or past the timeout. *)
Theorem tapWebElement_never_exists (options : GestureOptions.t) (start : Z) :
  0 <= default 15000 (GestureOptions.timeout options) ->
  exists fuel acts elapsed,
    perform absent fuel (tapWebElement options) start =
    Gesture (Some (Rejected (Error "Web element not found or not tappable")))
            (start + elapsed) acts
    /\ default 15000 (GestureOptions.timeout options) <= elapsed
       < default 15000 (GestureOptions.timeout options) + 1000
    /\ (exists j, elapsed = 1000 * j)
    /\ forall r, ~ In (Tapped r) acts.
Proof.
  intros Ht.
  destruct (@absent_deadline start (default 15000 (GestureOptions.timeout options))
              (default 0 (GestureOptions.delayBeforeTap options))
              (Z.to_nat (default 15000 (GestureOptions.timeout options))) start)
    as [fuel [acts [elapsed [H [_ [H2 [H3 [H4 H5]]]]]]]]; [lia|lia|exists 0; lia|].
  exists (S fuel). eexists. exists elapsed.
  rewrite tapWebElement_unfold, perform_Vis. cbn [act handle absent polled never_met now].
  rewrite H. repeat split; try reflexivity; try lia; [exact H4|].
  cbn [then_ actions]. intros r [E|Hin]; [discriminate|]. exact (H5 r Hin).
Qed.


(** ** An element that is never enabled, under an ideal clock *)

Lemma never_enabled_default (c : Z) :
  exists fuel cs,
    run never_met fuel (waitForElementToBeEnabled None None) c =
    Run (Some (Rejected (Error notEnabledMessage))) (c + 3500) cs.
Proof.
  destruct (@never_enabled_deadline c 3500 100 ltac:(lia) 3500%nat c)
    as [fuel [cs [elapsed [H [_ [H2 [H3 [j H4]]]]]]]]; [lia|lia|exists 0; lia|].
  assert (elapsed = 3500) as -> by lia.
  exists (S fuel), (NowAt c :: cs).
  rewrite waitForElementToBeEnabled_unfold, run_Vis. cbn [handle never_met now default].
  now rewrite H.
Qed.

Lemma disabled_wait (p : platform) (c : Z) :
  exists fuel acts,
    perform (disabled p) fuel
      (Utilities_ (waitForElementToBeEnabled None None) >>= waitAndTap_tap) c =
    Gesture (Some (Rejected (Error notEnabledMessage))) (c + 3500) acts
    /\ forall r, ~ In (Tapped r) acts.
Proof.
  destruct (never_enabled_default c) as [fuel [cs H]].
  assert (Ho : outcome (run (polled (disabled p)) fuel
                          (waitForElementToBeEnabled None None) c)
               = Some (Rejected (Error notEnabledMessage))).
  { cbn [disabled polled]. now rewrite H. }
  destruct (perform_Utilities_settled (disabled p) waitAndTap_tap _ _ _ Ho)
    as [extra [Hx Hm]].
  specialize (Hm 0%nat). rewrite !Nat.add_0_r in Hm.
  exists fuel, (List.map Polled cs). rewrite Hm.
  cbn [disabled polled]. rewrite H. cbn [calls world waitAndTap_tap].
  destruct extra as [|extra]; [lia|]. cbn [perform observe _observe].
  unfold polls_then. cbn [result device_left actions]. rewrite app_nil_r.
  split; [reflexivity|]. intros r Hin. apply in_map_iff in Hin.
  destruct Hin as [x [Hx' _]]. discriminate.
Qed.

Lemma disabled_enabled (p : platform) (delayBeforeTap c : Z) :
  exists fuel acts,
    perform (disabled p) fuel (waitAndTap_enabled delayBeforeTap) c =
    Gesture (Some (Rejected (Error notEnabledMessage)))
            (c + Z.max 0 delayBeforeTap + 3500) acts
    /\ forall r, ~ In (Tapped r) acts.
Proof.
  destruct (delayBeforeTap >? 0) eqn:Hd.
  - apply Z.gtb_lt in Hd.
    destruct (disabled_wait p (c + delayBeforeTap)) as [fuel [acts [H Hn]]].
    exists (S fuel), (Polled (Slept delayBeforeTap) :: acts).
    rewrite waitAndTap_enabled_unfold.
    replace (delayBeforeTap >? 0) with true by (symmetry; apply Z.gtb_lt; lia).
    rewrite perform_Vis. cbn [act handle disabled polled never_met sleep].
    change (perform {| polled := never_met; getPlatform := fun c0 : Z => (p, c0);
                       waitFor := fun _ _ c0 => (inr tt, c0);
                       expect := fun _ c0 => (inr tt, c0);
                       tap := fun c0 => (inr tt, c0) |})
      with (perform (disabled p)).
    rewrite H. replace (Z.max 0 delayBeforeTap) with delayBeforeTap by lia.
    split; [reflexivity|]. intros r [E|Hin]; [discriminate|]. exact (Hn r Hin).
  - assert (delayBeforeTap <= 0) by (rewrite Z.gtb_ltb in Hd; apply Z.ltb_ge in Hd; lia).
    destruct (disabled_wait p c) as [fuel [acts [H' Hn]]].
    exists fuel, acts. rewrite waitAndTap_enabled_unfold, Hd, H'.
    replace (Z.max 0 delayBeforeTap) with 0 by lia.
    replace (c + 0 + 3500) with (c + 3500) by lia. now split.
Qed.

(** X16.  An element that is visible and never enabled: under the ideal clock
    [waitAndTap] is rejected with the poller's error after the delay and
    the default 3500 ms of the enabled wait, and makes no tap. *)
Theorem waitAndTap_never_enabled (p : platform) (options : GestureOptions.t) (start : Z) :
  exists fuel acts,
    perform (disabled p) fuel (waitAndTap options) start =
    Gesture (Some (Rejected (Error "Element is not enabled")))
            (start + Z.max 0 (default 0 (GestureOptions.delayBeforeTap options)) + 3500)
            acts
    /\ forall r, ~ In (Tapped r) acts.
Proof.
  destruct (disabled_enabled p (default 0 (GestureOptions.delayBeforeTap options)) start)
    as [fuel [acts [H Hn]]].
  destruct (negb (default_bool false (GestureOptions.skipVisibilityCheck options))) eqn:Hs.
  - eexists (S (S (S fuel))), _. rewrite waitAndTap_unfold, Hs.
    rewrite perform_Vis. cbn [act handle disabled polled never_met element].
    rewrite perform_Vis. cbn [act disabled getPlatform].
    rewrite perform_Vis. cbn [act disabled waitFor].
    change (perform {| polled := never_met; getPlatform := fun c0 : Z => (p, c0);
                       waitFor := fun _ _ c0 => (inr tt, c0);
                       expect := fun _ c0 => (inr tt, c0);
                       tap := fun c0 => (inr tt, c0) |})
      with (perform (disabled p)).
    rewrite H. split; [reflexivity|].
    cbn [then_ actions]. intros r [E|[E|[E|Hin]]]; try discriminate. exact (Hn r Hin).
  - eexists (S fuel), _. rewrite waitAndTap_unfold, Hs.
    rewrite perform_Vis. cbn [act handle disabled polled never_met element].
    change (perform {| polled := never_met; getPlatform := fun c0 : Z => (p, c0);
                       waitFor := fun _ _ c0 => (inr tt, c0);
                       expect := fun _ c0 => (inr tt, c0);
                       tap := fun c0 => (inr tt, c0) |})
      with (perform (disabled p)).
    rewrite H. split; [reflexivity|].
    cbn [then_ actions]. intros r [E|Hin]; try discriminate. exact (Hn r Hin).
Qed.


(** * What rejects [waitForElementToStopMoving] *)

Section Rejections.
Context {W : Type} (h : env W).

Lemma rejection_caused_after c (r : run_t W settled) :
  rejection_caused r -> rejection_caused (after c r).
Proof. intros H acc. cbn [after outcome calls fold_left]. exact (H (Some c)). Qed.

Lemma rejection_caused_unsettled (w : W) cs :
  rejection_caused (Run (R:=settled) None w cs).
Proof. intros acc. exact I. Qed.

Lemma rejection_caused_Resolved fuel (w : W) :
  rejection_caused (run h fuel (Ret Resolved) w).
Proof. destruct fuel; intros acc; exact I. Qed.

Lemma rejection_caused_Vis fuel {T} (e : pollE T) (k : T -> itree pollE settled) w :
  (forall a w', rejection_caused (run h (pred fuel) (k a) w')) ->
  rejection_caused (run h fuel (Vis e k) w).
Proof.
  intros Hk. destruct fuel; [apply rejection_caused_unsettled|].
  rewrite run_Vis. destruct (handle h e w) as [[a w'] c].
  apply rejection_caused_after, Hk.
Qed.

Lemma rejection_caused_suspended fuel ms (t : itree pollE settled) w :
  (forall fuel' w', (fuel' < fuel)%nat -> rejection_caused (run h fuel' t w')) ->
  rejection_caused (run h fuel (Vis (SetTimeout ms) (fun _ => Tau t)) w).
Proof.
  intros IH. apply rejection_caused_Vis. intros [] w'.
  destruct fuel as [|[|fuel]]; try apply rejection_caused_unsettled.
  cbn [pred]. rewrite run_Tau. apply IH. lia.
Qed.

Lemma waitForElementToStopMoving_loop_rejections (start timeout interval stableCount : Z) :
  forall fuel lastPosition stableChecks w,
    rejection_caused
      (run h fuel
         (waitForElementToStopMoving_loop start timeout interval stableCount
            (lastPosition, stableChecks)) w).
Proof.
  induction fuel as [fuel IH] using lt_wf_ind. intros lastPosition stableChecks w.
  rewrite waitForElementToStopMoving_loop_unfold.
  destruct fuel as [|fuel]; [apply rejection_caused_unsettled|].
  rewrite run_Vis. cbn [handle]. destruct (now h w) as [currentTime w1].
  destruct (currentTime - start <? timeout).
  - apply rejection_caused_after.
    destruct fuel as [|fuel]; [apply rejection_caused_unsettled|].
    rewrite run_Vis. cbn [handle]. destruct (element h w1) as [[e|[]] w2].
    + destruct fuel; intros acc; [exact I|reflexivity].
    + apply rejection_caused_after, rejection_caused_Vis. intros attrs w3.
      destruct (sampleOf attrs) as [p|].
      * destruct (samePosition lastPosition p).
        -- destruct (stableChecks + 1 >=? stableCount).
           ++ apply rejection_caused_Resolved.
           ++ apply rejection_caused_suspended. intros fuel' w' H. apply IH.
              cbn [pred] in H. lia.
        -- apply rejection_caused_suspended. intros fuel' w' H. apply IH.
           cbn [pred] in H. lia.
      * apply rejection_caused_Vis. intros [] w4. apply rejection_caused_Resolved.
  - destruct fuel; intros acc; [exact I|reflexivity].
Qed.

(** X14.  [waitForElementToStopMoving] is rejected in two ways only: with its own
    message, right after a look at the clock, or with the error of the
    awaited element, right after awaiting it. An error of the fetch of the
    attributes never rejects it. *)
Theorem waitForElementToStopMoving_rejections (options : WaitForStability.Options)
    (fuel : nat) (w : W) (e : thrown) :
  outcome (run h fuel (waitForElementToStopMoving options) w) = Some (Rejected e) ->
  match lastCall (calls (run h fuel (waitForElementToStopMoving options) w)) with
  | Some (NowAt _) => e = Error "Element did not become stable in time"
  | Some (ElementGave (inl e')) => e = e'
  | _ => False
  end.
Proof.
  assert (H : rejection_caused (run h fuel (waitForElementToStopMoving options) w)).
  { rewrite waitForElementToStopMoving_unfold. apply rejection_caused_Vis. intros start w1.
    apply waitForElementToStopMoving_loop_rejections. }
  intros Ho. specialize (H None). now rewrite Ho in H.
Qed.
End Rejections.

(** * The theorems at work *)

Lemma formatForExactMatchGroup_injective_witness :
  formatForExactMatchGroup ["apple"; "banana"] <> formatForExactMatchGroup ["apple,banana"].
Proof.
  intros H.
  apply (@formatForExactMatchGroup_injective ["apple"; "banana"] ["apple,banana"]) in H.
  - destruct H as [H|[[H _]|[_ H]]]; discriminate.
  - intros s [<-|[<-|[]]]; reflexivity.
  - intros s [<-|[]]; reflexivity.
Defined.

Lemma deserializeTokenId_serializeTokenId_witness :
  chainId dai = Some "0x1"
  /\ occurs "-" "0x1" = false
  /\ deserializeTokenId (serializeTokenId dai) =
     {| address := "0x6b17"; chainId := Some "0x1"; isStaked := Some false |}.
Proof.
  split; [reflexivity|split; [reflexivity|]].
  exact (proj2 (@deserializeTokenId_serializeTokenId dai "0x1" eq_refl) eq_refl).
Defined.

Lemma selectIsFavoriteToken_addFavoriteToken_witness :
  selectIsFavoriteToken (addFavoriteToken initialState dai) dai = true
  /\ selectIsFavoriteToken (addFavoriteToken initialState dai) staked_dai = false.
Proof.
  split.
  - apply (@selectIsFavoriteToken_addFavoriteToken initialState dai dai "0x1" "0x1"
             eq_refl eq_refl eq_refl eq_refl).
    right. repeat split.
  - destruct (selectIsFavoriteToken (addFavoriteToken initialState dai) staked_dai) eqn:E;
      [|reflexivity].
    apply (@selectIsFavoriteToken_addFavoriteToken initialState dai staked_dai "0x1" "0x1"
             eq_refl eq_refl eq_refl eq_refl) in E.
    destruct E as [E|[_ [_ E]]]; discriminate.
Defined.

Lemma selectIsFavoriteToken_removeFavoriteToken_witness :
  selectIsFavoriteToken
    (removeFavoriteToken (addFavoriteToken (addFavoriteToken initialState dai) staked_dai) dai)
    staked_dai = true.
Proof.
  apply (@selectIsFavoriteToken_removeFavoriteToken
           (addFavoriteToken (addFavoriteToken initialState dai) staked_dai)
           dai staked_dai "0x1" "0x1" eq_refl eq_refl eq_refl eq_refl).
  split; [reflexivity|]. intros [_ [_ E]]. discriminate.
Defined.

Lemma selectIsFavoriteToken_toggleFavoriteToken_witness :
  serializeTokenId staked_dai <> serializeTokenId dai
  /\ selectIsFavoriteToken (toggleFavoriteToken (addFavoriteToken initialState dai) dai)
       staked_dai
     = selectIsFavoriteToken (addFavoriteToken initialState dai) staked_dai.
Proof.
  assert (H : serializeTokenId staked_dai <> serializeTokenId dai) by discriminate.
  split; [exact H|].
  exact (proj2 (@selectIsFavoriteToken_toggleFavoriteToken
                  (addFavoriteToken initialState dai) dai) staked_dai H).
Defined.

Lemma toggleFavoriteToken_twice_witness :
  toggleFavoriteToken (toggleFavoriteToken initialState dai) dai = initialState
  /\ favoriteTokens
       (toggleFavoriteToken
          (toggleFavoriteToken (addFavoriteToken (addFavoriteToken initialState dai) staked_dai)
             dai) dai)
     = ["0x6b17-0x1-staked"; "0x6b17-0x1-unstaked"].
Proof.
  split.
  - exact (proj1 (@toggleFavoriteToken_twice initialState dai) eq_refl).
  - exact (proj1 (proj2 (@toggleFavoriteToken_twice
                           (addFavoriteToken (addFavoriteToken initialState dai) staked_dai)
                           dai)) eq_refl).
Defined.

Lemma selectFavoriteTokensCount_reducers_witness :
  NoDup (favoriteTokens (addFavoriteToken initialState dai))
  /\ selectFavoriteTokensCount
       (addFavoriteToken (addFavoriteToken initialState dai) staked_dai) = 2%nat.
Proof.
  assert (H : NoDup (favoriteTokens (addFavoriteToken initialState dai)))
    by (constructor; [intros []|constructor]).
  split; [exact H|].
  exact (proj1 (@selectFavoriteTokensCount_reducers
                  (addFavoriteToken initialState dai) staked_dai H)).
Defined.

Lemma setFavoriteTokensFromArray_favorites_witness :
  NoDup ["0x6b17-0x1-staked"; "0x6b17-0x1-unstaked"]
  /\ array_of_set
       (selectFavoriteTokens
          (setFavoriteTokensFromArray initialState
             ["0x6b17-0x1-staked"; "0x6b17-0x1-unstaked"]))
     = ["0x6b17-0x1-staked"; "0x6b17-0x1-unstaked"].
Proof.
  assert (H : NoDup ["0x6b17-0x1-staked"; "0x6b17-0x1-unstaked"]).
  { constructor; [intros [E|[]]; discriminate|constructor; [intros []|constructor]]. }
  split; [exact H|].
  exact (proj2 (proj2 (@setFavoriteTokensFromArray_favorites initialState
                         ["0x6b17-0x1-staked"; "0x6b17-0x1-unstaked"])) H).
Defined.

Lemma favoriteTokensTransform_round_trip_witness :
  NoDup (favoriteTokens (addFavoriteToken initialState dai))
  /\ favoriteTokensTransform_in
       (Some (favoriteTokensTransform_out (addFavoriteToken initialState dai)))
     = Rebuilt (addFavoriteToken initialState dai).
Proof.
  assert (H : NoDup (favoriteTokens (addFavoriteToken initialState dai)))
    by (constructor; [intros []|constructor]).
  split; [exact H|].
  exact (proj1 favoriteTokensTransform_round_trip (addFavoriteToken initialState dai) H).
Defined.

Lemma selectFavoriteTokensList_addFavoriteToken_witness :
  In {| address := "0x6b17"; chainId := Some "0x1"; isStaked := Some true |}
     (selectFavoriteTokensList (addFavoriteToken (addFavoriteToken initialState dai) staked_dai)).
Proof.
  exact (@selectFavoriteTokensList_addFavoriteToken (addFavoriteToken initialState dai)
           staked_dai "0x1" eq_refl eq_refl).
Defined.

Lemma waitForElementToBeEnabled_never_enabled_witness :
  0 <= 250
  /\ 0 < 100
  /\ exists fuel cs elapsed,
       run never_met fuel (waitForElementToBeEnabled (Some 250) (Some 100)) 0 =
       Run (Some (Rejected (Error "Element is not enabled"))) (0 + elapsed) cs
       /\ 250 <= elapsed < 250 + 100
       /\ exists j, elapsed = 100 * j.
Proof.
  assert (Ht : 0 <= 250) by lia. assert (Hi : 0 < 100) by lia.
  split; [exact Ht|split; [exact Hi|]].
  exact (@waitForElementToBeEnabled_never_enabled 250 100 0 Ht Hi).
Defined.

Lemma waitForElementToStopMoving_rejections_witness :
  outcome (run raising 3 (waitForElementToStopMoving
                            {| WaitForStability.timeout := Some 0;
                               WaitForStability.interval := None;
                               WaitForStability.stableCount := None |}) (at_start 7))
  = Some (Rejected (Error "Element did not become stable in time"))
  /\ match lastCall (calls (run raising 3 (waitForElementToStopMoving
                                             {| WaitForStability.timeout := Some 0;
                                                WaitForStability.interval := None;
                                                WaitForStability.stableCount := None |})
                                  (at_start 7))) with
     | Some (NowAt _) =>
       Error "Element did not become stable in time" =
       Error "Element did not become stable in time"
     | Some (ElementGave (inl e')) => Error "Element did not become stable in time" = e'
     | _ => False
     end.
Proof.
  split; [reflexivity|].
  exact (@waitForElementToStopMoving_rejections _ raising
           {| WaitForStability.timeout := Some 0;
              WaitForStability.interval := None;
              WaitForStability.stableCount := None |}
           3 (at_start 7) (Error "Element did not become stable in time") eq_refl).
Defined.

Lemma waitAndTap_taps_enabled_witness :
  result (perform ready 12 (waitAndTap by_default) (at_start 0)) = Some Resolved
  /\ (exists pre a,
        actions (perform ready 12 (waitAndTap by_default) (at_start 0))
        = (pre ++ [Polled (AttributesGave (inr a));
                   Polled (ElementGave (inr tt));
                   Tapped (inr tt)])%list
        /\ enabled a = true)
  /\ result (perform absent 4 (waitAndTap by_default) 0)
     = Some (Rejected (Error "not visible"))
  /\ ~ In (Tapped (inr tt)) (actions (perform absent 4 (waitAndTap by_default) 0)).
Proof.
  split; [reflexivity|split; [|split; [reflexivity|]]].
  - exact (proj1 (@waitAndTap_taps_enabled _ ready by_default 12 (at_start 0)) eq_refl).
  - exact (proj2 (@waitAndTap_taps_enabled _ absent by_default 4 0)
             (Error "not visible") eq_refl).
Defined.

Lemma tapWebElement_swallows_errors_witness :
  result (perform ready 8 (tapWebElement by_default) (at_start 0)) = Some Resolved
  /\ ((Resolved = Resolved
       /\ endsWithTap (actions (perform ready 8 (tapWebElement by_default) (at_start 0)))
          = true)
      \/ Resolved = Rejected (Error "Web element not found or not tappable")).
Proof.
  split; [reflexivity|].
  exact (@tapWebElement_swallows_errors _ ready by_default 8 (at_start 0) Resolved eq_refl).
Defined.

Lemma tapWebElement_expired_witness :
  now (polled absent) 5 = (5, 5)
  /\ default 15000 (GestureOptions.timeout
                      {| GestureOptions.timeout := Some 0;
                         GestureOptions.delayBeforeTap := None;
                         GestureOptions.skipVisibilityCheck := None;
                         GestureOptions.experimentalWaitForStability := None |}) <= 5 - 5
  /\ perform absent (3 + 0)
       (tapWebElement {| GestureOptions.timeout := Some 0;
                         GestureOptions.delayBeforeTap := None;
                         GestureOptions.skipVisibilityCheck := None;
                         GestureOptions.experimentalWaitForStability := None |}) 5 =
     Gesture (Some (Rejected (Error "Web element not found or not tappable"))) 5
             [Polled (NowAt 5); Polled (NowAt 5)].
Proof.
  assert (H : default 15000 (GestureOptions.timeout
                      {| GestureOptions.timeout := Some 0;
                         GestureOptions.delayBeforeTap := None;
                         GestureOptions.skipVisibilityCheck := None;
                         GestureOptions.experimentalWaitForStability := None |}) <= 5 - 5)
    by (simpl; lia).
  split; [reflexivity|split; [exact H|]].
  exact (@tapWebElement_expired _ absent
           {| GestureOptions.timeout := Some 0;
              GestureOptions.delayBeforeTap := None;
              GestureOptions.skipVisibilityCheck := None;
              GestureOptions.experimentalWaitForStability := None |}
           0 5 5 5 5 5 eq_refl eq_refl H).
Defined.

Lemma tapWebElement_never_exists_witness :
  0 <= default 15000 (GestureOptions.timeout by_default)
  /\ exists fuel acts elapsed,
       perform absent fuel (tapWebElement by_default) 0 =
       Gesture (Some (Rejected (Error "Web element not found or not tappable")))
               (0 + elapsed) acts
       /\ default 15000 (GestureOptions.timeout by_default) <= elapsed
          < default 15000 (GestureOptions.timeout by_default) + 1000
       /\ (exists j, elapsed = 1000 * j)
       /\ forall r, ~ In (Tapped r) acts.
Proof.
  assert (H : 0 <= default 15000 (GestureOptions.timeout by_default)) by (simpl; lia).
  split; [exact H|].
  exact (@tapWebElement_never_exists by_default 0 H).
Defined.
